(** * MRAM controller host scripts: protocol codec and memory test engine

    A shallow embedding of the Python host scripts that drive the AS3004316
    MRAM controller over a serial line ([march_test.py], [main.py],
    [mram_test.py], [non_volatility_test.py]), together with the properties
    of the wire codec and of the memory test algorithms.

    Python integers are unbounded, so addresses and data words are [Z]; the
    shifts and masks of the codec are [Z.shiftr], [Z.shiftl], [Z.land] and
    [Z.lor], which agree with Python's [>>], [<<], [&] and [|] on every
    integer, negative ones included.  Calls that touch the serial port live
    in a state-and-exception monad over the state of the port.  Console
    output ([print]) has no effect on the port and is left out, except where
    it can raise. *)

From Stdlib Require Import ZArith Lia String.
From stdpp Require Import base option list gmap.

Local Open Scope string_scope.
Local Open Scope list_scope.
Local Open Scope Z_scope.

(** ** Exceptions and the state monad *)

Inductive exn : Type :=
  | SerialException
  | IndexError
  | ZeroDivisionError.

Inductive result (A : Type) : Type :=
  | Return (a : A)
  | Raise (e : exn).
Arguments Return {A} a.
Arguments Raise {A} e.

(** A computation over a state [S]: an exception keeps the state reached
    when it was raised, as in Python. *)
Definition M (S A : Type) : Type := S -> result A * S.

Definition ret {S A} (a : A) : M S A := fun s => (Return a, s).

Definition raise {S A} (e : exn) : M S A := fun s => (Raise e, s).

Definition bind {S A B} (m : M S A) (k : A -> M S B) : M S B :=
  fun s =>
    match m s with
    | (Return a, s') => k a s'
    | (Raise e, s') => (Raise e, s')
    end.

Declare Scope m_scope.
Delimit Scope m_scope with m.
Notation "x <- m ;; k" := (bind m (fun x => k))
  (at level 100, m at next level, right associativity) : m_scope.
Notation "m ;;; k" := (bind m (fun _ => k))
  (at level 100, right associativity) : m_scope.
Local Open Scope m_scope.

(** [for x in l: acc = body(x, acc)]: a loop that threads a local
    accumulator (the [errors] list of the test routines). *)
Fixpoint for_each {S A E} (l : list A) (body : A -> E -> M S E) (acc : E)
  : M S E :=
  match l with
  | [] => ret acc
  | x :: l' => acc' <- body x acc ;; for_each l' body acc'
  end.

(** [for x in l: body(x)]. *)
Fixpoint for_ {S A} (l : list A) (body : A -> M S unit) : M S unit :=
  match l with
  | [] => ret tt
  | x :: l' => body x ;;; for_ l' body
  end.

(** ** Python built-ins used by the scripts *)

(** [range(lo, hi)]. *)
Definition py_range (lo hi : Z) : list Z := seqZ lo (hi - lo).

(** [range(hi, lo, -1)]: [hi, hi-1, ...], stopping before [lo]. *)
Definition py_range_down (hi lo : Z) : list Z :=
  (fun i => hi - i) <$> seqZ 0 (hi - lo).

Fixpoint enumerate_from {A} (i : Z) (l : list A) : list (Z * A) :=
  match l with
  | [] => []
  | x :: l' => (i, x) :: enumerate_from (i + 1) l'
  end.

(** [enumerate(l)]. *)
Definition enumerate {A} (l : list A) : list (Z * A) := enumerate_from 0 l.

(** [len(l) == 0]. *)
Definition is_empty {A} (l : list A) : bool :=
  match l with [] => true | _ => false end.

(** [xs[i]] on a byte string returned by the port. *)
Definition index {S} (xs : list Z) (i : nat) : M S Z :=
  match xs !! i with
  | Some x => ret x
  | None => raise IndexError
  end.

(** ** The serial port

    The interface of [serial.Serial] that the scripts use.  [port] is the
    state of the line and of whatever is attached to it.  Every call may
    raise; [time_sleep] lets time pass (its argument is in milliseconds),
    during which the device may answer. *)
Record Serial : Type := {
  port : Type;
  ser_write : list Z -> M port unit;
  ser_read : Z -> M port (list Z);
  ser_in_waiting : M port Z;
  ser_reset_input_buffer : M port unit;
  time_sleep : Z -> M port unit;
}.

(** ** Wire codec

    The command bytes built in [write_mram] and [read_mram]; the four
    scripts build them with the same expressions. *)
Definition addr_h (addr : Z) : Z := Z.land (Z.shiftr addr 16) 0x03.
Definition addr_m (addr : Z) : Z := Z.land (Z.shiftr addr 8) 0xFF.
Definition addr_l (addr : Z) : Z := Z.land addr 0xFF.
Definition data_h (data : Z) : Z := Z.land (Z.shiftr data 8) 0xFF.
Definition data_l (data : Z) : Z := Z.land data 0xFF.

(** [bytes([0x57, addr_h, addr_m, addr_l, data_h, data_l])]. *)
Definition write_cmd (addr data : Z) : list Z :=
  [0x57; addr_h addr; addr_m addr; addr_l addr; data_h data; data_l data].

(** [bytes([0x52, addr_h, addr_m, addr_l])]. *)
Definition read_cmd (addr : Z) : list Z :=
  [0x52; addr_h addr; addr_m addr; addr_l addr].

(** [(response[0] << 8) | response[1]]. *)
Definition decode_word (b0 b1 : Z) : Z := Z.lor (Z.shiftl b0 8) b1.

(** The address a device rebuilds from the three address bytes. *)
Definition wire_address (h m l : Z) : Z :=
  Z.lor (Z.shiftl h 16) (Z.lor (Z.shiftl m 8) l).

(** ** The uart object seen by the test routines

    The test routines of [march_test.py] receive a [uart] and only ever call
    [uart.write_mram(addr, data)] and [uart.read_mram(addr)] on it, with the
    default delays.  [Uart U] is that interface over an object state [U]:
    the [MRAMUART] class is one instance, a test double is another. *)
Class Uart (U : Type) : Type := {
  call_write_mram : Z -> Z -> M U bool;
  call_read_mram : Z -> M U Z;
}.

(** A fault record, as appended to [errors]:
    [(addr, phase, expected, data)]. *)
Definition fault : Type := Z * string * Z * Z.

(** *** A recording wrapper

    [spied U] wraps any uart and records every call that returns, with the
    value a read returned, oldest first. *)
Inductive event : Type :=
  | EvWrite (addr data : Z)
  | EvRead (addr data : Z).

Record spied (U : Type) : Type := Spied { inner : U; calls : list event }.
Arguments Spied {U} inner calls.
Arguments inner {U} s.
Arguments calls {U} s.

Definition spied_write_mram {U} `{Uart U} (addr data : Z) : M (spied U) bool :=
  fun s =>
    match call_write_mram addr data (inner s) with
    | (Return b, u') => (Return b, Spied u' (calls s ++ [EvWrite addr data]))
    | (Raise e, u') => (Raise e, Spied u' (calls s))
    end.

Definition spied_read_mram {U} `{Uart U} (addr : Z) : M (spied U) Z :=
  fun s =>
    match call_read_mram addr (inner s) with
    | (Return d, u') => (Return d, Spied u' (calls s ++ [EvRead addr d]))
    | (Raise e, u') => (Raise e, Spied u' (calls s))
    end.

#[export] Instance spied_uart {U} `{Uart U} : Uart (spied U) := {
  call_write_mram := spied_write_mram;
  call_read_mram := spied_read_mram;
}.

(** *** An ideal test double

    A uart backed by a dictionary: a read of an address returns the word
    most recently written to that address, and [0x0000] for an address that
    was never written.  It never raises. *)
Record ideal_mock : Type := IdealMock { cells : gmap Z Z }.

Definition ideal_write_mram (addr data : Z) : M ideal_mock bool :=
  fun s => (Return true, IdealMock (<[addr := data]> (cells s))).

Definition ideal_read_mram (addr : Z) : M ideal_mock Z :=
  fun s => (Return (default 0x0000 (cells s !! addr)), s).

#[export] Instance ideal_uart : Uart ideal_mock := {
  call_write_mram := ideal_write_mram;
  call_read_mram := ideal_read_mram;
}.

(** A uart none of whose calls raises. *)
Definition never_raises (U : Type) `{Uart U} : Prop :=
  (forall addr data u, exists b u',
      call_write_mram addr data u = (Return b, u')) /\
  (forall addr u, exists d u', call_read_mram addr u = (Return d, u')).

(** ** march_test.py *)
Module march_test.

Section MRAMUART.
Variable ser : Serial.

(** [MRAMUART.write_mram(addr, data, delay=0.002)]. *)
Definition write_mram (addr data : Z) : M (port ser) bool :=
  let cmd := write_cmd addr data in
  ser_write ser cmd ;;;
  time_sleep ser 2 ;;;
  ser_reset_input_buffer ser ;;;
  ret true.

(** [MRAMUART.read_mram(addr, delay=0.02)]: the value [0xDEAD] stands for
    a missing response. *)
Definition read_mram (addr : Z) : M (port ser) Z :=
  let cmd := read_cmd addr in
  ser_reset_input_buffer ser ;;;
  ser_write ser cmd ;;;
  time_sleep ser 20 ;;;
  n <- ser_in_waiting ser ;;
  if 2 <=? n then
    response <- ser_read ser 2 ;;
    b0 <- index response 0 ;;
    b1 <- index response 1 ;;
    ret (decode_word b0 b1)
  else ret 0xDEAD.

#[export] Instance MRAMUART : Uart (port ser) := {
  call_write_mram := write_mram;
  call_read_mram := read_mram;
}.
End MRAMUART.

(** [progress_bar(current, total)]: the bar is printed; computing
    [percent = current / total] raises when [total] is zero. *)
Definition progress_bar {S} (current total : Z) : M S unit :=
  if total =? 0 then raise ZeroDivisionError else ret tt.

(** [if i % 100 == 0: progress_bar(current, total)]. *)
Definition progress_every_100 {S} (i current total : Z) : M S unit :=
  if i mod 100 =? 0 then progress_bar current total else ret tt.

(** [if data != expected: errors.append((addr, phase, expected, data))]. *)
Definition check (errors : list fault) (addr : Z) (phase : string)
    (expected data : Z) : list fault :=
  if negb (data =? expected) then errors ++ [(addr, phase, expected, data)]
  else errors.

Section Tests.
Context {U : Type} `{Uart U}.

Definition march_c_test (start_addr end_addr : Z) : M U (bool * list fault) :=
  let errors : list fault := [] in
  let total := end_addr - start_addr + 1 in
  (* Phase 1: write 0 everywhere *)
  for_ (enumerate (py_range start_addr (end_addr + 1)))
    (fun '(i, addr) =>
       call_write_mram addr 0x0000 ;;;
       progress_every_100 i (i + 1) total) ;;;
  progress_bar total total ;;;
  (* Phase 2: read 0, write 1, ascending *)
  errors <- for_each (enumerate (py_range start_addr (end_addr + 1)))
    (fun '(i, addr) errors =>
       data <- call_read_mram addr ;;
       let errors := check errors addr "Phase2" 0x0000 data in
       call_write_mram addr 0xFFFF ;;;
       progress_every_100 i (i + 1) total ;;;
       ret errors) errors ;;
  progress_bar total total ;;;
  (* Phase 3: read 1, write 0, ascending *)
  errors <- for_each (enumerate (py_range start_addr (end_addr + 1)))
    (fun '(i, addr) errors =>
       data <- call_read_mram addr ;;
       let errors := check errors addr "Phase3" 0xFFFF data in
       call_write_mram addr 0x0000 ;;;
       progress_every_100 i (i + 1) total ;;;
       ret errors) errors ;;
  progress_bar total total ;;;
  (* Phase 4: read 0, write 1, descending *)
  errors <- for_each (enumerate (py_range_down end_addr (start_addr - 1)))
    (fun '(i, addr) errors =>
       data <- call_read_mram addr ;;
       let errors := check errors addr "Phase4" 0x0000 data in
       call_write_mram addr 0xFFFF ;;;
       progress_every_100 i (total - i) total ;;;
       ret errors) errors ;;
  progress_bar total total ;;;
  (* Phase 5: read 1, write 0, descending *)
  errors <- for_each (enumerate (py_range_down end_addr (start_addr - 1)))
    (fun '(i, addr) errors =>
       data <- call_read_mram addr ;;
       let errors := check errors addr "Phase5" 0xFFFF data in
       call_write_mram addr 0x0000 ;;;
       progress_every_100 i (total - i) total ;;;
       ret errors) errors ;;
  progress_bar total total ;;;
  (* Phase 6: read 0 everywhere *)
  errors <- for_each (enumerate (py_range start_addr (end_addr + 1)))
    (fun '(i, addr) errors =>
       data <- call_read_mram addr ;;
       let errors := check errors addr "Phase6" 0x0000 data in
       progress_every_100 i (i + 1) total ;;;
       ret errors) errors ;;
  progress_bar total total ;;;
  ret (is_empty errors, errors).

(** [[1 << i for i in range(16)]]. *)
Definition walking_ones_patterns : list Z :=
  (fun i => Z.shiftl 1 i) <$> py_range 0 16.

(** [[~(1 << i) & 0xFFFF for i in range(16)]]. *)
Definition walking_zeros_patterns : list Z :=
  (fun i => Z.land (Z.lnot (Z.shiftl 1 i)) 0xFFFF) <$> py_range 0 16.

Definition walking_ones_test (start_addr count : Z) : M U (bool * list fault) :=
  let errors : list fault := [] in
  let patterns := walking_ones_patterns in
  for_ (enumerate patterns)
    (fun '(i, pattern) =>
       let addr := start_addr + i in
       call_write_mram addr pattern ;;;
       ret tt) ;;;
  errors <- for_each (enumerate patterns)
    (fun '(i, pattern) errors =>
       let addr := start_addr + i in
       data <- call_read_mram addr ;;
       ret (check errors addr "Walking1s" pattern data)) errors ;;
  ret (is_empty errors, errors).

Definition walking_zeros_test (start_addr count : Z) : M U (bool * list fault) :=
  let errors : list fault := [] in
  let patterns := walking_zeros_patterns in
  for_ (enumerate patterns)
    (fun '(i, pattern) =>
       let addr := start_addr + i in
       call_write_mram addr pattern ;;;
       ret tt) ;;;
  errors <- for_each (enumerate patterns)
    (fun '(i, pattern) errors =>
       let addr := start_addr + i in
       data <- call_read_mram addr ;;
       ret (check errors addr "Walking0s" pattern data)) errors ;;
  ret (is_empty errors, errors).

Definition checkerboard_test (start_addr end_addr : Z) : M U (bool * list fault) :=
  let errors : list fault := [] in
  let total := end_addr - start_addr + 1 in
  (* Write checkerboard *)
  for_ (enumerate (py_range start_addr (end_addr + 1)))
    (fun '(i, addr) =>
       let pattern := if i mod 2 =? 0 then 0xAAAA else 0x5555 in
       call_write_mram addr pattern ;;;
       progress_every_100 i (i + 1) total) ;;;
  progress_bar total total ;;;
  (* Read and verify *)
  errors <- for_each (enumerate (py_range start_addr (end_addr + 1)))
    (fun '(i, addr) errors =>
       let expected := if i mod 2 =? 0 then 0xAAAA else 0x5555 in
       data <- call_read_mram addr ;;
       let errors := check errors addr "Checkerboard" expected data in
       progress_every_100 i (i + 1) total ;;;
       ret errors) errors ;;
  progress_bar total total ;;;
  (* Inverse checkerboard *)
  for_ (enumerate (py_range start_addr (end_addr + 1)))
    (fun '(i, addr) =>
       let pattern := if i mod 2 =? 0 then 0x5555 else 0xAAAA in
       call_write_mram addr pattern ;;;
       progress_every_100 i (i + 1) total) ;;;
  progress_bar total total ;;;
  errors <- for_each (enumerate (py_range start_addr (end_addr + 1)))
    (fun '(i, addr) errors =>
       let expected := if i mod 2 =? 0 then 0x5555 else 0xAAAA in
       data <- call_read_mram addr ;;
       let errors := check errors addr "InvCheckerboard" expected data in
       progress_every_100 i (i + 1) total ;;;
       ret errors) errors ;;
  progress_bar total total ;;;
  ret (is_empty errors, errors).

Definition address_uniqueness_test (start_addr end_addr : Z)
  : M U (bool * list fault) :=
  let errors : list fault := [] in
  let total := end_addr - start_addr + 1 in
  (* Write address as data *)
  for_ (enumerate (py_range start_addr (end_addr + 1)))
    (fun '(i, addr) =>
       let data := Z.land addr 0xFFFF in
       call_write_mram addr data ;;;
       progress_every_100 i (i + 1) total) ;;;
  progress_bar total total ;;;
  (* Read and verify *)
  errors <- for_each (enumerate (py_range start_addr (end_addr + 1)))
    (fun '(i, addr) errors =>
       let expected := Z.land addr 0xFFFF in
       data <- call_read_mram addr ;;
       let errors := check errors addr "AddressUnique" expected data in
       progress_every_100 i (i + 1) total ;;;
       ret errors) errors ;;
  progress_bar total total ;;;
  ret (is_empty errors, errors).
End Tests.

End march_test.

(** ** main.py *)
Module main.

Section MRAMUART.
Variable ser : Serial.

(** [MRAMUART.write_mram(addr, data)]. *)
Definition write_mram (addr data : Z) : M (port ser) bool :=
  let cmd := write_cmd addr data in
  ser_write ser cmd ;;;
  time_sleep ser 50 ;;;
  ser_reset_input_buffer ser ;;;
  ret true.

(** [MRAMUART.read_mram(addr)]: [None] stands for a missing response. *)
Definition read_mram (addr : Z) : M (port ser) (option Z) :=
  let cmd := read_cmd addr in
  ser_reset_input_buffer ser ;;;
  ser_write ser cmd ;;;
  time_sleep ser 100 ;;;
  n <- ser_in_waiting ser ;;
  if 2 <=? n then
    response <- ser_read ser 2 ;;
    b0 <- index response 0 ;;
    b1 <- index response 1 ;;
    ret (Some (decode_word b0 b1))
  else ret None.
End MRAMUART.

End main.

(** ** mram_test.py *)
Module mram_test.

(** What one command of the terminal prints. *)
Inductive line : Type :=
  | Wrote (data addr : Z)
  | ReadBack (data addr : Z)
  | NoResponse
  | UsageWrite
  | UsageRead
  | AddressOutOfRange
  | DataOutOfRange
  | InvalidNumberFormat
  | UnknownCommand
  | HelpText
  | Goodbye
  | ErrorLine (e : exn).

Section MRAMTerminal.
Variable ser : Serial.

(** Python's [int(s, base)], [None] when it raises [ValueError], and
    [str.strip], [str.lower]. *)
Variable py_int : string -> Z -> option Z.
Variable py_strip : string -> string.
Variable py_lower : string -> string.

(** [MRAMTerminal.write_mram(addr, data)]. *)
Definition write_mram (addr data : Z) : M (port ser) line :=
  let cmd := write_cmd addr data in
  ser_write ser cmd ;;;
  time_sleep ser 50 ;;;
  ser_reset_input_buffer ser ;;;
  ret (Wrote data addr).

(** [MRAMTerminal.read_mram(addr)], with the line it prints. *)
Definition read_mram (addr : Z) : M (port ser) (option Z * line) :=
  let cmd := read_cmd addr in
  ser_reset_input_buffer ser ;;;
  ser_write ser cmd ;;;
  time_sleep ser 100 ;;;
  n <- ser_in_waiting ser ;;
  if 2 <=? n then
    response <- ser_read ser 2 ;;
    b0 <- index response 0 ;;
    b1 <- index response 1 ;;
    let data := decode_word b0 b1 in
    ret (Some data, ReadBack data addr)
  else ret (None, NoResponse).

(** [MRAMTerminal.parse_number(s)]; [None] is a [ValueError]. *)
Definition parse_number (s : string) : option Z :=
  let s := py_strip s in
  if String.prefix "0x" s || String.prefix "0X" s then py_int s 16
  else
    match py_int s 16 with
    | Some v => Some v
    | None => py_int s 10
    end.

(** The [w <addr> <data>] branch of [run]. *)
Definition run_write (parts : list string) : M (port ser) line :=
  match parts with
  | [_; a; d] =>
      match parse_number a with
      | None => ret InvalidNumberFormat
      | Some addr =>
          match parse_number d with
          | None => ret InvalidNumberFormat
          | Some data =>
              if (addr <? 0) || (addr >? 0x3FFFF) then ret AddressOutOfRange
              else if (data <? 0) || (data >? 0xFFFF) then ret DataOutOfRange
              else write_mram addr data
          end
      end
  | _ => ret UsageWrite
  end.

(** The [r <addr>] branch of [run]. *)
Definition run_read (parts : list string) : M (port ser) line :=
  match parts with
  | [_; a] =>
      match parse_number a with
      | None => ret InvalidNumberFormat
      | Some addr =>
          if (addr <? 0) || (addr >? 0x3FFFF) then ret AddressOutOfRange
          else r <- read_mram addr ;; ret (snd r)
      end
  | _ => ret UsageRead
  end.

(** [except Exception as e: print(...)] around one command. *)
Definition catching (m : M (port ser) line) : M (port ser) line :=
  fun s =>
    match m s with
    | (Return l, s') => (Return l, s')
    | (Raise e, s') => (Return (ErrorLine e), s')
    end.

Definition is_in (x : string) (l : list string) : bool :=
  bool_decide (x ∈ l).

(** One turn of the loop of [run] on the non-empty word list [parts] of
    the line typed; the boolean tells whether the loop goes on. *)
Definition run_command (parts : list string) : M (port ser) (line * bool) :=
  match parts with
  | [] => ret (UnknownCommand, true)
  | p0 :: _ =>
      let command := py_lower p0 in
      if is_in command ["quit"; "exit"; "q"] then ret (Goodbye, false)
      else if is_in command ["help"; "h"; "?"] then ret (HelpText, true)
      else if is_in command ["w"; "write"] then
        l <- catching (run_write parts) ;; ret (l, true)
      else if is_in command ["r"; "read"] then
        l <- catching (run_read parts) ;; ret (l, true)
      else ret (UnknownCommand, true)
  end.
End MRAMTerminal.

End mram_test.

(** ** A simulated device behind the port

    A byte-level test double: it decodes each command written to the port,
    keeps one word per 18-bit wire address ([0x0000] until written), and,
    when [answers] is set, queues the two response bytes of a read command.
    With [answers] cleared it stays silent, so every read times out. *)
Record sim_port : Type :=
  SimPort { mem : gmap Z Z; rx : list Z; answers : bool }.

Definition sim_write (cmd : list Z) : M sim_port unit :=
  fun s =>
    match cmd with
    | [op; h; m; l; dh; dl] =>
        if op =? 0x57 then
          (Return tt,
           SimPort (<[wire_address h m l := decode_word dh dl]> (mem s))
                   (rx s) (answers s))
        else (Return tt, s)
    | [op; h; m; l] =>
        if (op =? 0x52) && answers s then
          let w := default 0x0000 (mem s !! wire_address h m l) in
          (Return tt, SimPort (mem s) (rx s ++ [data_h w; data_l w]) (answers s))
        else (Return tt, s)
    | _ => (Return tt, s)
    end.

Definition sim_read (n : Z) : M sim_port (list Z) :=
  fun s =>
    (Return (take (Z.to_nat n) (rx s)),
     SimPort (mem s) (drop (Z.to_nat n) (rx s)) (answers s)).

Definition sim_in_waiting : M sim_port Z :=
  fun s => (Return (Z.of_nat (length (rx s))), s).

Definition sim_reset_input_buffer : M sim_port unit :=
  fun s => (Return tt, SimPort (mem s) [] (answers s)).

Definition sim_serial : Serial := {|
  port := sim_port;
  ser_write := sim_write;
  ser_read := sim_read;
  ser_in_waiting := sim_in_waiting;
  ser_reset_input_buffer := sim_reset_input_buffer;
  time_sleep := fun _ => ret tt;
|}.

(** A fresh device that answers, and one that stays silent. *)
Definition sim_alive : sim_port := SimPort ∅ [] true.
Definition sim_silent : sim_port := SimPort ∅ [] false.

(** ** Test scripts

    The memory test engine described as data: an algorithm is a list of
    steps, each a write or a read with the value expected and the name of
    the phase the read belongs to. *)
Inductive step : Type :=
  | StWrite (addr word : Z)
  | StRead (addr expected : Z) (phase : string).

(** Event [ev] is step [st] carried out; a read may have returned any
    value. *)
Inductive performs : step -> event -> Prop :=
  | performs_write addr word :
      performs (StWrite addr word) (EvWrite addr word)
  | performs_read addr expected phase data :
      performs (StRead addr expected phase) (EvRead addr data).

(** The fault records of a run: one for each read whose value differs from
    the value expected, in the order of the reads. *)
Fixpoint faults_of (script : list step) (evs : list event) : list fault :=
  match script, evs with
  | StRead addr expected phase :: script', EvRead _ data :: evs' =>
      (if data =? expected then [] else [(addr, phase, expected, data)])
      ++ faults_of script' evs'
  | _ :: script', _ :: evs' => faults_of script' evs'
  | _, _ => []
  end.

(** Running a script on a uart: every step in order, a fault record for
    each mismatch, no early exit. *)
Fixpoint run_script {U} `{Uart U} (script : list step) (errors : list fault)
  : M U (list fault) :=
  match script with
  | [] => ret errors
  | StWrite addr word :: script' =>
      call_write_mram addr word ;;; run_script script' errors
  | StRead addr expected phase :: script' =>
      data <- call_read_mram addr ;;
      run_script script' (march_test.check errors addr phase expected data)
  end.

(** How a test routine ends: [return len(errors) == 0, errors]. *)
Definition verdict {U} (errors : list fault) : M U (bool * list fault) :=
  ret (is_empty errors, errors).

(** The addresses of [[start, end]], lowest first and highest first. *)
Definition ascending (start_addr end_addr : Z) : list Z :=
  seqZ start_addr (end_addr - start_addr + 1).

Definition descending (start_addr end_addr : Z) : list Z :=
  reverse (ascending start_addr end_addr).

(** One phase: at every address of [addrs], in that order, the steps
    [body addr]. *)
Definition phase (addrs : list Z) (body : Z -> list step) : list step :=
  addrs ≫= body.

(** The six phases of March C, following the specification. *)
Definition spec_march_c (start_addr end_addr : Z) : list step :=
  let up := ascending start_addr end_addr in
  let down := descending start_addr end_addr in
  phase up (fun a => [StWrite a 0x0000])
  ++ phase up (fun a => [StRead a 0x0000 "Phase2"; StWrite a 0xFFFF])
  ++ phase up (fun a => [StRead a 0xFFFF "Phase3"; StWrite a 0x0000])
  ++ phase down (fun a => [StRead a 0x0000 "Phase4"; StWrite a 0xFFFF])
  ++ phase down (fun a => [StRead a 0xFFFF "Phase5"; StWrite a 0x0000])
  ++ phase up (fun a => [StRead a 0x0000 "Phase6"]).

(** Walking tests, following the specification: bit position [i] in
    [0..16] goes to address [start + i]; all writes come before all reads. *)
Definition spec_walking (pattern : Z -> Z) (tag : string) (start_addr : Z)
  : list step :=
  ((fun i => StWrite (start_addr + i) (pattern i)) <$> seqZ 0 16)
  ++ ((fun i => StRead (start_addr + i) (pattern i) tag) <$> seqZ 0 16).

Definition one_hot (i : Z) : Z := Z.shiftl 1 i.
Definition one_cold (i : Z) : Z := Z.land (Z.lnot (Z.shiftl 1 i)) 0xFFFF.

(** Checkerboard, following the specification: the pattern of an address
    alternates with the parity of the address, the first address of the
    range taking [0xAAAA] in the first pass. *)
Definition board (start_addr addr : Z) : Z :=
  if bool_decide (addr mod 2 = start_addr mod 2) then 0xAAAA else 0x5555.

Definition inverse_board (start_addr addr : Z) : Z :=
  if bool_decide (addr mod 2 = start_addr mod 2) then 0x5555 else 0xAAAA.

Definition spec_checkerboard (start_addr end_addr : Z) : list step :=
  let up := ascending start_addr end_addr in
  phase up (fun a => [StWrite a (board start_addr a)])
  ++ phase up (fun a => [StRead a (board start_addr a) "Checkerboard"])
  ++ phase up (fun a => [StWrite a (inverse_board start_addr a)])
  ++ phase up (fun a => [StRead a (inverse_board start_addr a) "InvCheckerboard"]).

(** The comparisons a script makes: address and expected value of each
    read. *)
Definition checks (script : list step) : list (Z * Z) :=
  script ≫= fun st =>
    match st with
    | StWrite _ _ => []
    | StRead a e _ => [(a, e)]
    end.

(** Address uniqueness, following the specification. *)
Definition spec_address_uniqueness (start_addr end_addr : Z) : list step :=
  let up := ascending start_addr end_addr in
  phase up (fun a => [StWrite a (Z.land a 0xFFFF)])
  ++ phase up (fun a => [StRead a (Z.land a 0xFFFF) "AddressUnique"]).

(** Step [st] of a script raised [e]: the uart call it makes did. *)
Definition step_raises {U} `{Uart U} (st : step) (e : exn) : Prop :=
  exists u0 u1 : U,
    match st with
    | StWrite a w => call_write_mram a w u0 = (Raise e, u1)
    | StRead a _ _ => call_read_mram a u0 = (Raise e, u1)
    end.

(** Two computations that agree on every state. *)
Definition meq {S A} (m m' : M S A) : Prop := forall s, m s = m' s.
Infix "≡ₘ" := meq (at level 70).

(** A uart that behaves like a memory on the addresses of [Dom] and the
    words of [W]: in a state [u] its content at address [a] is [peek u a];
    a read returns the content and changes nothing, a write stores the
    word and changes no other address. [Inv] holds of the states reached. *)
Record memory_like {U} `{Uart U} (Inv : U -> Prop) (Dom W : Z -> Prop)
    (peek : U -> Z -> Z) : Prop := {
  ml_write : forall a w u, Inv u -> Dom a -> W w ->
    exists b u',
      call_write_mram a w u = (Return b, u') /\ Inv u' /\ peek u' a = w
      /\ forall a', Dom a' -> a' <> a -> peek u' a' = peek u a';
  ml_read : forall a u, Inv u -> Dom a ->
    exists u',
      call_read_mram a u = (Return (peek u a), u') /\ Inv u'
      /\ forall a', Dom a' -> peek u' a' = peek u a';
}.

(** The content of the ideal test double. *)
Definition ideal_peek (u : ideal_mock) (a : Z) : Z :=
  default 0x0000 (cells u !! a).

(** The content of the simulated device, as a read returns it. *)
Definition sim_peek (p : sim_port) (a : Z) : Z :=
  default 0x0000 (mem p !! a) mod 2 ^ 16.

(** The simulated device between two calls: it answers and its input
    buffer is empty. *)
Definition sim_idle (p : sim_port) : Prop := rx p = [] /\ answers p = true.

Definition valid_address (a : Z) : Prop := 0 <= a <= 0x3FFFF.
Definition valid_word (w : Z) : Prop := 0 <= w <= 0xFFFF.

(** The address a step touches. *)
Definition step_addr (st : step) : Z :=
  match st with
  | StWrite a _ => a
  | StRead a _ _ => a
  end.

(** ** The named algorithms of the test engine

    The five test routines of [march_test.py] under one name each, with
    the script each one carries out. *)
Inductive algorithm : Type :=
  | MarchC (start_addr end_addr : Z)
  | WalkingOnes (start_addr count : Z)
  | WalkingZeros (start_addr count : Z)
  | Checkerboard (start_addr end_addr : Z)
  | AddressUniqueness (start_addr end_addr : Z).

Definition run_algorithm {U} `{Uart U} (alg : algorithm)
  : M U (bool * list fault) :=
  match alg with
  | MarchC s e => march_test.march_c_test s e
  | WalkingOnes s c => march_test.walking_ones_test s c
  | WalkingZeros s c => march_test.walking_zeros_test s c
  | Checkerboard s e => march_test.checkerboard_test s e
  | AddressUniqueness s e => march_test.address_uniqueness_test s e
  end.

Definition script_of (alg : algorithm) : list step :=
  match alg with
  | MarchC s e => spec_march_c s e
  | WalkingOnes s _ => spec_walking one_hot "Walking1s" s
  | WalkingZeros s _ => spec_walking one_cold "Walking0s" s
  | Checkerboard s e => spec_checkerboard s e
  | AddressUniqueness s e => spec_address_uniqueness s e
  end.

(** The range of a ranged algorithm holds at least one address. *)
Definition nonempty_range (alg : algorithm) : Prop :=
  match alg with
  | MarchC s e | Checkerboard s e | AddressUniqueness s e => s <= e
  | WalkingOnes _ _ | WalkingZeros _ _ => True
  end.

(** A serial line without connection failures: no call raises, and
    [read(2)] hands out at least two bytes when [in_waiting] announced
    them. *)
Definition reliable (ser : Serial) : Prop :=
  (forall cmd p, exists p', ser_write ser cmd p = (Return tt, p'))
  /\ (forall p, exists p', ser_reset_input_buffer ser p = (Return tt, p'))
  /\ (forall d p, exists p', time_sleep ser d p = (Return tt, p'))
  /\ (forall p, exists n p',
        ser_in_waiting ser p = (Return n, p')
        /\ (2 <= n -> exists b0 b1 rest p'',
              ser_read ser 2 p' = (Return (b0 :: b1 :: rest), p''))).

(** ** A number parser: Python's [int(s, base)] on ASCII text

    [plain_int s base] stands for [int(s, base)] wherever the scripts are
    run on concrete input.  It follows the interpreter's conversion for a
    base from 2 to 36: blanks (tab, line feed, vertical tab, form feed,
    carriage return, space) around the number, an optional sign, the
    prefix of base 16, 8 or 2, which one underscore may follow, then
    digits of the base with single underscores between them, at most 4300
    digits when the base is no power of two (the interpreter's default
    limit).  It is [None] where [int] raises [ValueError].  Base 0 and
    text outside ASCII (the digits and blanks of other scripts, which
    [int] reads too) are not covered and give [None]. *)
Definition digit_value (c : Ascii.ascii) : option Z :=
  let n := Z.of_N (Ascii.N_of_ascii c) in
  if (48 <=? n) && (n <=? 57) then Some (n - 48)
  else if (97 <=? n) && (n <=? 122) then Some (n - 87)
  else if (65 <=? n) && (n <=? 90) then Some (n - 55)
  else None.

Definition is_int_space (c : Ascii.ascii) : bool :=
  let n := Z.of_N (Ascii.N_of_ascii c) in
  (9 <=? n) && (n <=? 13) || (n =? 32).

Fixpoint skip_int_space (s : string) : string :=
  match s with
  | String c s' => if is_int_space c then skip_int_space s' else s
  | EmptyString => EmptyString
  end.

Definition only_int_space (s : string) : bool :=
  match skip_int_space s with
  | EmptyString => true
  | String _ _ => false
  end.

(** The digits after the first one: the scan stops at the first character
    that is neither a digit of the base nor an underscore; only blanks may
    follow, and no underscore may come last or follow another. *)
Fixpoint digits_value (base acc : Z) (after_underscore : bool) (s : string)
  : option Z :=
  let stop :=
    if negb after_underscore && only_int_space s then Some acc else None in
  match s with
  | EmptyString => stop
  | String c s' =>
      if Ascii.eqb c (Ascii.ascii_of_nat 95) then
        if after_underscore then None else digits_value base acc true s'
      else
        match digit_value c with
        | Some v =>
            if v <? base then digits_value base (acc * base + v) false s'
            else stop
        | None => stop
        end
  end.

(** The number starts with a digit: no leading underscore, no empty
    number. *)
Definition int_body (base : Z) (body : string) : option Z :=
  match body with
  | String c rest =>
      match digit_value c with
      | Some v => if v <? base then digits_value base v false rest else None
      | None => None
      end
  | EmptyString => None
  end.

Definition int_sign (s : string) : bool * string :=
  match s with
  | String c rest =>
      if Ascii.eqb c (Ascii.ascii_of_nat 43) then (false, rest)
      else if Ascii.eqb c (Ascii.ascii_of_nat 45) then (true, rest)
      else (false, s)
  | EmptyString => (false, s)
  end.

(** [0x], [0o] or [0b], in either case, for the base it belongs to. *)
Definition int_prefix (base : Z) (c : Ascii.ascii) : bool :=
  let n := Z.of_N (Ascii.N_of_ascii c) in
  (base =? 16) && ((n =? 120) || (n =? 88))
  || (base =? 8) && ((n =? 111) || (n =? 79))
  || (base =? 2) && ((n =? 98) || (n =? 66)).

Definition strip_int_prefix (base : Z) (s : string) : string :=
  match s with
  | String z (String x rest) =>
      if Ascii.eqb z (Ascii.ascii_of_nat 48) && int_prefix base x then
        match rest with
        | String u rest' => if Ascii.eqb u (Ascii.ascii_of_nat 95) then rest' else rest
        | EmptyString => rest
        end
      else s
  | _ => s
  end.

Fixpoint count_digits (base : Z) (s : string) : Z :=
  match s with
  | EmptyString => 0
  | String c s' =>
      match digit_value c with
      | Some v => if v <? base then 1 else 0
      | None => 0
      end + count_digits base s'
  end.

Definition over_limit (base : Z) (body : string) : bool :=
  negb (Z.land base (base - 1) =? 0) && (4300 <? count_digits base body).

Definition plain_int (s : string) (base : Z) : option Z :=
  if (2 <=? base) && (base <=? 36) then
    let '(negative, unsigned) := int_sign (skip_int_space s) in
    let body := strip_int_prefix base unsigned in
    if over_limit base body then None
    else (fun n => if negative then - n else n) <$> int_body base body
  else None.

(** ** More test doubles *)

(** A memory with one faulty cell: whatever is written, a read of
    [stuck_addr] returns [stuck_word]. *)
Definition stuck_read_mram (stuck_addr stuck_word addr : Z) : M ideal_mock Z :=
  if addr =? stuck_addr then ret stuck_word else ideal_read_mram addr.

Definition stuck_uart (stuck_addr stuck_word : Z) : Uart ideal_mock := {|
  call_write_mram := ideal_write_mram;
  call_read_mram := stuck_read_mram stuck_addr stuck_word;
|}.

(** A memory whose address decoder drops every address bit above bit 15:
    the cell selected is [addr mod 2^16]. *)
Definition wrapped_write_mram (addr data : Z) : M ideal_mock bool :=
  ideal_write_mram (addr mod 2 ^ 16) data.

Definition wrapped_read_mram (addr : Z) : M ideal_mock Z :=
  ideal_read_mram (addr mod 2 ^ 16).

Definition wrapped_uart : Uart ideal_mock := {|
  call_write_mram := wrapped_write_mram;
  call_read_mram := wrapped_read_mram;
|}.

(** Every read of [addr] that returns, returns [word]. *)
Definition reads_constant {U} `{Uart U} (addr word : Z) : Prop :=
  forall (u u' : U) (d : Z), call_read_mram addr u = (Return d, u') -> d = word.

(** Where the data of a read event came from. *)
Definition read_event_from {U} `{Uart U} (ev : event) : Prop :=
  match ev with
  | EvWrite _ _ => True
  | EvRead a d => exists u u' : U, call_read_mram a u = (Return d, u')
  end.

(** ** march_test.py: the sessions of [main]

    What [main] runs once the port is open: for the choices 1 to 5 the
    three ranged tests one after the other, for choice 6 the two walking
    tests, each time gathering the errors in [all_errors], which is then
    printed. *)
Module march_main.

Section Sessions.
Context {U : Type} `{Uart U}.

Definition run_range_tests (start_addr end_addr : Z) : M U (list fault) :=
  let all_errors : list fault := [] in
  r <- march_test.march_c_test start_addr end_addr ;;
  let all_errors := all_errors ++ snd r in
  r <- march_test.checkerboard_test start_addr end_addr ;;
  let all_errors := all_errors ++ snd r in
  r <- march_test.address_uniqueness_test start_addr end_addr ;;
  let all_errors := all_errors ++ snd r in
  ret all_errors.

Definition run_bit_tests : M U (list fault) :=
  let all_errors : list fault := [] in
  r <- march_test.walking_ones_test 0x00000 16 ;;
  let all_errors := all_errors ++ snd r in
  r <- march_test.walking_zeros_test 0x00100 16 ;;
  let all_errors := all_errors ++ snd r in
  ret all_errors.
End Sessions.

End march_main.

(** The script of a whole session over a range. *)
Definition spec_range_session (start_addr end_addr : Z) : list step :=
  spec_march_c start_addr end_addr
  ++ spec_checkerboard start_addr end_addr
  ++ spec_address_uniqueness start_addr end_addr.

(** ** main.py: [run_test] *)
Module main_run.

(** How a call of [run_test] ends when no serial call raises: with its
    statistics printed, or with the [TypeError] that formatting [None] as
    [04X] raises in the line printed for a read that got no response. *)
Inductive outcome : Type :=
  | Completed (results : list (Z * Z * option Z)) (correct : Z)
      (all_correct : bool)
  | TypeError (results : list (Z * Z * option Z)).

(** The word written at position [i]. *)
Definition pattern_data (pattern : string) (i : Z) : Z :=
  if String.eqb pattern "sequential" then Z.land i 0xFFFF
  else if String.eqb pattern "aa55" then
    (if i mod 2 =? 0 then 0xAA55 else 0x55AA)
  else if String.eqb pattern "increment" then Z.land ((i + 1) * 0x1111) 0xFFFF
  else Z.land i 0xFFFF.

(** [test_data]: one [(start_addr + i, data)] for each [i] in
    [range(count)]. *)
Definition make_test_data (pattern : string) (start_addr count : Z)
  : list (Z * Z) :=
  (fun i => (start_addr + i, pattern_data pattern i)) <$> py_range 0 count.

(** [sum(1 for _, exp, act in results if exp == act)]. *)
Definition count_correct (results : list (Z * Z * option Z)) : Z :=
  Z.of_nat (length (filter (fun r => snd r = Some (snd (fst r))) results)).

Section RunTest.
Variable ser : Serial.

(** Phase 2, the reading loop. *)
Fixpoint read_back (test_data : list (Z * Z))
    (results : list (Z * Z * option Z))
  : M (port ser) (list (Z * Z * option Z) + list (Z * Z * option Z)) :=
  match test_data with
  | [] => ret (inr results)
  | (addr, expected) :: test_data' =>
      actual <- main.read_mram ser addr ;;
      let results := results ++ [(addr, expected, actual)] in
      match actual with
      | None => ret (inl results)
      | Some _ => read_back test_data' results
      end
  end.

Definition run_test (start_addr count : Z) (pattern : string)
  : M (port ser) outcome :=
  let test_data := make_test_data pattern start_addr count in
  for_ test_data
    (fun '(addr, data) => main.write_mram ser addr data ;;; ret tt) ;;;
  time_sleep ser 100 ;;;
  r <- read_back test_data [] ;;
  match r with
  | inl results => ret (TypeError results)
  | inr results =>
      let correct := count_correct results in
      if count =? 0 then raise ZeroDivisionError
      else ret (Completed results correct (negb (correct <? count)))
  end.
End RunTest.

End main_run.

(** The memory of the simulated device after the writes of [test_data]. *)
Definition sim_store (test_data : list (Z * Z)) (m : gmap Z Z) : gmap Z Z :=
  foldl (fun m ad => <[fst ad mod 2 ^ 18 := snd ad mod 2 ^ 16]> m) m test_data.

(** What [run_test] records for a read that returned the word written. *)
Definition read_ok (ad : Z * Z) : Z * Z * option Z :=
  (fst ad, snd ad, Some (snd ad)).

(** ** non_volatility_test.py *)

(** The serial port with [reset_output_buffer], which [warmup] calls. *)
Record SerialOut : Type := {
  so_serial : Serial;
  ser_reset_output_buffer : M (port so_serial) unit;
}.

(** The simulated device has nothing queued towards the device. *)
Definition sim_serial_out : SerialOut := {|
  so_serial := sim_serial;
  ser_reset_output_buffer := ret tt;
|}.

Module non_volatility_test.

(** The port together with the file [/tmp/mram_nonvol_test.txt]: its text,
    or [None] while the file does not exist. *)
Record world (P : Type) : Type := World { w_port : P; w_file : option string }.
Arguments World {P} w_port w_file.
Arguments w_port {P} w.
Arguments w_file {P} w.

(** A computation on the port, run in the world. *)
Definition on_port {P A} (m : M P A) : M (world P) A :=
  fun w =>
    match m (w_port w) with
    | (r, p') => (r, World p' (w_file w))
    end.

(** How [verify_test_data] ends when no serial call raises: it returns a
    boolean, or a line of the file makes [int] raise [ValueError]. *)
Inductive outcome : Type :=
  | Returned (ok : bool)
  | ValueError.

(** [xs[i]] on a list of strings. *)
Definition index_string {S} (xs : list string) (i : nat) : M S string :=
  match xs !! i with
  | Some x => ret x
  | None => raise IndexError
  end.

(** [test_data] of [write_test_data]. *)
Definition test_data : list (Z * Z * string) :=
  [ (0x00010, 0xBAEF, "Magic pattern 1");
    (0x00011, 0xBEED, "Magic pattern 2");
    (0x00012, 0xAAFE, "Magic pattern 3");
    (0x00013, 0xCABE, "Magic pattern 4");
    (0x00100, 0x4234, "Sequential 1");
    (0x00101, 0x2678, "Sequential 2");
    (0x00102, 0x1ABC, "Sequential 3");
    (0x00103, 0xCEF0, "Sequential 4");
    (0x00200, 0xFAAA, "Alternating A");
    (0x00201, 0x0555, "Alternating 5");
    (0x00202, 0xEFFF, "All ones");
    (0x00203, 0x2000, "All zeros");
    (0x01000, 0x40FF, "Byte pattern 1");
    (0x01001, 0x8F00, "Byte pattern 2");
    (0x02000, 0x4001, "Edge bits 1");
    (0x02001, 0x3002, "Edge bits 2") ].

Section MRAMUART.
Variable sero : SerialOut.
Local Abbreviation ser := (so_serial sero).

(** Python's string machinery, as far as the test file needs it:
    [hex_upper w n] is [format(n, "0wX")], [py_lines] the lines a text
    file yields, [py_strip_split] is [line.strip().split(maxsplit=2)] and
    [py_int] is [int(s, base)], [None] when it raises [ValueError]. *)
Variable hex_upper : nat -> Z -> string.
Variable py_lines : string -> list string.
Variable py_strip_split : string -> list string.
Variable py_int : string -> Z -> option Z.

(** [MRAMUART.write_mram(addr, data, delay=0.005)]. *)
Definition write_mram (addr data : Z) : M (port ser) bool :=
  let cmd := write_cmd addr data in
  ser_write ser cmd ;;;
  time_sleep ser 5 ;;;
  ser_reset_input_buffer ser ;;;
  ret true.

(** [MRAMUART.read_mram(addr, delay=0.05)]. *)
Definition read_mram (addr : Z) : M (port ser) (option Z) :=
  let cmd := read_cmd addr in
  ser_reset_input_buffer ser ;;;
  ser_write ser cmd ;;;
  time_sleep ser 50 ;;;
  n <- ser_in_waiting ser ;;
  if 2 <=? n then
    response <- ser_read ser 2 ;;
    b0 <- index response 0 ;;
    b1 <- index response 1 ;;
    ret (Some (decode_word b0 b1))
  else ret None.

(** [MRAMUART.warmup()]. *)
Definition warmup : M (port ser) unit :=
  write_mram 0x3FFFF 0x0000 ;;;
  time_sleep ser 100 ;;;
  for_ [0x3FFFF; 0x00100; 0x01000]
    (fun addr => read_mram addr ;;; time_sleep ser 50) ;;;
  ser_reset_input_buffer ser ;;;
  ser_reset_output_buffer sero.

(** [f"{addr:05X} {data:04X} {desc}\n"]. *)
Definition file_line (v : Z * Z * string) : string :=
  let '(addr, data, desc) := v in
  (hex_upper 5 addr ++ " " ++ hex_upper 4 data ++ " " ++ desc
   ++ String (Ascii.ascii_of_nat 10) EmptyString)%string.

(** [write_test_data(uart)]. *)
Definition write_test_data : M (world (port ser)) (list (Z * Z * string)) :=
  for_ test_data
    (fun '(addr, data, description) =>
       on_port (write_mram addr data) ;;; ret tt) ;;;
  (fun w => (Return tt,
             World (w_port w)
               (Some (String.concat "" (file_line <$> test_data))))) ;;;
  ret test_data.

(** The loop that fills [test_data] from the lines of the file; the outer
    [None] is a [ValueError]. *)
Fixpoint load_lines (lines : list string) (acc : list (Z * Z * string))
  : M (world (port ser)) (option (list (Z * Z * string))) :=
  match lines with
  | [] => ret (Some acc)
  | line :: lines' =>
      let parts := py_strip_split line in
      p0 <- index_string parts 0 ;;
      match py_int p0 16 with
      | None => ret None
      | Some addr =>
          p1 <- index_string parts 1 ;;
          match py_int p1 16 with
          | None => ret None
          | Some data =>
              let desc :=
                if (2 <? Z.of_nat (length parts)) then default "" (parts !! 2%nat)
                else "" in
              load_lines lines' (acc ++ [(addr, data, desc)])
          end
      end
  end.

(** The verification loop: a read without response and a read of another
    word both count as an error. *)
Definition count_errors (loaded : list (Z * Z * string))
  : M (world (port ser)) Z :=
  for_each loaded
    (fun '(addr, expected, description) errors =>
       actual <- on_port (read_mram addr) ;;
       match actual with
       | None => ret (errors + 1)
       | Some a => if a =? expected then ret errors else ret (errors + 1)
       end) 0.

(** [verify_test_data(uart)]. *)
Definition verify_test_data : M (world (port ser)) outcome :=
  file <- (fun w => (Return (w_file w), w)) ;;
  match file with
  | None => ret (Returned false)
  | Some text =>
      on_port warmup ;;;
      loaded <- load_lines (py_lines text) [] ;;
      match loaded with
      | None => ret ValueError
      | Some loaded =>
          errors <- count_errors loaded ;;
          ret (Returned (errors =? 0))
      end
  end.
End MRAMUART.

End non_volatility_test.

(** ** Python's string machinery, for running the file code

    Executable stand-ins for the formatting and parsing built-ins on the
    ASCII text the test file holds. *)

(** The hexadecimal digits of [n > 0], most significant first, in front of
    [acc]. *)
Fixpoint hex_digits (fuel : nat) (n : Z) (acc : list Ascii.ascii)
  : list Ascii.ascii :=
  match fuel with
  | O => acc
  | S fuel' =>
      if n <=? 0 then acc
      else
        let d := n mod 16 in
        let c := Ascii.ascii_of_nat
                   (Z.to_nat (if d <? 10 then 48 + d else 55 + d)) in
        hex_digits fuel' (n / 16) (c :: acc)
  end.

(** [format(n, "0wX")]. *)
Definition hex_upper (width : nat) (n : Z) : string :=
  let digits :=
    match hex_digits (S (Z.to_nat (Z.log2 (Z.abs n)))) (Z.abs n) [] with
    | [] => [Ascii.ascii_of_nat 48]
    | ds => ds
    end in
  let sign := if n <? 0 then [Ascii.ascii_of_nat 45] else [] in
  let pad := replicate (width - length sign - length digits)
               (Ascii.ascii_of_nat 48) in
  string_of_list_ascii (sign ++ pad ++ digits).

Definition is_space (c : Ascii.ascii) : bool :=
  let n := Ascii.nat_of_ascii c in
  ((9 <=? n) && (n <=? 13) || (28 <=? n) && (n <=? 32))%nat.

Fixpoint lstrip (cs : list Ascii.ascii) : list Ascii.ascii :=
  match cs with
  | c :: cs' => if is_space c then lstrip cs' else cs
  | [] => []
  end.

(** The first word of [cs] and what follows it. *)
Fixpoint span_word (cs : list Ascii.ascii)
  : list Ascii.ascii * list Ascii.ascii :=
  match cs with
  | c :: cs' =>
      if is_space c then ([], cs)
      else let '(w, rest) := span_word cs' in (c :: w, rest)
  | [] => ([], [])
  end.

(** [s.split(maxsplit=n)] on a string without trailing blanks. *)
Fixpoint split_blank (maxsplit : nat) (cs : list Ascii.ascii)
  : list (list Ascii.ascii) :=
  match lstrip cs with
  | [] => []
  | cs' =>
      match maxsplit with
      | O => [cs']
      | S n => let '(w, rest) := span_word cs' in w :: split_blank n rest
      end
  end.

(** [line.strip().split(maxsplit=2)]. *)
Definition strip_split (line : string) : list string :=
  let cs := reverse (lstrip (reverse (list_ascii_of_string line))) in
  string_of_list_ascii <$> split_blank 2 cs.

(** The lines of an ASCII text as a file opened in text mode hands them
    out: a line ends at a line feed, at a carriage return, or at the two
    in that order, and is handed out with a line feed at its end; the last
    line may have none. *)
Fixpoint text_lines_from (cur : list Ascii.ascii) (cs : list Ascii.ascii)
  : list string :=
  let line_feed := Ascii.ascii_of_nat 10 in
  match cs with
  | [] => match cur with [] => [] | _ => [string_of_list_ascii (reverse cur)] end
  | c :: cs' =>
      if Ascii.eqb c line_feed
      then string_of_list_ascii (reverse (c :: cur)) :: text_lines_from [] cs'
      else if Ascii.eqb c (Ascii.ascii_of_nat 13)
      then string_of_list_ascii (reverse (line_feed :: cur))
           :: match cs' with
              | c' :: cs'' =>
                  if Ascii.eqb c' line_feed then text_lines_from [] cs''
                  else text_lines_from [] cs'
              | [] => []
              end
      else text_lines_from (c :: cur) cs'
  end.

Definition text_lines (text : string) : list string :=
  text_lines_from [] (list_ascii_of_string text).


(** The simulated device holds the word of vector [v] at its address. *)
Definition holds (m : gmap Z Z) (v : Z * Z * string) : Prop :=
  default 0x0000 (m !! (fst (fst v) mod 2 ^ 18)) mod 2 ^ 16 = snd (fst v).

(** Address and word of a vector. *)
Definition vector_pair (v : Z * Z * string) : Z * Z := fst v.

#[export] Instance holds_dec (m : gmap Z Z) (v : Z * Z * string) :
  Decision (holds m v) := Z.eq_dec _ _.

(** The text [write_test_data] leaves in the file. *)
Definition test_file (hex : nat -> Z -> string) : string :=
  String.concat "" (non_volatility_test.file_line hex
                      <$> non_volatility_test.test_data).

(** * Properties *)

(** ** Monad laws, up to pointwise equality *)

#[export] Instance meq_equiv {S A} : Equivalence (@meq S A).
Proof.
  split.
  - intros m s. reflexivity.
  - intros m m' E s. symmetry. apply E.
  - intros m1 m2 m3 E1 E2 s. rewrite E1. apply E2.
Qed.

#[export] Instance bind_proper {S A B} :
  Proper (meq ==> pointwise_relation A meq ==> meq) (@bind S A B).
Proof.
  intros m m' Em k k' Ek s. unfold bind. rewrite Em.
  destruct (m' s) as [[a|e] s']; [apply Ek | reflexivity].
Qed.

Lemma bind_ret_l {S A B} (a : A) (k : A -> M S B) : bind (ret a) k ≡ₘ k a.
Proof. intros s. reflexivity. Qed.

Lemma bind_ret_r {S A} (m : M S A) : bind m ret ≡ₘ m.
Proof. intros s. unfold bind. destruct (m s) as [[a|e] s']; reflexivity. Qed.

Lemma bind_assoc {S A B C} (m : M S A) (k : A -> M S B) (k' : B -> M S C) :
  bind (bind m k) k' ≡ₘ bind m (fun a => bind (k a) k').
Proof.
  intros s. unfold bind. destruct (m s) as [[a|e] s']; reflexivity.
Qed.

(** ** Wire codec *)

Lemma land_ones_8 (x : Z) : Z.land x 0xFF = x mod 2 ^ 8.
Proof. change 0xFF with (Z.ones 8). apply Z.land_ones. lia. Qed.

Lemma land_ones_2 (x : Z) : Z.land x 0x03 = x mod 2 ^ 2.
Proof. change 0x03 with (Z.ones 2). apply Z.land_ones. lia. Qed.

Lemma addr_h_range (addr : Z) : 0 <= addr_h addr <= 3.
Proof.
  unfold addr_h. rewrite land_ones_2.
  pose proof (Z.mod_pos_bound (Z.shiftr addr 16) (2 ^ 2)). lia.
Qed.

Lemma byte_range (x : Z) : 0 <= Z.land x 0xFF <= 255.
Proof. rewrite land_ones_8. pose proof (Z.mod_pos_bound x (2 ^ 8)). lia. Qed.

(** Every element handed to [bytes(...)] is a byte, whatever the integers
    passed in: building a command never raises [ValueError]. *)
Lemma write_cmd_bytes (addr data : Z) :
  Forall (fun b => 0 <= b <= 255) (write_cmd addr data).
Proof.
  unfold write_cmd. repeat constructor; try lia;
    try apply byte_range.
  all: pose proof (addr_h_range addr); lia.
Qed.

Lemma read_cmd_bytes (addr : Z) :
  Forall (fun b => 0 <= b <= 255) (read_cmd addr).
Proof.
  unfold read_cmd. repeat constructor; try lia;
    try apply byte_range.
  all: pose proof (addr_h_range addr); lia.
Qed.

(** The three address bytes carry the address modulo [2^18]. *)
Lemma wire_address_mod (addr : Z) :
  wire_address (addr_h addr) (addr_m addr) (addr_l addr) = addr mod 2 ^ 18.
Proof.
  unfold wire_address, addr_h, addr_m, addr_l.
  rewrite land_ones_2, !land_ones_8.
  apply Z.bits_inj'. intros n Hn.
  rewrite !Z.lor_spec.
  destruct (Z.lt_ge_cases n 8) as [H8|H8].
  - rewrite (Z.shiftl_spec_low _ 16), (Z.shiftl_spec_low _ 8) by lia.
    rewrite !Z.mod_pow2_bits_low by lia. reflexivity.
  - destruct (Z.lt_ge_cases n 16) as [H16|H16].
    + rewrite (Z.shiftl_spec_low _ 16) by lia.
      rewrite (Z.shiftl_spec _ 8) by lia.
      rewrite (Z.mod_pow2_bits_high addr 8) by lia.
      rewrite !Z.mod_pow2_bits_low by lia.
      rewrite Z.shiftr_spec by lia.
      replace (n - 8 + 8) with n by lia. rewrite orb_false_r. reflexivity.
    + rewrite (Z.shiftl_spec _ 16), (Z.shiftl_spec _ 8) by lia.
      rewrite (Z.mod_pow2_bits_high addr 8) by lia.
      rewrite (Z.mod_pow2_bits_high (Z.shiftr addr 8) 8) by lia.
      rewrite !orb_false_r.
      destruct (Z.lt_ge_cases n 18) as [H18|H18].
      * rewrite !Z.mod_pow2_bits_low by lia.
        rewrite Z.shiftr_spec by lia.
        replace (n - 16 + 16) with n by lia. reflexivity.
      * rewrite !Z.mod_pow2_bits_high by lia. reflexivity.
Qed.

(** The two data bytes carry the word modulo [2^16]. *)
Lemma decode_word_mod (word : Z) :
  decode_word (data_h word) (data_l word) = word mod 2 ^ 16.
Proof.
  unfold decode_word, data_h, data_l. rewrite !land_ones_8.
  apply Z.bits_inj'. intros n Hn.
  rewrite Z.lor_spec.
  destruct (Z.lt_ge_cases n 8) as [H8|H8].
  - rewrite Z.shiftl_spec_low by lia.
    rewrite !Z.mod_pow2_bits_low by lia. reflexivity.
  - rewrite Z.shiftl_spec by lia.
    rewrite (Z.mod_pow2_bits_high word 8) by lia. rewrite orb_false_r.
    destruct (Z.lt_ge_cases n 16) as [H16|H16].
    + rewrite !Z.mod_pow2_bits_low by lia.
      rewrite Z.shiftr_spec by lia.
      replace (n - 8 + 8) with n by lia. reflexivity.
    + rewrite !Z.mod_pow2_bits_high by lia. reflexivity.
Qed.

(** C3: for an address in [[0, 0x3FFFF]] and a word in [[0, 0xFFFF]] the
    write command is the six bytes
    [0x57, (addr>>16)&0x03, (addr>>8)&0xFF, addr&0xFF, (word>>8)&0xFF,
    word&0xFF] and the read command the four bytes
    [0x52, (addr>>16)&0x03, (addr>>8)&0xFF, addr&0xFF]; the address-high
    byte has no bit set above its low two, and the three address bytes
    reassemble to the address. *)
Theorem codec_commands (addr word : Z) :
  0 <= addr <= 0x3FFFF ->
  0 <= word <= 0xFFFF ->
  write_cmd addr word =
    [0x57; Z.land (Z.shiftr addr 16) 0x03; Z.land (Z.shiftr addr 8) 0xFF;
     Z.land addr 0xFF; Z.land (Z.shiftr word 8) 0xFF; Z.land word 0xFF]
  /\ read_cmd addr =
    [0x52; Z.land (Z.shiftr addr 16) 0x03; Z.land (Z.shiftr addr 8) 0xFF;
     Z.land addr 0xFF]
  /\ length (write_cmd addr word) = 6%nat
  /\ length (read_cmd addr) = 4%nat
  /\ Z.land (addr_h addr) (Z.lnot 0x03) = 0
  /\ 0 <= addr_h addr <= 3
  /\ wire_address (addr_h addr) (addr_m addr) (addr_l addr) = addr.
Proof.
  intros Ha Hw. repeat split; try apply addr_h_range.
  - unfold addr_h. rewrite <- Z.land_assoc.
    change (Z.land 3 (Z.lnot 3)) with 0. apply Z.land_0_r.
  - rewrite wire_address_mod. apply Z.mod_small. lia.
Qed.

Lemma codec_commands_witness :
  0 <= 0x2ABCD <= 0x3FFFF /\ 0 <= 0xAA55 <= 0xFFFF /\
  write_cmd 0x2ABCD 0xAA55 = [0x57; 0x02; 0xAB; 0xCD; 0xAA; 0x55] /\
  read_cmd 0x2ABCD = [0x52; 0x02; 0xAB; 0xCD].
Proof.
  assert (Ha : 0 <= 0x2ABCD <= 0x3FFFF) by lia.
  assert (Hw : 0 <= 0xAA55 <= 0xFFFF) by lia.
  destruct (codec_commands 0x2ABCD 0xAA55 Ha Hw) as (Hwr & Hrd & _).
  split; [exact Ha|]. split; [exact Hw|]. split.
  - rewrite Hwr. reflexivity.
  - rewrite Hrd. reflexivity.
Defined.

(** C4: splitting a 16-bit word into its high byte [(word>>8)&0xFF] and low
    byte [word&0xFF] and reassembling [(high<<8)|low], as the read path
    does with the two response bytes, gives the word back. *)
Theorem word_roundtrip (word : Z) :
  0 <= word <= 0xFFFF ->
  decode_word (data_h word) (data_l word) = word.
Proof.
  intros Hw. rewrite decode_word_mod. apply Z.mod_small. lia.
Qed.

Lemma word_roundtrip_witness :
  0 <= 0xDEAD <= 0xFFFF /\ decode_word (data_h 0xDEAD) (data_l 0xDEAD) = 0xDEAD.
Proof.
  split; [lia | apply (word_roundtrip 0xDEAD); lia].
Defined.

(** ** Built-ins *)

Lemma py_range_ascending (start_addr end_addr : Z) :
  py_range start_addr (end_addr + 1) = ascending start_addr end_addr.
Proof. unfold py_range, ascending. f_equal. lia. Qed.

Lemma seqZ_reverse (a n : Z) :
  (fun i => a + n - 1 - i) <$> seqZ 0 n = reverse (seqZ a n).
Proof.
  destruct (Z.le_gt_cases n 0) as [Hn|Hn].
  { rewrite !seqZ_nil by lia. reflexivity. }
  rewrite <- (Z2Nat.id n) by lia. generalize (Z.to_nat n) as k. clear.
  induction k as [|k IH].
  - rewrite !seqZ_nil by lia. reflexivity.
  - rewrite (seqZ_S a), reverse_snoc, <- IH.
    rewrite (seqZ_cons 0) by lia. rewrite fmap_cons. f_equal; [lia|].
    replace (Z.pred (Z.of_nat (S k))) with (Z.of_nat k) by lia.
    change (Z.succ 0) with (1 + 0). rewrite <- fmap_add_seqZ, <- list_fmap_compose.
    apply list_fmap_ext. intros _ i _. simpl. lia.
Qed.

Lemma py_range_down_descending (start_addr end_addr : Z) :
  py_range_down end_addr (start_addr - 1) = descending start_addr end_addr.
Proof.
  unfold py_range_down, descending, ascending.
  replace (end_addr - (start_addr - 1)) with (end_addr - start_addr + 1) by lia.
  rewrite <- seqZ_reverse. apply list_fmap_ext. intros _ i _. lia.
Qed.

Lemma enumerate_from_fmap {A} (i0 : Z) (l : list A) :
  snd <$> enumerate_from i0 l = l.
Proof.
  revert i0. induction l as [|x l IH]; intros i0; simpl; [reflexivity|].
  f_equal. apply IH.
Qed.

Lemma enumerate_from_seqZ (i0 a n : Z) :
  enumerate_from i0 (seqZ a n) = (fun x => (x - a + i0, x)) <$> seqZ a n.
Proof.
  destruct (Z.le_gt_cases n 0) as [Hn|Hn].
  { rewrite !seqZ_nil by lia. reflexivity. }
  rewrite <- (Z2Nat.id n) by lia. generalize (Z.to_nat n) as k. clear.
  intros k. revert i0 a. induction k as [|k IH]; intros i0 a.
  - rewrite !seqZ_nil by lia. reflexivity.
  - rewrite seqZ_cons by lia. simpl. f_equal; [f_equal; lia|].
    replace (Z.pred (Z.of_nat (S k))) with (Z.of_nat k) by lia.
    rewrite IH. apply list_fmap_ext. intros _ x _. f_equal. lia.
Qed.

Lemma enumerate_bind_snd {A B} (g : A -> list B) (i0 : Z) (l : list A) :
  enumerate_from i0 l ≫= (fun p => g (snd p)) = l ≫= g.
Proof.
  revert i0. induction l as [|x l IH]; intros i0; [reflexivity|].
  cbn [enumerate_from]. rewrite !bind_cons. cbn [snd]. f_equal. apply IH.
Qed.

(** Descending order is strict: each address is one less than the one
    visited before it. *)
Lemma descending_lookup (start_addr end_addr : Z) (i : nat) (a : Z) :
  descending start_addr end_addr !! i = Some a <->
  a = end_addr - Z.of_nat i /\ Z.of_nat i < end_addr - start_addr + 1.
Proof.
  rewrite <- py_range_down_descending. unfold py_range_down.
  rewrite list_lookup_fmap, fmap_Some. setoid_rewrite lookup_seqZ.
  split.
  - intros (x & [-> Hx] & ->). lia.
  - intros [-> Hi]. exists (Z.of_nat i). lia.
Qed.

Lemma ascending_lookup (start_addr end_addr : Z) (i : nat) (a : Z) :
  ascending start_addr end_addr !! i = Some a <->
  a = start_addr + Z.of_nat i /\ Z.of_nat i < end_addr - start_addr + 1.
Proof. unfold ascending. apply lookup_seqZ. Qed.

Lemma elem_of_ascending (start_addr end_addr a : Z) :
  a ∈ ascending start_addr end_addr <-> start_addr <= a <= end_addr.
Proof. unfold ascending. rewrite elem_of_seqZ. lia. Qed.

Lemma elem_of_descending (start_addr end_addr a : Z) :
  a ∈ descending start_addr end_addr <-> start_addr <= a <= end_addr.
Proof. unfold descending. rewrite elem_of_reverse. apply elem_of_ascending. Qed.

Lemma NoDup_ascending (start_addr end_addr : Z) :
  NoDup (ascending start_addr end_addr).
Proof. apply NoDup_seqZ. Qed.

Lemma NoDup_descending (start_addr end_addr : Z) :
  NoDup (descending start_addr end_addr).
Proof.
  unfold descending. rewrite reverse_Permutation. apply NoDup_ascending.
Qed.

(** ** Loops as scripts *)

Lemma check_app (errors : list fault) (addr : Z) (tag : string)
    (expected data : Z) :
  march_test.check errors addr tag expected data =
  errors ++ (if data =? expected then [] else [(addr, tag, expected, data)]).
Proof.
  unfold march_test.check. destruct (data =? expected); simpl;
    [by rewrite app_nil_r | reflexivity].
Qed.

Lemma progress_bar_ok {S} (current total : Z) :
  total <> 0 -> @march_test.progress_bar S current total ≡ₘ ret tt.
Proof.
  intros Ht s. unfold march_test.progress_bar.
  destruct (Z.eqb_spec total 0); [contradiction | reflexivity].
Qed.

Lemma progress_every_100_ok {S} (i current total : Z) :
  total <> 0 -> @march_test.progress_every_100 S i current total ≡ₘ ret tt.
Proof.
  intros Ht. unfold march_test.progress_every_100.
  destruct (i mod 100 =? 0); [by apply progress_bar_ok | reflexivity].
Qed.

Section Scripts.
Context {U : Type} `{Uart U}.

Lemma run_script_app (s1 s2 : list step) (errors : list fault) :
  run_script (s1 ++ s2) errors ≡ₘ
  (e <- run_script s1 errors ;; run_script s2 e).
Proof.
  revert errors. induction s1 as [|[a w|a e t] s1 IH]; intros errors; simpl.
  - by rewrite bind_ret_l.
  - rewrite bind_assoc. by setoid_rewrite IH.
  - rewrite bind_assoc. by setoid_rewrite IH.
Qed.

Lemma for_each_run_script {A} (l : list A)
    (body : A -> list fault -> M U (list fault)) (sc : A -> list step) :
  (forall x errors, x ∈ l -> body x errors ≡ₘ run_script (sc x) errors) ->
  forall errors, for_each l body errors ≡ₘ run_script (l ≫= sc) errors.
Proof.
  induction l as [|x l IH]; intros Hbody errors; cbn [for_each].
  - reflexivity.
  - rewrite bind_cons, run_script_app, Hbody by apply list_elem_of_here.
    apply bind_proper; [reflexivity|]. intros e. apply IH.
    intros y e' Hy. apply Hbody. by apply list_elem_of_further.
Qed.

(** A loop that does not touch [errors], followed by the rest [k] of the
    routine. *)
Lemma for_run_script {A B} (l : list A) (body : A -> M U unit)
    (sc : A -> list step) (errors : list fault)
    (k : M U B) (k' : list fault -> M U B) :
  (forall x errors,
      x ∈ l -> (body x ;;; ret errors) ≡ₘ run_script (sc x) errors) ->
  k ≡ₘ k' errors ->
  (for_ l body ;;; k) ≡ₘ (e <- run_script (l ≫= sc) errors ;; k' e).
Proof.
  intros Hbody Hk. setoid_rewrite Hk. clear Hk.
  induction l as [|x l IH]; cbn [for_].
  - reflexivity.
  - rewrite bind_cons, run_script_app, <- Hbody by apply list_elem_of_here.
    rewrite !bind_assoc. apply bind_proper; [reflexivity|]. intros _.
    rewrite bind_ret_l. apply IH.
    intros y e' Hy. apply Hbody. by apply list_elem_of_further.
Qed.

Lemma elem_of_enumerate_from_seqZ (i0 a n i x : Z) :
  (i, x) ∈ enumerate_from i0 (seqZ a n) -> i = x - a + i0.
Proof.
  rewrite enumerate_from_seqZ, list_elem_of_fmap.
  intros (y & [= -> ->] & _). reflexivity.
Qed.

(** The two loops over [enumerate(range(...))]: the index of an address
    is its offset from the first address. *)
Lemma for_each_range (i0 a n : Z)
    (body : Z * Z -> list fault -> M U (list fault)) (g : Z -> list step) :
  (forall x errors, body (x - a + i0, x) errors ≡ₘ run_script (g x) errors) ->
  forall errors,
    for_each (enumerate_from i0 (seqZ a n)) body errors ≡ₘ
    run_script (seqZ a n ≫= g) errors.
Proof.
  intros Hbody errors.
  rewrite (for_each_run_script _ _ (fun p => g (snd p))).
  - by rewrite enumerate_bind_snd.
  - intros [i x] e Hin. apply elem_of_enumerate_from_seqZ in Hin as ->.
    apply Hbody.
Qed.

Lemma for_range {B} (i0 a n : Z) (body : Z * Z -> M U unit)
    (g : Z -> list step) (errors : list fault)
    (k : M U B) (k' : list fault -> M U B) :
  (forall x errors,
      (body (x - a + i0, x) ;;; ret errors) ≡ₘ run_script (g x) errors) ->
  k ≡ₘ k' errors ->
  (for_ (enumerate_from i0 (seqZ a n)) body ;;; k) ≡ₘ
  (e <- run_script (seqZ a n ≫= g) errors ;; k' e).
Proof.
  intros Hbody Hk.
  rewrite (for_run_script _ _ (fun p => g (snd p)) errors k k'); [|..|exact Hk].
  - by rewrite enumerate_bind_snd.
  - intros [i x] e Hin. apply elem_of_enumerate_from_seqZ in Hin as ->.
    apply Hbody.
Qed.

(** The loops over a list in any order, when the body ignores the index. *)
Lemma for_each_enumerate {A} (i0 : Z) (l : list A)
    (body : Z * A -> list fault -> M U (list fault)) (g : A -> list step) :
  (forall i x errors, body (i, x) errors ≡ₘ run_script (g x) errors) ->
  forall errors,
    for_each (enumerate_from i0 l) body errors ≡ₘ run_script (l ≫= g) errors.
Proof.
  intros Hbody errors.
  rewrite (for_each_run_script _ _ (fun p => g (snd p))).
  - by rewrite enumerate_bind_snd.
  - intros [i x] e _. apply Hbody.
Qed.

Lemma for_enumerate {A B} (i0 : Z) (l : list A) (body : Z * A -> M U unit)
    (g : A -> list step) (errors : list fault)
    (k : M U B) (k' : list fault -> M U B) :
  (forall i x errors,
      (body (i, x) ;;; ret errors) ≡ₘ run_script (g x) errors) ->
  k ≡ₘ k' errors ->
  (for_ (enumerate_from i0 l) body ;;; k) ≡ₘ
  (e <- run_script (l ≫= g) errors ;; k' e).
Proof.
  intros Hbody Hk.
  rewrite (for_run_script _ _ (fun p => g (snd p)) errors k k'); [|..|exact Hk].
  - by rewrite enumerate_bind_snd.
  - intros [i x] e _. apply Hbody.
Qed.
End Scripts.

(** ** The test routines carry out their scripts *)

Section Refinement.
Context {U : Type} `{Uart U}.

Lemma write_step (addr word i current total : Z) (errors : list fault) :
  total <> 0 ->
  ((call_write_mram addr word ;;;
    march_test.progress_every_100 i current total) ;;; ret errors)
  ≡ₘ run_script [StWrite addr word] errors.
Proof.
  intros Ht. cbn [run_script]. rewrite bind_assoc.
  setoid_rewrite (progress_every_100_ok i current total Ht).
  by setoid_rewrite bind_ret_l.
Qed.

Lemma read_write_step (addr expected word i current total : Z)
    (tag : string) (errors : list fault) :
  total <> 0 ->
  (data <- call_read_mram addr ;;
   let errors := march_test.check errors addr tag expected data in
   call_write_mram addr word ;;;
   march_test.progress_every_100 i current total ;;;
   ret errors)
  ≡ₘ run_script [StRead addr expected tag; StWrite addr word] errors.
Proof.
  intros Ht. cbn [run_script]. cbv zeta.
  setoid_rewrite (progress_every_100_ok i current total Ht).
  by setoid_rewrite bind_ret_l.
Qed.

Lemma read_step (addr expected i current total : Z)
    (tag : string) (errors : list fault) :
  total <> 0 ->
  (data <- call_read_mram addr ;;
   let errors := march_test.check errors addr tag expected data in
   march_test.progress_every_100 i current total ;;;
   ret errors)
  ≡ₘ run_script [StRead addr expected tag] errors.
Proof.
  intros Ht. cbn [run_script]. cbv zeta.
  setoid_rewrite (progress_every_100_ok i current total Ht).
  by setoid_rewrite bind_ret_l.
Qed.

Lemma march_c_test_script (start_addr end_addr : Z) :
  start_addr <= end_addr ->
  march_test.march_c_test start_addr end_addr ≡ₘ
  (errors <- run_script (spec_march_c start_addr end_addr) [] ;;
   verdict errors).
Proof.
  intros Hle.
  assert (Ht : end_addr - start_addr + 1 <> 0) by lia.
  unfold march_test.march_c_test, spec_march_c, phase, enumerate. cbv zeta.
  rewrite py_range_ascending, py_range_down_descending.
  repeat setoid_rewrite run_script_app.
  repeat setoid_rewrite bind_assoc.
  apply for_enumerate; [intros ? ? ?; by apply write_step|].
  rewrite (progress_bar_ok _ _ Ht), bind_ret_l.
  do 4 (apply bind_proper;
        [apply for_each_enumerate; intros ? ? ?; by apply read_write_step|];
        intros ?; rewrite (progress_bar_ok _ _ Ht), bind_ret_l).
  apply bind_proper;
    [apply for_each_enumerate; intros ? ? ?; by apply read_step|].
  intros ?. by rewrite (progress_bar_ok _ _ Ht), bind_ret_l.
Qed.

Lemma board_index (start_addr x : Z) (v v' : Z) :
  (if (x - start_addr + 0) mod 2 =? 0 then v else v') =
  (if bool_decide (x mod 2 = start_addr mod 2) then v else v').
Proof.
  pose proof (Z.div_mod x 2).
  pose proof (Z.div_mod start_addr 2).
  pose proof (Z.div_mod (x - start_addr + 0) 2).
  pose proof (Z.mod_pos_bound x 2).
  pose proof (Z.mod_pos_bound start_addr 2).
  pose proof (Z.mod_pos_bound (x - start_addr + 0) 2).
  destruct (Z.eqb_spec ((x - start_addr + 0) mod 2) 0);
    case_bool_decide; try reflexivity; exfalso; lia.
Qed.

Lemma checkerboard_test_script (start_addr end_addr : Z) :
  start_addr <= end_addr ->
  march_test.checkerboard_test start_addr end_addr ≡ₘ
  (errors <- run_script (spec_checkerboard start_addr end_addr) [] ;;
   verdict errors).
Proof.
  intros Hle.
  assert (Ht : end_addr - start_addr + 1 <> 0) by lia.
  unfold march_test.checkerboard_test, spec_checkerboard, phase, enumerate.
  cbv zeta. rewrite py_range_ascending. unfold ascending, board, inverse_board.
  repeat setoid_rewrite run_script_app.
  repeat setoid_rewrite bind_assoc.
  apply for_range;
    [intros x e; cbv beta iota; rewrite board_index; by apply write_step|].
  rewrite (progress_bar_ok _ _ Ht), bind_ret_l.
  apply bind_proper;
    [apply for_each_range; intros x e; cbv beta iota; rewrite board_index;
     by apply read_step|].
  intros ?. rewrite (progress_bar_ok _ _ Ht), bind_ret_l.
  apply for_range;
    [intros x e; cbv beta iota; rewrite board_index; by apply write_step|].
  rewrite (progress_bar_ok _ _ Ht), bind_ret_l.
  apply bind_proper;
    [apply for_each_range; intros x e; cbv beta iota; rewrite board_index;
     by apply read_step|].
  intros ?. by rewrite (progress_bar_ok _ _ Ht), bind_ret_l.
Qed.

Lemma address_uniqueness_test_script (start_addr end_addr : Z) :
  start_addr <= end_addr ->
  march_test.address_uniqueness_test start_addr end_addr ≡ₘ
  (errors <- run_script (spec_address_uniqueness start_addr end_addr) [] ;;
   verdict errors).
Proof.
  intros Hle.
  assert (Ht : end_addr - start_addr + 1 <> 0) by lia.
  unfold march_test.address_uniqueness_test, spec_address_uniqueness, phase,
    enumerate.
  cbv zeta. rewrite py_range_ascending.
  repeat setoid_rewrite run_script_app.
  repeat setoid_rewrite bind_assoc.
  apply for_enumerate; [intros ? ? ?; by apply write_step|].
  rewrite (progress_bar_ok _ _ Ht), bind_ret_l.
  apply bind_proper;
    [apply for_each_enumerate; intros ? ? ?; by apply read_step|].
  intros ?. by rewrite (progress_bar_ok _ _ Ht), bind_ret_l.
Qed.

Lemma walking_write_step (addr pattern : Z) (errors : list fault) :
  ((call_write_mram addr pattern ;;; ret tt) ;;; ret errors)
  ≡ₘ run_script [StWrite addr pattern] errors.
Proof. cbn [run_script]. rewrite bind_assoc. by setoid_rewrite bind_ret_l. Qed.

Lemma walking_ones_test_script (start_addr count : Z) :
  march_test.walking_ones_test start_addr count ≡ₘ
  (errors <- run_script (spec_walking one_hot "Walking1s" start_addr) [] ;;
   verdict errors).
Proof.
  unfold march_test.walking_ones_test, spec_walking. cbv zeta.
  change ((fun i => StWrite (start_addr + i) (one_hot i)) <$> seqZ 0 16)
    with (enumerate march_test.walking_ones_patterns
            ≫= fun p => [StWrite (start_addr + fst p) (snd p)]).
  change ((fun i => StRead (start_addr + i) (one_hot i) "Walking1s")
            <$> seqZ 0 16)
    with (enumerate march_test.walking_ones_patterns
            ≫= fun p => [StRead (start_addr + fst p) (snd p) "Walking1s"]).
  rewrite run_script_app, bind_assoc.
  apply for_run_script; [intros [i p] e _; apply walking_write_step|].
  apply bind_proper; [|reflexivity].
  apply for_each_run_script. intros [i p] e _. reflexivity.
Qed.

Lemma walking_zeros_test_script (start_addr count : Z) :
  march_test.walking_zeros_test start_addr count ≡ₘ
  (errors <- run_script (spec_walking one_cold "Walking0s" start_addr) [] ;;
   verdict errors).
Proof.
  unfold march_test.walking_zeros_test, spec_walking. cbv zeta.
  change ((fun i => StWrite (start_addr + i) (one_cold i)) <$> seqZ 0 16)
    with (enumerate march_test.walking_zeros_patterns
            ≫= fun p => [StWrite (start_addr + fst p) (snd p)]).
  change ((fun i => StRead (start_addr + i) (one_cold i) "Walking0s")
            <$> seqZ 0 16)
    with (enumerate march_test.walking_zeros_patterns
            ≫= fun p => [StRead (start_addr + fst p) (snd p) "Walking0s"]).
  rewrite run_script_app, bind_assoc.
  apply for_run_script; [intros [i p] e _; apply walking_write_step|].
  apply bind_proper; [|reflexivity].
  apply for_each_run_script. intros [i p] e _. reflexivity.
Qed.
End Refinement.

(** ** Running a script on a recorded uart *)

Section Spied.
Context {U : Type} `{Uart U}.

(** With a uart that never raises, a script runs to its end: every step
    is carried out, in order, and the fault records are those of the
    mismatching reads. *)
Lemma run_script_spied (script : list step) :
  never_raises U ->
  forall (errors : list fault) (s : spied U),
  exists evs u',
    run_script script errors s =
      (Return (errors ++ faults_of script evs), Spied u' (calls s ++ evs))
    /\ Forall2 performs script evs.
Proof.
  intros [Hw Hr]. induction script as [|[a w|a e t] script IH];
    intros errors [u log].
  - exists [], u. split; [|constructor].
    cbn. by rewrite !app_nil_r.
  - destruct (Hw a w u) as (b & u1 & E1).
    destruct (IH errors (Spied u1 (log ++ [EvWrite a w])))
      as (evs & u' & E & HF).
    exists (EvWrite a w :: evs), u'. split; [|by repeat constructor].
    cbn [run_script]. unfold bind at 1.
    cbn [call_write_mram spied_uart]. unfold spied_write_mram.
    cbn [inner calls]. rewrite E1, E. cbn [calls faults_of].
    by rewrite <- app_assoc.
  - destruct (Hr a u) as (d & u1 & E1).
    destruct (IH (march_test.check errors a t e d)
                (Spied u1 (log ++ [EvRead a d]))) as (evs & u' & E & HF).
    exists (EvRead a d :: evs), u'. split; [|by repeat constructor].
    cbn [run_script]. unfold bind at 1.
    cbn [call_read_mram spied_uart]. unfold spied_read_mram.
    cbn [inner calls]. rewrite E1, E. cbn [calls faults_of].
    by rewrite check_app, <- !app_assoc.
Qed.

(** Recording does not change what a run does. *)
Lemma run_script_spied_inner (script : list step) (errors : list fault)
    (s : spied U) :
  run_script script errors (inner s) =
  (fst (run_script script errors s), inner (snd (run_script script errors s))).
Proof.
  revert errors s. induction script as [|[a w|a e t] script IH];
    intros errors [u log]; cbn [run_script inner].
  - reflexivity.
  - unfold bind. cbn [call_write_mram spied_uart]. unfold spied_write_mram.
    cbn [inner calls].
    destruct (call_write_mram a w u) as [[b|x] u1]; [|reflexivity].
    apply (IH errors (Spied u1 _)).
  - unfold bind. cbn [call_read_mram spied_uart]. unfold spied_read_mram.
    cbn [inner calls].
    destruct (call_read_mram a u) as [[d|x] u1]; [|reflexivity].
    apply (IH _ (Spied u1 _)).
Qed.

(** A script only stops early when one of its uart calls raises. *)
Lemma run_script_raise (script : list step) (errors : list fault)
    (u u' : U) (e : exn) :
  run_script script errors u = (Raise e, u') ->
  exists st, st ∈ script /\ step_raises st e.
Proof.
  revert errors u. induction script as [|[a w|a x t] script IH];
    intros errors u; cbn [run_script].
  - intros [=].
  - unfold bind. destruct (call_write_mram a w u) as [[b|y] u1] eqn:E1.
    + intros E. destruct (IH _ _ E) as (st & Hin & Hst).
      exists st. split; [by apply list_elem_of_further | exact Hst].
    + intros [= -> ->]. exists (StWrite a w).
      split; [apply list_elem_of_here | by exists u, u'].
  - unfold bind. destruct (call_read_mram a u) as [[d|y] u1] eqn:E1.
    + intros E. destruct (IH _ _ E) as (st & Hin & Hst).
      exists st. split; [by apply list_elem_of_further | exact Hst].
    + intros [= -> ->]. exists (StRead a x t).
      split; [apply list_elem_of_here | by exists u, u'].
Qed.

(** A routine that carries out [script] and returns its verdict, run on a
    recorded uart that never raises. *)
Lemma routine_spied (routine : M (spied U) (bool * list fault))
    (script : list step) (u : U) :
  never_raises U ->
  routine ≡ₘ (errors <- run_script script [] ;; verdict errors) ->
  exists evs u',
    routine (Spied u []) =
      (Return (is_empty (faults_of script evs), faults_of script evs),
       Spied u' evs)
    /\ Forall2 performs script evs.
Proof.
  intros Hnr Hscript.
  destruct (run_script_spied script Hnr [] (Spied u [])) as (evs & u' & E & HF).
  exists evs, u'. split; [|exact HF].
  rewrite Hscript. unfold bind. rewrite E. reflexivity.
Qed.
End Spied.

Lemma ideal_never_raises : never_raises ideal_mock.
Proof.
  split.
  - intros a d u. by eexists _, _.
  - intros a u. by eexists _, _.
Qed.

(** C1: over a range with [start <= end], one March C run carries out the
    six phases of [spec_march_c] in order -- (1) ascending, write [0x0000];
    (2) ascending, read expecting [0x0000] then write [0xFFFF]; (3)
    ascending, read expecting [0xFFFF] then write [0x0000]; (4) descending,
    read expecting [0x0000] then write [0xFFFF]; (5) descending, read
    expecting [0xFFFF] then write [0x0000]; (6) ascending, read expecting
    [0x0000] -- the descending phases visit each address one below the
    previous one, and the errors returned are one fault record, tagged with
    the phase, for each read that returned something else than expected. *)
Theorem march_c_six_phases {U : Type} `{Uart U}
    (start_addr end_addr : Z) (u : U) :
  never_raises U ->
  start_addr <= end_addr ->
  exists evs u',
    march_test.march_c_test start_addr end_addr (Spied u []) =
      (Return (is_empty (faults_of (spec_march_c start_addr end_addr) evs),
               faults_of (spec_march_c start_addr end_addr) evs),
       Spied u' evs)
    /\ Forall2 performs (spec_march_c start_addr end_addr) evs
    /\ (forall (i : nat) (a : Z),
          descending start_addr end_addr !! i = Some a <->
          a = end_addr - Z.of_nat i /\ Z.of_nat i < end_addr - start_addr + 1)
    /\ (forall (i : nat) (a : Z),
          ascending start_addr end_addr !! i = Some a <->
          a = start_addr + Z.of_nat i /\ Z.of_nat i < end_addr - start_addr + 1).
Proof.
  intros Hnr Hle.
  destruct (routine_spied
              (march_test.march_c_test start_addr end_addr)
              (spec_march_c start_addr end_addr) u Hnr
              (march_c_test_script start_addr end_addr Hle))
    as (evs & u' & E & HF).
  exists evs, u'. split; [exact E|]. split; [exact HF|]. split.
  - apply descending_lookup.
  - apply ascending_lookup.
Qed.

Lemma march_c_six_phases_witness :
  never_raises ideal_mock /\ 0 <= 1 /\
  exists evs u',
    march_test.march_c_test 0 1 (Spied (IdealMock ∅) []) =
      (Return (is_empty (faults_of (spec_march_c 0 1) evs),
               faults_of (spec_march_c 0 1) evs),
       Spied u' evs)
    /\ Forall2 performs (spec_march_c 0 1) evs.
Proof.
  assert (Hle : 0 <= 1) by lia.
  split; [exact ideal_never_raises|]. split; [exact Hle|].
  destruct (march_c_six_phases 0 1 (IdealMock ∅) ideal_never_raises Hle)
    as (evs & u' & E & HF & _).
  exists evs, u'. split; [exact E | exact HF].
Defined.

(** ** March C on a memory *)

Lemma run_script_app_ok {U} `{Uart U} (s1 s2 : list step)
    (errors e1 : list fault) (u u1 : U) :
  run_script s1 errors u = (Return e1, u1) ->
  run_script (s1 ++ s2) errors u = run_script s2 e1 u1.
Proof. intros E. rewrite (run_script_app s1 s2 errors u). unfold bind. by rewrite E. Qed.

Lemma check_match (errors : list fault) (addr : Z) (tag : string) (data : Z) :
  march_test.check errors addr tag data data = errors.
Proof. unfold march_test.check. by rewrite Z.eqb_refl. Qed.

Section MemoryLike.
Context {U : Type} `{Uart U}.
Context (Inv : U -> Prop) (Dom W : Z -> Prop) (peek : U -> Z -> Z).
Context (ML : memory_like Inv Dom W peek).

Lemma ml_write_phase (l : list Z) (w : Z) (errors : list fault) (u : U) :
  Inv u -> Forall Dom l -> W w ->
  exists u',
    run_script (phase l (fun a => [StWrite a w])) errors u = (Return errors, u')
    /\ Inv u'
    /\ (forall a, a ∈ l -> peek u' a = w)
    /\ (forall a, Dom a -> a ∉ l -> peek u' a = peek u a).
Proof.
  intros HI HD HW. revert u HI. induction HD as [|x l Hx HD IH]; intros u HI.
  - exists u. split; [reflexivity|]. split; [done|].
    split; [by intros a ?%elem_of_nil | done].
  - destruct (ml_write _ _ _ _ ML x w u HI Hx HW) as (b & u1 & E1 & I1 & P1 & Q1).
    destruct (IH u1 I1) as (u' & E & I' & P' & Q').
    exists u'. unfold phase in *. rewrite bind_cons. cbn [app run_script].
    unfold bind at 1. rewrite E1. split; [exact E|]. split; [exact I'|]. split.
    + intros a [->|Ha]%elem_of_cons; [|by apply P'].
      destruct (decide (x ∈ l)); [by apply P'|]. by rewrite Q'.
    + intros a Ha Hn. apply not_elem_of_cons in Hn as [Hne Hn].
      rewrite Q' by done. by apply Q1.
Qed.

Lemma ml_read_write_phase (l : list Z) (e w : Z) (tag : string)
    (errors : list fault) (u : U) :
  Inv u -> Forall Dom l -> W w -> NoDup l ->
  (forall a, a ∈ l -> peek u a = e) ->
  exists u',
    run_script (phase l (fun a => [StRead a e tag; StWrite a w])) errors u =
      (Return errors, u')
    /\ Inv u'
    /\ (forall a, a ∈ l -> peek u' a = w)
    /\ (forall a, Dom a -> a ∉ l -> peek u' a = peek u a).
Proof.
  intros HI HD HW HN. revert u HI.
  induction HD as [|x l Hx HD IH]; intros u HI He.
  - exists u. split; [reflexivity|]. split; [done|].
    split; [by intros a ?%elem_of_nil | done].
  - apply NoDup_cons in HN as [Hxl HN].
    destruct (ml_read _ _ _ _ ML x u HI Hx) as (u0 & E0 & I0 & Q0).
    destruct (ml_write _ _ _ _ ML x w u0 I0 Hx HW)
      as (b & u1 & E1 & I1 & P1 & Q1).
    destruct (IH HN u1 I1) as (u' & E & I' & P' & Q').
    { intros a Ha. rewrite Q1, Q0.
      - apply He. by apply list_elem_of_further.
      - by eapply Forall_forall in HD.
      - by eapply Forall_forall in HD.
      - by intros ->. }
    exists u'. unfold phase in *. rewrite bind_cons. cbn [app run_script].
    unfold bind at 1. rewrite E0. unfold bind at 1. rewrite E1.
    rewrite (He x) by apply list_elem_of_here. rewrite check_match.
    split; [exact E|]. split; [exact I'|]. split.
    + intros a [->|Ha]%elem_of_cons; [|by apply P'].
      by rewrite Q'.
    + intros a Ha Hn. apply not_elem_of_cons in Hn as [Hne Hn].
      rewrite Q', Q1, Q0 by done. reflexivity.
Qed.

Lemma ml_read_phase (l : list Z) (e : Z) (tag : string)
    (errors : list fault) (u : U) :
  Inv u -> Forall Dom l ->
  (forall a, a ∈ l -> peek u a = e) ->
  exists u',
    run_script (phase l (fun a => [StRead a e tag])) errors u =
      (Return errors, u')
    /\ Inv u'
    /\ (forall a, Dom a -> peek u' a = peek u a).
Proof.
  intros HI HD. revert u HI.
  induction HD as [|x l Hx HD IH]; intros u HI He.
  - exists u. split; [reflexivity|]. by split.
  - destruct (ml_read _ _ _ _ ML x u HI Hx) as (u0 & E0 & I0 & Q0).
    destruct (IH u0 I0) as (u' & E & I' & Q').
    { intros a Ha. rewrite Q0 by by eapply Forall_forall in HD.
      apply He. by apply list_elem_of_further. }
    exists u'. unfold phase in *. rewrite bind_cons. cbn [app run_script].
    unfold bind at 1. rewrite E0.
    rewrite (He x) by apply list_elem_of_here. rewrite check_match.
    split; [exact E|]. split; [exact I'|].
    intros a Ha. by rewrite Q', Q0.
Qed.

(** March C finds no fault in a memory. *)
Lemma march_c_memory_like (start_addr end_addr : Z) (u : U) :
  Inv u -> start_addr <= end_addr ->
  (forall a, start_addr <= a <= end_addr -> Dom a) ->
  W 0x0000 -> W 0xFFFF ->
  exists u', march_test.march_c_test start_addr end_addr u =
             (Return (true, []), u').
Proof.
  intros HI Hle HD W0 W1.
  assert (Hup : Forall Dom (ascending start_addr end_addr)).
  { apply Forall_forall. intros a Ha%elem_of_ascending. by apply HD. }
  assert (Hdown : Forall Dom (descending start_addr end_addr)).
  { apply Forall_forall. intros a Ha%elem_of_descending. by apply HD. }
  pose proof (NoDup_ascending start_addr end_addr) as Nup.
  pose proof (NoDup_descending start_addr end_addr) as Ndown.
  assert (Hud : forall a, a ∈ descending start_addr end_addr <->
                          a ∈ ascending start_addr end_addr).
  { intros a. by rewrite elem_of_descending, elem_of_ascending. }
  destruct (ml_write_phase _ 0x0000 [] u HI Hup W0) as (u1 & E1 & I1 & P1 & _).
  destruct (ml_read_write_phase _ 0x0000 0xFFFF "Phase2" [] u1 I1 Hup W1 Nup P1)
    as (u2 & E2 & I2 & P2 & _).
  destruct (ml_read_write_phase _ 0xFFFF 0x0000 "Phase3" [] u2 I2 Hup W0 Nup P2)
    as (u3 & E3 & I3 & P3 & _).
  destruct (ml_read_write_phase _ 0x0000 0xFFFF "Phase4" [] u3 I3 Hdown W1 Ndown)
    as (u4 & E4 & I4 & P4 & _).
  { intros a Ha. apply P3. by apply Hud. }
  destruct (ml_read_write_phase _ 0xFFFF 0x0000 "Phase5" [] u4 I4 Hdown W0 Ndown P4)
    as (u5 & E5 & I5 & P5 & _).
  destruct (ml_read_phase _ 0x0000 "Phase6" [] u5 I5 Hup)
    as (u6 & E6 & I6 & _).
  { intros a Ha. apply P5. by apply Hud. }
  exists u6. rewrite (march_c_test_script start_addr end_addr Hle u).
  unfold bind, spec_march_c. cbv zeta.
  rewrite (run_script_app_ok _ _ _ _ _ _ E1), (run_script_app_ok _ _ _ _ _ _ E2),
    (run_script_app_ok _ _ _ _ _ _ E3), (run_script_app_ok _ _ _ _ _ _ E4),
    (run_script_app_ok _ _ _ _ _ _ E5), E6.
  reflexivity.
Qed.
End MemoryLike.

Lemma ideal_memory_like :
  memory_like (fun _ : ideal_mock => True) (fun _ => True) (fun _ => True)
    ideal_peek.
Proof.
  split.
  - intros a w [m] _ _ _. eexists _, _. split; [reflexivity|].
    unfold ideal_peek. cbn [cells]. split; [done|]. split.
    + by rewrite lookup_insert_eq.
    + intros a' _ Hne. by rewrite lookup_insert_ne.
  - intros a u _ _. exists u. by repeat split.
Qed.

Lemma sim_write_mram (a w : Z) (m : gmap Z Z) :
  march_test.write_mram sim_serial a w (SimPort m [] true) =
  (Return true,
   SimPort (<[wire_address (addr_h a) (addr_m a) (addr_l a) :=
              decode_word (data_h w) (data_l w)]> m) [] true).
Proof. reflexivity. Qed.

Lemma sim_read_mram (a : Z) (m : gmap Z Z) :
  march_test.read_mram sim_serial a (SimPort m [] true) =
  (Return
     (let w := default 0x0000
                 (m !! wire_address (addr_h a) (addr_m a) (addr_l a)) in
      decode_word (data_h w) (data_l w)),
   SimPort m [] true).
Proof. reflexivity. Qed.

Lemma sim_memory_like :
  memory_like (H := march_test.MRAMUART sim_serial)
    sim_idle valid_address valid_word sim_peek.
Proof.
  split.
  - intros a w [m r ans] [Hr Ha] Hdom Hw. cbn in Hr, Ha. subst r ans.
    eexists _, _. split; [apply sim_write_mram|]. split; [done|].
    unfold sim_peek. cbn [mem].
    rewrite wire_address_mod, decode_word_mod.
    rewrite (Z.mod_small a) by (unfold valid_address in Hdom; lia).
    split.
    + rewrite lookup_insert_eq. cbn [default id].
      rewrite Z.mod_mod by lia. apply Z.mod_small.
      unfold valid_word in Hw. lia.
    + intros a' _ Hne. by rewrite lookup_insert_ne.
  - intros a [m r ans] [Hr Ha] Hdom. cbn in Hr, Ha. subst r ans.
    exists (SimPort m [] true). split; [|by split].
    cbn [call_read_mram march_test.MRAMUART]. rewrite sim_read_mram. cbv zeta.
    rewrite wire_address_mod, decode_word_mod.
    rewrite (Z.mod_small a) by (unfold valid_address in Hdom; lia).
    reflexivity.
Qed.

(** C2: March C over a non-empty range finds no fault in an ideal test
    double, whose read of an address returns the word last written there,
    and [0x0000] if none was: the list of errors is empty and the verdict
    is [True].  The same holds one level down, for the real [MRAMUART]
    talking to a simulated device that answers, over a range of valid
    addresses. *)
Theorem march_c_ideal_no_faults (start_addr end_addr : Z) :
  start_addr <= end_addr ->
  (forall m : ideal_mock,
      exists m', march_test.march_c_test start_addr end_addr m =
                 (Return (true, []), m'))
  /\ (0 <= start_addr -> end_addr <= 0x3FFFF ->
      forall p : sim_port, sim_idle p ->
      exists p',
        march_test.march_c_test (H := march_test.MRAMUART sim_serial)
          start_addr end_addr p = (Return (true, []), p')).
Proof.
  intros Hle. split.
  - intros m.
    by apply (march_c_memory_like _ _ _ _ ideal_memory_like).
  - intros H0 H1 p Hp.
    apply (march_c_memory_like _ _ _ _ sim_memory_like);
      unfold valid_address, valid_word; first [done | lia | intros; lia].
Qed.

Lemma march_c_ideal_no_faults_witness :
  0 <= 3 /\
  (exists m', march_test.march_c_test 0 3 (IdealMock ∅) = (Return (true, []), m'))
  /\ (exists p',
        march_test.march_c_test (H := march_test.MRAMUART sim_serial)
          0 3 sim_alive = (Return (true, []), p')).
Proof.
  assert (Hle : 0 <= 3) by lia.
  assert (H0 : 0 <= 0) by lia.
  assert (H1 : 3 <= 0x3FFFF) by lia.
  assert (Hidle : sim_idle sim_alive) by (split; reflexivity).
  split; [exact Hle|]. split.
  - exact (proj1 (march_c_ideal_no_faults 0 3 Hle) (IdealMock ∅)).
  - exact (proj2 (march_c_ideal_no_faults 0 3 Hle) H0 H1 sim_alive Hidle).
Defined.

(** ** Checkerboard *)

Lemma checks_app (s1 s2 : list step) : checks (s1 ++ s2) = checks s1 ++ checks s2.
Proof. unfold checks. apply bind_app. Qed.

Lemma checks_write_phase (l : list Z) (f : Z -> Z) :
  checks (phase l (fun a => [StWrite a (f a)])) = [].
Proof.
  unfold checks, phase. induction l as [|x l IH]; [reflexivity|].
  rewrite bind_cons, bind_app, IH. reflexivity.
Qed.

Lemma checks_read_phase (l : list Z) (f : Z -> Z) (tag : string) :
  checks (phase l (fun a => [StRead a (f a) tag])) = (fun a => (a, f a)) <$> l.
Proof.
  unfold checks, phase. induction l as [|x l IH]; [reflexivity|].
  rewrite bind_cons, bind_app, IH. reflexivity.
Qed.

(** How often address [a] is compared with value [v] in one verify pass. *)
Lemma count_check (f : Z -> Z) (l : list Z) (a v : Z) :
  NoDup l ->
  length (filter (fun c => c = (a, v)) ((fun x => (x, f x)) <$> l)) =
  if bool_decide (a ∈ l /\ f a = v) then 1%nat else 0%nat.
Proof.
  induction 1 as [|x l Hx HN IH].
  - cbn. case_bool_decide as Hd; [|reflexivity].
    destruct Hd as [Hd _]. by apply elem_of_nil in Hd.
  - rewrite fmap_cons, filter_cons.
    destruct (decide ((x, f x) = (a, v))) as [Heq|Heq].
    + injection Heq as -> <-. cbn [length]. rewrite IH.
      rewrite (bool_decide_eq_false_2 (a ∈ l /\ _)) by (by intros [? _]).
      rewrite bool_decide_eq_true_2; [reflexivity|].
      split; [apply list_elem_of_here | reflexivity].
    + rewrite IH.
      rewrite (bool_decide_ext (a ∈ l /\ f a = v) (a ∈ x :: l /\ f a = v));
        [reflexivity|].
      split.
      * intros [Ha Hf]. split; [by apply list_elem_of_further | exact Hf].
      * intros [[->|Ha]%elem_of_cons Hf]; [|by split].
        exfalso. apply Heq. by rewrite Hf.
Qed.

Lemma board_cases (start_addr a : Z) :
  (board start_addr a = 0xAAAA /\ inverse_board start_addr a = 0x5555) \/
  (board start_addr a = 0x5555 /\ inverse_board start_addr a = 0xAAAA).
Proof. unfold board, inverse_board. case_bool_decide; auto. Qed.

Lemma board_parity (start_addr a b : Z) :
  a mod 2 = b mod 2 ->
  board start_addr a = board start_addr b /\
  inverse_board start_addr a = inverse_board start_addr b.
Proof. unfold board, inverse_board. by intros ->. Qed.

Lemma checkerboard_counts (start_addr end_addr a : Z) :
  start_addr <= a <= end_addr ->
  length (filter (fun c => c = (a, 0xAAAA))
            (checks (spec_checkerboard start_addr end_addr))) = 1%nat
  /\ length (filter (fun c => c = (a, 0x5555))
               (checks (spec_checkerboard start_addr end_addr))) = 1%nat.
Proof.
  intros Ha%elem_of_ascending.
  pose proof (NoDup_ascending start_addr end_addr) as HN.
  unfold spec_checkerboard. cbv zeta.
  rewrite !checks_app, !checks_write_phase, !checks_read_phase.
  cbn [app]. rewrite !filter_app, !length_app, !count_check by exact HN.
  set (up := ascending start_addr end_addr) in *.
  assert (T : forall v : Z, bool_decide (a ∈ up /\ v = v) = true).
  { intros v. by apply bool_decide_eq_true_2. }
  assert (F1 : bool_decide (a ∈ up /\ 0x5555 = 0xAAAA) = false).
  { apply bool_decide_eq_false_2. intros [_ ?]. discriminate. }
  assert (F2 : bool_decide (a ∈ up /\ 0xAAAA = 0x5555) = false).
  { apply bool_decide_eq_false_2. intros [_ ?]. discriminate. }
  destruct (board_cases start_addr a) as [[-> ->]|[-> ->]]; split;
    rewrite ?T, ?F1, ?F2; reflexivity.
Qed.

(** C7: over a range [[start, end]] the checkerboard test writes [0xAAAA]
    or [0x5555] to each address according to the parity of the address and
    verifies every address against that pattern, then writes and verifies
    the inverse alternation; across the two passes every address of the
    range is compared exactly once with [0xAAAA] and exactly once with
    [0x5555]. *)
Theorem checkerboard_two_passes {U : Type} `{Uart U}
    (start_addr end_addr : Z) (u : U) :
  never_raises U ->
  start_addr <= end_addr ->
  (exists evs u',
      march_test.checkerboard_test start_addr end_addr (Spied u []) =
        (Return
           (is_empty (faults_of (spec_checkerboard start_addr end_addr) evs),
            faults_of (spec_checkerboard start_addr end_addr) evs),
         Spied u' evs)
      /\ Forall2 performs (spec_checkerboard start_addr end_addr) evs)
  /\ (forall a, start_addr <= a <= end_addr ->
        length (filter (fun c => c = (a, 0xAAAA))
                  (checks (spec_checkerboard start_addr end_addr))) = 1%nat
        /\ length (filter (fun c => c = (a, 0x5555))
                     (checks (spec_checkerboard start_addr end_addr))) = 1%nat)
  /\ (forall a b, a mod 2 = b mod 2 ->
        board start_addr a = board start_addr b /\
        inverse_board start_addr a = inverse_board start_addr b)
  /\ (forall a,
        (board start_addr a = 0xAAAA /\ inverse_board start_addr a = 0x5555) \/
        (board start_addr a = 0x5555 /\ inverse_board start_addr a = 0xAAAA)).
Proof.
  intros Hnr Hle. split; [|split; [|split]].
  - apply (routine_spied _ _ u Hnr).
    by apply checkerboard_test_script.
  - intros a. apply checkerboard_counts.
  - apply board_parity.
  - apply board_cases.
Qed.

Lemma checkerboard_two_passes_witness :
  never_raises ideal_mock /\ 3 <= 6 /\
  exists evs u',
    march_test.checkerboard_test 3 6 (Spied (IdealMock ∅) []) =
      (Return (is_empty (faults_of (spec_checkerboard 3 6) evs),
               faults_of (spec_checkerboard 3 6) evs),
       Spied u' evs)
    /\ Forall2 performs (spec_checkerboard 3 6) evs.
Proof.
  assert (Hle : 3 <= 6) by lia.
  split; [exact ideal_never_raises|]. split; [exact Hle|].
  exact (proj1 (checkerboard_two_passes 3 6 (IdealMock ∅)
                  ideal_never_raises Hle)).
Defined.

(** ** Walking ones and walking zeros *)

Lemma walking_ones_patterns_spec :
  march_test.walking_ones_patterns = one_hot <$> seqZ 0 16.
Proof. reflexivity. Qed.

Lemma walking_zeros_patterns_spec :
  march_test.walking_zeros_patterns = one_cold <$> seqZ 0 16.
Proof. reflexivity. Qed.

Lemma one_hot_values :
  one_hot <$> seqZ 0 16 =
  [0x0001; 0x0002; 0x0004; 0x0008; 0x0010; 0x0020; 0x0040; 0x0080;
   0x0100; 0x0200; 0x0400; 0x0800; 0x1000; 0x2000; 0x4000; 0x8000].
Proof. reflexivity. Qed.

Lemma one_cold_values :
  one_cold <$> seqZ 0 16 =
  [0xFFFE; 0xFFFD; 0xFFFB; 0xFFF7; 0xFFEF; 0xFFDF; 0xFFBF; 0xFF7F;
   0xFEFF; 0xFDFF; 0xFBFF; 0xF7FF; 0xEFFF; 0xDFFF; 0xBFFF; 0x7FFF].
Proof. reflexivity. Qed.

Lemma one_hot_NoDup : NoDup (one_hot <$> seqZ 0 16).
Proof. rewrite one_hot_values. apply (bool_decide_unpack _). vm_compute. exact I. Qed.

Lemma one_cold_NoDup : NoDup (one_cold <$> seqZ 0 16).
Proof. rewrite one_cold_values. apply (bool_decide_unpack _). vm_compute. exact I. Qed.

(** The walking-zeros patterns are the 16-bit complements of the
    walking-ones patterns, position by position. *)
Lemma one_cold_complement :
  one_cold <$> seqZ 0 16 = (fun p => Z.lxor p 0xFFFF) <$> (one_hot <$> seqZ 0 16).
Proof. reflexivity. Qed.

Lemma spec_walking_addresses (pattern : Z -> Z) (tag : string) (start_addr : Z) :
  step_addr <$> spec_walking pattern tag start_addr =
  seqZ start_addr 16 ++ seqZ start_addr 16.
Proof.
  unfold spec_walking. rewrite fmap_app, <- !list_fmap_compose.
  replace (seqZ start_addr 16) with (Z.add start_addr <$> seqZ 0 16).
  - reflexivity.
  - rewrite fmap_add_seqZ. f_equal. lia.
Qed.

(** C8: the walking-ones test writes the 16 patterns [1 << i], [i] in
    [0..15], each once, pattern [1 << i] to address [start + i], and only
    after the 16 writes reads the 16 addresses back, comparing each with
    its own pattern; the walking-zeros test makes the same traversal with
    the complement patterns [~(1 << i) & 0xFFFF]. *)
Theorem walking_tests {U : Type} `{Uart U} (start_addr count : Z) (u : U) :
  never_raises U ->
  (exists evs u',
      march_test.walking_ones_test start_addr count (Spied u []) =
        (Return
           (is_empty (faults_of (spec_walking one_hot "Walking1s" start_addr) evs),
            faults_of (spec_walking one_hot "Walking1s" start_addr) evs),
         Spied u' evs)
      /\ Forall2 performs (spec_walking one_hot "Walking1s" start_addr) evs)
  /\ (exists evs u',
      march_test.walking_zeros_test start_addr count (Spied u []) =
        (Return
           (is_empty (faults_of (spec_walking one_cold "Walking0s" start_addr) evs),
            faults_of (spec_walking one_cold "Walking0s" start_addr) evs),
         Spied u' evs)
      /\ Forall2 performs (spec_walking one_cold "Walking0s" start_addr) evs)
  /\ march_test.walking_ones_patterns = one_hot <$> seqZ 0 16
  /\ march_test.walking_zeros_patterns = one_cold <$> seqZ 0 16
  /\ one_hot <$> seqZ 0 16 =
     [0x0001; 0x0002; 0x0004; 0x0008; 0x0010; 0x0020; 0x0040; 0x0080;
      0x0100; 0x0200; 0x0400; 0x0800; 0x1000; 0x2000; 0x4000; 0x8000]
  /\ NoDup (one_hot <$> seqZ 0 16)
  /\ NoDup (one_cold <$> seqZ 0 16)
  /\ one_cold <$> seqZ 0 16 =
     (fun p => Z.lxor p 0xFFFF) <$> (one_hot <$> seqZ 0 16).
Proof.
  intros Hnr. split; [|split].
  - apply (routine_spied _ _ u Hnr). apply walking_ones_test_script.
  - apply (routine_spied _ _ u Hnr). apply walking_zeros_test_script.
  - repeat split;
      [apply one_hot_NoDup | apply one_cold_NoDup].
Qed.

Lemma walking_tests_witness :
  never_raises ideal_mock /\
  exists evs u',
    march_test.walking_ones_test 0x100 16 (Spied (IdealMock ∅) []) =
      (Return
         (is_empty (faults_of (spec_walking one_hot "Walking1s" 0x100) evs),
          faults_of (spec_walking one_hot "Walking1s" 0x100) evs),
       Spied u' evs)
    /\ Forall2 performs (spec_walking one_hot "Walking1s" 0x100) evs.
Proof.
  split; [exact ideal_never_raises|].
  exact (proj1 (walking_tests 0x100 16 (IdealMock ∅) ideal_never_raises)).
Defined.

(** C10: the [count] parameter of the walking tests is not used: for any
    two values of it, with the same start address and the same uart state,
    the two runs are equal -- result and final state, hence every command
    issued; each run is the 32-step script over the 16 addresses
    [start .. start+15], written then read. *)
Theorem walking_count_unused {U : Type} `{Uart U}
    (start_addr count1 count2 : Z) (s : U) :
  march_test.walking_ones_test start_addr count1 s =
    march_test.walking_ones_test start_addr count2 s
  /\ march_test.walking_zeros_test start_addr count1 s =
       march_test.walking_zeros_test start_addr count2 s
  /\ march_test.walking_ones_test start_addr count1 s =
       (errors <- run_script (spec_walking one_hot "Walking1s" start_addr) [] ;;
        verdict errors) s
  /\ march_test.walking_zeros_test start_addr count1 s =
       (errors <- run_script (spec_walking one_cold "Walking0s" start_addr) [] ;;
        verdict errors) s
  /\ step_addr <$> spec_walking one_hot "Walking1s" start_addr =
       seqZ start_addr 16 ++ seqZ start_addr 16
  /\ step_addr <$> spec_walking one_cold "Walking0s" start_addr =
       seqZ start_addr 16 ++ seqZ start_addr 16.
Proof.
  split; [|split; [|split; [|split; [|split]]]].
  - by rewrite !(walking_ones_test_script start_addr _ s).
  - by rewrite !(walking_zeros_test_script start_addr _ s).
  - apply walking_ones_test_script.
  - apply walking_zeros_test_script.
  - apply spec_walking_addresses.
  - apply spec_walking_addresses.
Qed.

(** ** No early exit *)

Lemma run_algorithm_script {U} `{Uart U} (alg : algorithm) :
  nonempty_range alg ->
  run_algorithm alg ≡ₘ (errors <- run_script (script_of alg) [] ;; verdict errors).
Proof.
  destruct alg as [s e|s c|s c|s e|s e]; cbn [nonempty_range run_algorithm script_of];
    intros Hne.
  - by apply march_c_test_script.
  - apply walking_ones_test_script.
  - apply walking_zeros_test_script.
  - by apply checkerboard_test_script.
  - by apply address_uniqueness_test_script.
Qed.

(** On a reliable line the [MRAMUART] methods always return: a read whose
    response does not arrive returns [0xDEAD] like any other value. *)
Lemma MRAMUART_never_raises (ser : Serial) :
  reliable ser -> never_raises (H := march_test.MRAMUART ser) (port ser).
Proof.
  intros (Hw & Hreset & Hsleep & Hin). split.
  - intros addr data p. cbn [call_write_mram march_test.MRAMUART].
    unfold march_test.write_mram, bind.
    destruct (Hw (write_cmd addr data) p) as (p1 & ->).
    destruct (Hsleep 2 p1) as (p2 & ->).
    destruct (Hreset p2) as (p3 & ->).
    by eexists _, _.
  - intros addr p. cbn [call_read_mram march_test.MRAMUART].
    unfold march_test.read_mram, bind.
    destruct (Hreset p) as (p1 & ->).
    destruct (Hw (read_cmd addr) p1) as (p2 & ->).
    destruct (Hsleep 20 p2) as (p3 & ->).
    destruct (Hin p3) as (n & p4 & -> & Hread).
    destruct (Z.leb_spec 2 n) as [Hn|Hn]; [|by eexists _, _].
    destruct (Hread Hn) as (b0 & b1 & rest & p5 & ->).
    by eexists _, _.
Qed.

Lemma sim_reliable : reliable sim_serial.
Proof.
  split; [|split; [|split]].
  - intros cmd p. cbn [ser_write sim_serial]. unfold sim_write.
    repeat (case_match; try by eexists).
  - intros p. by eexists.
  - intros d p. by eexists.
  - intros p. eexists _, _. split; [reflexivity|].
    cbn [ser_read sim_serial]. unfold sim_read. intros Hn.
    destruct p as [m [|b0 [|b1 r]] ans]; cbn in Hn; try lia.
    by eexists _, _, _, _.
Qed.

(** X26: a read that returns another word than expected never ends a run.
    Over a non-empty range, on a uart whose calls do not raise, every
    algorithm carries out every step of its script, in order, and returns
    the fault records of the reads that returned something else than
    expected, in the order of the reads; a run only unwinds when one of
    its uart calls raised, with that exception; and on a serial line
    without connection failures the [MRAMUART] calls never raise: a read
    that times out returns the word [0xDEAD]. *)
Theorem no_early_exit {U : Type} `{Uart U} (alg : algorithm) :
  nonempty_range alg ->
  (never_raises U ->
   forall u : U, exists evs u',
     run_algorithm alg (Spied u []) =
       (Return (is_empty (faults_of (script_of alg) evs),
                faults_of (script_of alg) evs),
        Spied u' evs)
     /\ Forall2 performs (script_of alg) evs
     /\ length evs = length (script_of alg))
  /\ (forall (u u' : U) (e : exn),
        run_algorithm alg u = (Raise e, u') ->
        exists st, st ∈ script_of alg /\ step_raises st e)
  /\ (forall ser : Serial,
        reliable ser -> never_raises (H := march_test.MRAMUART ser) (port ser)).
Proof.
  intros Hne. split; [|split].
  - intros Hnr u.
    destruct (routine_spied (run_algorithm alg) (script_of alg) u Hnr
                (run_algorithm_script alg Hne)) as (evs & u' & E & HF).
    exists evs, u'. split; [exact E|]. split; [exact HF|].
    symmetry. by eapply Forall2_length.
  - intros u u' e E.
    rewrite (run_algorithm_script alg Hne u) in E. unfold bind in E.
    destruct (run_script (script_of alg) [] u) as [[errs|x] u1] eqn:E1.
    + discriminate E.
    + injection E as -> ->. by eapply run_script_raise.
  - apply MRAMUART_never_raises.
Qed.

Lemma no_early_exit_witness :
  nonempty_range (MarchC 0 1) /\
  exists evs u',
    run_algorithm (H := spied_uart (H := march_test.MRAMUART sim_serial))
      (MarchC 0 1) (Spied sim_silent []) =
      (Return (is_empty (faults_of (script_of (MarchC 0 1)) evs),
               faults_of (script_of (MarchC 0 1)) evs),
       Spied u' evs)
    /\ Forall2 performs (script_of (MarchC 0 1)) evs
    /\ length evs = length (script_of (MarchC 0 1)).
Proof.
  assert (Hne : nonempty_range (MarchC 0 1)) by (cbn; lia).
  split; [exact Hne|].
  exact (proj1 (no_early_exit (H := march_test.MRAMUART sim_serial)
                  (MarchC 0 1) Hne)
           (MRAMUART_never_raises sim_serial sim_reliable) sim_silent).
Defined.

(** ** Range checks *)










(** The same through the command loop: a [w] command with an address or a
    word out of range prints its message, leaves the port untouched and the
    loop goes on. *)
Lemma run_command_write_rejected (ser : Serial)
    (py_int : string -> Z -> option Z) (py_strip py_lower : string -> string)
    (w a d : string) (addr data : Z) (p : port ser) :
  py_lower w = "w" \/ py_lower w = "write" ->
  mram_test.parse_number py_int py_strip a = Some addr ->
  mram_test.parse_number py_int py_strip d = Some data ->
  ~ (0 <= addr <= 0x3FFFF) \/ ~ (0 <= data <= 0xFFFF) ->
  exists l,
    mram_test.run_command ser py_int py_strip py_lower [w; a; d] p =
      (Return (l, true), p)
    /\ (l = mram_test.AddressOutOfRange \/ l = mram_test.DataOutOfRange).
Proof.
  intros Hw Ha Hd Hout.
  assert (E : exists l,
             mram_test.run_write ser py_int py_strip [w; a; d] p = (Return l, p)
             /\ (l = mram_test.AddressOutOfRange \/ l = mram_test.DataOutOfRange)).
  { unfold mram_test.run_write. rewrite Ha, Hd.
    destruct ((addr <? 0) || (addr >? 0x3FFFF)) eqn:Ea.
    { eexists. split; [reflexivity | by left]. }
    destruct ((data <? 0) || (data >? 0xFFFF)) eqn:Ed.
    { eexists. split; [reflexivity | by right]. }
    exfalso. lia. }
  destruct E as (l & El & Hl). exists l. split; [|exact Hl].
  unfold mram_test.run_command. cbv zeta.
  destruct Hw as [-> | ->].
  - change (mram_test.is_in "w" ["quit"; "exit"; "q"]) with false.
    change (mram_test.is_in "w" ["help"; "h"; "?"]) with false.
    change (mram_test.is_in "w" ["w"; "write"]) with true.
    cbv iota. unfold bind, mram_test.catching. by rewrite El.
  - change (mram_test.is_in "write" ["quit"; "exit"; "q"]) with false.
    change (mram_test.is_in "write" ["help"; "h"; "?"]) with false.
    change (mram_test.is_in "write" ["w"; "write"]) with true.
    cbv iota. unfold bind, mram_test.catching. by rewrite El.
Qed.


(** ** Timeouts *)

(** In [march_test.py] a read whose response does not arrive returns the
    integer [0xDEAD]. *)
Lemma read_mram_timeout (ser : Serial) (addr n : Z) (p p1 p2 p3 p4 : port ser) :
  ser_reset_input_buffer ser p = (Return tt, p1) ->
  ser_write ser (read_cmd addr) p1 = (Return tt, p2) ->
  time_sleep ser 20 p2 = (Return tt, p3) ->
  ser_in_waiting ser p3 = (Return n, p4) ->
  n < 2 ->
  march_test.read_mram ser addr p = (Return 0xDEAD, p4).
Proof.
  intros E1 E2 E3 E4 Hn. unfold march_test.read_mram, bind.
  rewrite E1, E2, E3, E4.
  destruct (Z.leb_spec 2 n); [lia | reflexivity].
Qed.

(** In [main.py] it returns [None]. *)
Lemma main_read_mram_timeout (ser : Serial) (addr n : Z)
    (p p1 p2 p3 p4 : port ser) :
  ser_reset_input_buffer ser p = (Return tt, p1) ->
  ser_write ser (read_cmd addr) p1 = (Return tt, p2) ->
  time_sleep ser 100 p2 = (Return tt, p3) ->
  ser_in_waiting ser p3 = (Return n, p4) ->
  n < 2 ->
  main.read_mram ser addr p = (Return None, p4).
Proof.
  intros E1 E2 E3 E4 Hn. unfold main.read_mram, bind.
  rewrite E1, E2, E3, E4.
  destruct (Z.leb_spec 2 n); [lia | reflexivity].
Qed.

(** C6, the code at the failing input: with a device that stays silent,
    [read_mram] of [march_test.py] returns [0xDEAD], the very value it
    returns for a device that answers with the stored word [0xDEAD]; the
    address-uniqueness test at address [0xDEAD], where [0xDEAD] is the
    value expected, then passes without a fault record although no read
    was answered.  [read_mram] of [main.py] returns [None] for the same
    silent device. *)
Theorem timeout_reads_as_dead_word :
  march_test.read_mram sim_serial 0x101 sim_silent = (Return 0xDEAD, sim_silent)
  /\ march_test.read_mram sim_serial 0x101 (SimPort {[0x101 := 0xDEAD]} [] true) =
       (Return 0xDEAD, SimPort {[0x101 := 0xDEAD]} [] true)
  /\ fst (march_test.address_uniqueness_test
            (H := march_test.MRAMUART sim_serial) 0xDEAD 0xDEAD sim_silent) =
       Return (true, [])
  /\ fst (march_test.address_uniqueness_test
            (H := march_test.MRAMUART sim_serial) 0xDEAC 0xDEAE sim_silent) =
       Return (false, [(0xDEAC, "AddressUnique", 0xDEAC, 0xDEAD);
                       (0xDEAE, "AddressUnique", 0xDEAE, 0xDEAD)])
  /\ main.read_mram sim_serial 0x101 sim_silent = (Return None, sim_silent).
Proof. repeat split; vm_compute; reflexivity. Qed.

(** With a silent device every read of March C times out, and every one of
    them is recorded: the run goes through all six phases. *)
Lemma march_c_silent_device :
  fst (march_test.march_c_test (H := march_test.MRAMUART sim_serial)
         0 1 sim_silent) =
  Return (false,
          [(0, "Phase2", 0x0000, 0xDEAD); (1, "Phase2", 0x0000, 0xDEAD);
           (0, "Phase3", 0xFFFF, 0xDEAD); (1, "Phase3", 0xFFFF, 0xDEAD);
           (1, "Phase4", 0x0000, 0xDEAD); (0, "Phase4", 0x0000, 0xDEAD);
           (1, "Phase5", 0xFFFF, 0xDEAD); (0, "Phase5", 0xFFFF, 0xDEAD);
           (0, "Phase6", 0x0000, 0xDEAD); (1, "Phase6", 0x0000, 0xDEAD)]).
Proof. vm_compute. reflexivity. Qed.

(** An empty range [end = start - 1] makes the progress bar divide by
    zero before anything is sent. *)
Lemma march_c_empty_range :
  march_test.march_c_test 1 0 (IdealMock ∅) = (Raise ZeroDivisionError, IdealMock ∅).
Proof. reflexivity. Qed.

(** ** Timed-out reads and empty ranges in a run *)

(** On a device that stays silent every [read_mram] of [march_test.py]
    times out: no byte is waiting after the command was sent, and the call
    returns [0xDEAD]. *)
Lemma read_mram_silent (addr : Z) (m : gmap Z Z) (pending : list Z) :
  march_test.read_mram sim_serial addr (SimPort m pending false) =
    (Return 0xDEAD, SimPort m [] false).
Proof. reflexivity. Qed.

(** C9, the code at the failing inputs.  The device stays silent, so no
    read is answered.  The address-uniqueness run over the one address
    [0xDEAD] carries out both steps of its script, its read times out (no
    byte is waiting after the read command), and the run returns
    [(True, [])]: no fault record stands for the failing step.  The same
    happens at [0x1DEAD].  In the session of [main] over that range the
    eight reads all time out and [all_errors] holds seven records, none
    from the address-uniqueness test.  And with [end = start - 1] each
    ranged routine unwinds with [ZeroDivisionError] on a device that
    answers, before any call to the uart: nothing failed on the line. *)
Theorem timeout_loses_fault_record :
  let uart := march_test.MRAMUART sim_serial in
  let written := SimPort {[0xDEAD := 0xDEAD]} [] false in
  script_of (AddressUniqueness 0xDEAD 0xDEAD) =
    [StWrite 0xDEAD 0xDEAD; StRead 0xDEAD 0xDEAD "AddressUnique"]
  /\ run_algorithm (H := spied_uart (H := uart))
       (AddressUniqueness 0xDEAD 0xDEAD) (Spied sim_silent []) =
       (Return (true, []),
        Spied written [EvWrite 0xDEAD 0xDEAD; EvRead 0xDEAD 0xDEAD])
  /\ ser_write sim_serial (read_cmd 0xDEAD) written = (Return tt, written)
  /\ ser_in_waiting sim_serial written = (Return 0, written)
  /\ (forall (addr : Z) (m : gmap Z Z) (pending : list Z),
        march_test.read_mram sim_serial addr (SimPort m pending false) =
          (Return 0xDEAD, SimPort m [] false))
  /\ run_algorithm (H := spied_uart (H := uart))
       (AddressUniqueness 0x1DEAD 0x1DEAD) (Spied sim_silent []) =
       (Return (true, []),
        Spied (SimPort {[0x1DEAD := 0xDEAD]} [] false)
              [EvWrite 0x1DEAD 0xDEAD; EvRead 0x1DEAD 0xDEAD])
  /\ march_main.run_range_tests (H := spied_uart (H := uart))
       0xDEAD 0xDEAD (Spied sim_silent []) =
       (Return [(0xDEAD, "Phase2", 0x0000, 0xDEAD);
                (0xDEAD, "Phase3", 0xFFFF, 0xDEAD);
                (0xDEAD, "Phase4", 0x0000, 0xDEAD);
                (0xDEAD, "Phase5", 0xFFFF, 0xDEAD);
                (0xDEAD, "Phase6", 0x0000, 0xDEAD);
                (0xDEAD, "Checkerboard", 0xAAAA, 0xDEAD);
                (0xDEAD, "InvCheckerboard", 0x5555, 0xDEAD)],
        Spied written
          [EvWrite 0xDEAD 0x0000; EvRead 0xDEAD 0xDEAD;
           EvWrite 0xDEAD 0xFFFF; EvRead 0xDEAD 0xDEAD;
           EvWrite 0xDEAD 0x0000; EvRead 0xDEAD 0xDEAD;
           EvWrite 0xDEAD 0xFFFF; EvRead 0xDEAD 0xDEAD;
           EvWrite 0xDEAD 0x0000; EvRead 0xDEAD 0xDEAD;
           EvWrite 0xDEAD 0xAAAA; EvRead 0xDEAD 0xDEAD;
           EvWrite 0xDEAD 0x5555; EvRead 0xDEAD 0xDEAD;
           EvWrite 0xDEAD 0xDEAD; EvRead 0xDEAD 0xDEAD])
  /\ run_algorithm (H := spied_uart (H := uart))
       (MarchC 1 0) (Spied sim_alive []) =
       (Raise ZeroDivisionError, Spied sim_alive [])
  /\ run_algorithm (H := spied_uart (H := uart))
       (Checkerboard 1 0) (Spied sim_alive []) =
       (Raise ZeroDivisionError, Spied sim_alive [])
  /\ run_algorithm (H := spied_uart (H := uart))
       (AddressUniqueness 1 0) (Spied sim_alive []) =
       (Raise ZeroDivisionError, Spied sim_alive []).
Proof.
  cbv zeta.
  split; [reflexivity|]. split; [vm_compute; reflexivity|].
  split; [reflexivity|]. split; [reflexivity|].
  split; [exact read_mram_silent|].
  split; [vm_compute; reflexivity|]. split; [vm_compute; reflexivity|].
  split; [reflexivity|]. split; reflexivity.
Qed.

(** * Further properties of the scripts *)

(** ** Degenerate ranges *)

Lemma py_range_empty (lo hi : Z) : hi <= lo -> py_range lo hi = [].
Proof. intros Hle. unfold py_range. apply seqZ_nil. lia. Qed.

Lemma py_range_down_empty (hi lo : Z) : hi <= lo -> py_range_down hi lo = [].
Proof. intros Hle. unfold py_range_down. rewrite seqZ_nil by lia. reflexivity. Qed.

Lemma progress_bar_total {S} (total : Z) (s : S) :
  march_test.progress_bar total total s =
  (if total =? 0 then Raise ZeroDivisionError else Return tt, s).
Proof. unfold march_test.progress_bar. by destruct (total =? 0). Qed.

(** X1: the three ranged routines on a range with [end < start]: nothing is
    sent; when [end = start - 1] the progress bar divides by zero, and for
    any lower [end] the routine reports success. *)
Theorem ranged_tests_empty_range {U : Type} `{Uart U}
    (start_addr end_addr : Z) (u : U) :
  end_addr < start_addr ->
  march_test.march_c_test start_addr end_addr u =
    (if end_addr =? start_addr - 1 then Raise ZeroDivisionError
     else Return (true, []), u)
  /\ march_test.checkerboard_test start_addr end_addr u =
       (if end_addr =? start_addr - 1 then Raise ZeroDivisionError
        else Return (true, []), u)
  /\ march_test.address_uniqueness_test start_addr end_addr u =
       (if end_addr =? start_addr - 1 then Raise ZeroDivisionError
        else Return (true, []), u).
Proof.
  intros Hlt.
  assert (E : (end_addr - start_addr + 1 =? 0) = (end_addr =? start_addr - 1)).
  { destruct (Z.eqb_spec end_addr (start_addr - 1));
      [apply Z.eqb_eq | apply Z.eqb_neq]; lia. }
  unfold march_test.march_c_test, march_test.checkerboard_test,
    march_test.address_uniqueness_test.
  cbv zeta.
  rewrite (py_range_empty start_addr (end_addr + 1)) by lia.
  rewrite (py_range_down_empty end_addr (start_addr - 1)) by lia.
  cbn [enumerate enumerate_from for_ for_each]. unfold bind.
  cbn [ret]. rewrite !progress_bar_total, E.
  destruct (end_addr =? start_addr - 1); repeat split; reflexivity.
Qed.

Lemma ranged_tests_empty_range_witness :
  0 < 1 /\
  march_test.march_c_test 1 0 (IdealMock ∅) =
    (Raise ZeroDivisionError, IdealMock ∅)
  /\ 0 < 5 /\
  march_test.march_c_test 5 0 (IdealMock ∅) = (Return (true, []), IdealMock ∅).
Proof.
  assert (H1 : 0 < 1) by lia. assert (H5 : 0 < 5) by lia.
  split; [exact H1|]. split.
  - exact (proj1 (ranged_tests_empty_range 1 0 (IdealMock ∅) H1)).
  - split; [exact H5|].
    exact (proj1 (ranged_tests_empty_range 5 0 (IdealMock ∅) H5)).
Defined.

(** ** The routines on a memory: verdict and content left behind *)

Section MemoryTests.
Context {U : Type} `{Uart U}.
Context (Inv : U -> Prop) (Dom W : Z -> Prop) (peek : U -> Z -> Z).
Context (ML : memory_like Inv Dom W peek).

Lemma ml_write_phase_each (l : list Z) (f : Z -> Z) (errors : list fault)
    (u : U) :
  Inv u -> Forall Dom l -> Forall (fun a => W (f a)) l -> NoDup l ->
  exists u',
    run_script (phase l (fun a => [StWrite a (f a)])) errors u =
      (Return errors, u')
    /\ Inv u'
    /\ (forall a, a ∈ l -> peek u' a = f a)
    /\ (forall a, Dom a -> a ∉ l -> peek u' a = peek u a).
Proof.
  intros HI HD HW HN. revert u HI.
  induction l as [|x l IH]; intros u HI.
  - exists u. split; [reflexivity|]. split; [done|].
    split; [by intros a ?%elem_of_nil | done].
  - apply Forall_cons in HD as [Hx HD]. apply Forall_cons in HW as [Wx HW].
    apply NoDup_cons in HN as [Hxl HN].
    destruct (ml_write _ _ _ _ ML x (f x) u HI Hx Wx)
      as (b & u1 & E1 & I1 & P1 & Q1).
    destruct (IH HD HW HN u1 I1) as (u' & E & I' & P' & Q').
    exists u'. unfold phase in *. rewrite bind_cons. cbn [app run_script].
    unfold bind at 1. rewrite E1. split; [exact E|]. split; [exact I'|]. split.
    + intros a [->|Ha]%elem_of_cons; [|by apply P'].
      by rewrite Q'.
    + intros a Ha Hn. apply not_elem_of_cons in Hn as [Hne Hn].
      rewrite Q' by done. by apply Q1.
Qed.

Lemma ml_read_phase_each (l : list Z) (f : Z -> Z) (tag : string)
    (errors : list fault) (u : U) :
  Inv u -> Forall Dom l ->
  (forall a, a ∈ l -> peek u a = f a) ->
  exists u',
    run_script (phase l (fun a => [StRead a (f a) tag])) errors u =
      (Return errors, u')
    /\ Inv u'
    /\ (forall a, Dom a -> peek u' a = peek u a).
Proof.
  intros HI HD. revert u HI.
  induction HD as [|x l Hx HD IH]; intros u HI He.
  - exists u. split; [reflexivity|]. by split.
  - destruct (ml_read _ _ _ _ ML x u HI Hx) as (u0 & E0 & I0 & Q0).
    destruct (IH u0 I0) as (u' & E & I' & Q').
    { intros a Ha. rewrite Q0 by by eapply Forall_forall in HD.
      apply He. by apply list_elem_of_further. }
    exists u'. unfold phase in *. rewrite bind_cons. cbn [app run_script].
    unfold bind at 1. rewrite E0.
    rewrite (He x) by apply list_elem_of_here. rewrite check_match.
    split; [exact E|]. split; [exact I'|].
    intros a Ha. by rewrite Q', Q0.
Qed.

Lemma march_c_leaves_zeros_aux (start_addr end_addr : Z) (u : U) :
  Inv u -> start_addr <= end_addr ->
  (forall a, start_addr <= a <= end_addr -> Dom a) ->
  W 0x0000 -> W 0xFFFF ->
  exists u',
    march_test.march_c_test start_addr end_addr u = (Return (true, []), u')
    /\ Inv u'
    /\ (forall a, start_addr <= a <= end_addr -> peek u' a = 0x0000)
    /\ (forall a, Dom a -> ~ (start_addr <= a <= end_addr) ->
          peek u' a = peek u a).
Proof.
  intros HI Hle HD W0 W1.
  assert (Hup : Forall Dom (ascending start_addr end_addr)).
  { apply Forall_forall. intros a Ha%elem_of_ascending. by apply HD. }
  assert (Hdown : Forall Dom (descending start_addr end_addr)).
  { apply Forall_forall. intros a Ha%elem_of_descending. by apply HD. }
  pose proof (NoDup_ascending start_addr end_addr) as Nup.
  pose proof (NoDup_descending start_addr end_addr) as Ndown.
  assert (Hud : forall a, a ∈ descending start_addr end_addr <->
                          a ∈ ascending start_addr end_addr).
  { intros a. by rewrite elem_of_descending, elem_of_ascending. }
  destruct (ml_write_phase _ _ _ _ ML _ 0x0000 [] u HI Hup W0)
    as (u1 & E1 & I1 & P1 & Q1).
  destruct (ml_read_write_phase _ _ _ _ ML _ 0x0000 0xFFFF "Phase2" [] u1
              I1 Hup W1 Nup P1) as (u2 & E2 & I2 & P2 & Q2).
  destruct (ml_read_write_phase _ _ _ _ ML _ 0xFFFF 0x0000 "Phase3" [] u2
              I2 Hup W0 Nup P2) as (u3 & E3 & I3 & P3 & Q3).
  destruct (ml_read_write_phase _ _ _ _ ML _ 0x0000 0xFFFF "Phase4" [] u3
              I3 Hdown W1 Ndown) as (u4 & E4 & I4 & P4 & Q4).
  { intros a Ha. apply P3. by apply Hud. }
  destruct (ml_read_write_phase _ _ _ _ ML _ 0xFFFF 0x0000 "Phase5" [] u4
              I4 Hdown W0 Ndown P4) as (u5 & E5 & I5 & P5 & Q5).
  destruct (ml_read_phase _ _ _ _ ML _ 0x0000 "Phase6" [] u5 I5 Hup)
    as (u6 & E6 & I6 & Q6).
  { intros a Ha. apply P5. by apply Hud. }
  exists u6. split; [|split; [exact I6|split]].
  - rewrite (march_c_test_script start_addr end_addr Hle u).
    unfold bind, spec_march_c. cbv zeta.
    rewrite (run_script_app_ok _ _ _ _ _ _ E1), (run_script_app_ok _ _ _ _ _ _ E2),
      (run_script_app_ok _ _ _ _ _ _ E3), (run_script_app_ok _ _ _ _ _ _ E4),
      (run_script_app_ok _ _ _ _ _ _ E5), E6.
    reflexivity.
  - intros a Ha. rewrite Q6 by by apply HD.
    apply P5. by apply elem_of_descending.
  - intros a Ha Hout.
    assert (Hnu : a ∉ ascending start_addr end_addr)
      by by rewrite elem_of_ascending.
    assert (Hnd : a ∉ descending start_addr end_addr)
      by by rewrite elem_of_descending.
    by rewrite Q6, Q5, Q4, Q3, Q2, Q1.
Qed.

(** X2: March C is destructive: it passes on a memory, leaves [0x0000] at every
    address of the range and does not change any other address. *)
Theorem march_c_leaves_zeros (start_addr end_addr : Z) (u : U) :
  Inv u -> start_addr <= end_addr ->
  (forall a, start_addr <= a <= end_addr -> Dom a) ->
  W 0x0000 -> W 0xFFFF ->
  exists u',
    march_test.march_c_test start_addr end_addr u = (Return (true, []), u')
    /\ Inv u'
    /\ (forall a, start_addr <= a <= end_addr -> peek u' a = 0x0000)
    /\ (forall a, Dom a -> ~ (start_addr <= a <= end_addr) ->
          peek u' a = peek u a).
Proof. exact (march_c_leaves_zeros_aux start_addr end_addr u). Qed.

Lemma checkerboard_on_memory_aux (start_addr end_addr : Z) (u : U) :
  Inv u -> start_addr <= end_addr ->
  (forall a, start_addr <= a <= end_addr -> Dom a) ->
  W 0xAAAA -> W 0x5555 ->
  exists u',
    march_test.checkerboard_test start_addr end_addr u = (Return (true, []), u')
    /\ Inv u'
    /\ (forall a, start_addr <= a <= end_addr ->
          peek u' a = inverse_board start_addr a)
    /\ (forall a, Dom a -> ~ (start_addr <= a <= end_addr) ->
          peek u' a = peek u a).
Proof.
  intros HI Hle HD WA W5.
  assert (Hup : Forall Dom (ascending start_addr end_addr)).
  { apply Forall_forall. intros a Ha%elem_of_ascending. by apply HD. }
  pose proof (NoDup_ascending start_addr end_addr) as Nup.
  assert (HWb : Forall (fun a => W (board start_addr a))
                  (ascending start_addr end_addr)).
  { apply Forall_forall. intros a _.
    by destruct (board_cases start_addr a) as [[-> _]|[-> _]]. }
  assert (HWi : Forall (fun a => W (inverse_board start_addr a))
                  (ascending start_addr end_addr)).
  { apply Forall_forall. intros a _.
    by destruct (board_cases start_addr a) as [[_ ->]|[_ ->]]. }
  destruct (ml_write_phase_each _ (board start_addr) [] u HI Hup HWb Nup)
    as (u1 & E1 & I1 & P1 & Q1).
  destruct (ml_read_phase_each _ (board start_addr) "Checkerboard" [] u1
              I1 Hup P1) as (u2 & E2 & I2 & Q2).
  destruct (ml_write_phase_each _ (inverse_board start_addr) [] u2 I2 Hup HWi Nup)
    as (u3 & E3 & I3 & P3 & Q3).
  destruct (ml_read_phase_each _ (inverse_board start_addr) "InvCheckerboard"
              [] u3 I3 Hup P3) as (u4 & E4 & I4 & Q4).
  exists u4. split; [|split; [exact I4|split]].
  - rewrite (checkerboard_test_script start_addr end_addr Hle u).
    unfold bind, spec_checkerboard. cbv zeta.
    rewrite (run_script_app_ok _ _ _ _ _ _ E1), (run_script_app_ok _ _ _ _ _ _ E2),
      (run_script_app_ok _ _ _ _ _ _ E3), E4.
    reflexivity.
  - intros a Ha. rewrite Q4 by by apply HD.
    apply P3. by apply elem_of_ascending.
  - intros a Ha Hout.
    assert (Hnu : a ∉ ascending start_addr end_addr)
      by by rewrite elem_of_ascending.
    by rewrite Q4, Q3, Q2, Q1.
Qed.

(** X5: the checkerboard test passes on a memory and leaves the inverse
    checkerboard in the range. *)
Theorem checkerboard_on_memory (start_addr end_addr : Z) (u : U) :
  Inv u -> start_addr <= end_addr ->
  (forall a, start_addr <= a <= end_addr -> Dom a) ->
  W 0xAAAA -> W 0x5555 ->
  exists u',
    march_test.checkerboard_test start_addr end_addr u = (Return (true, []), u')
    /\ Inv u'
    /\ (forall a, start_addr <= a <= end_addr ->
          peek u' a = inverse_board start_addr a)
    /\ (forall a, Dom a -> ~ (start_addr <= a <= end_addr) ->
          peek u' a = peek u a).
Proof. exact (checkerboard_on_memory_aux start_addr end_addr u). Qed.

Lemma address_uniqueness_on_memory_aux (start_addr end_addr : Z) (u : U) :
  Inv u -> start_addr <= end_addr ->
  (forall a, start_addr <= a <= end_addr -> Dom a) ->
  (forall a, W (Z.land a 0xFFFF)) ->
  exists u',
    march_test.address_uniqueness_test start_addr end_addr u =
      (Return (true, []), u')
    /\ Inv u'
    /\ (forall a, start_addr <= a <= end_addr -> peek u' a = Z.land a 0xFFFF)
    /\ (forall a, Dom a -> ~ (start_addr <= a <= end_addr) ->
          peek u' a = peek u a).
Proof.
  intros HI Hle HD HW.
  assert (Hup : Forall Dom (ascending start_addr end_addr)).
  { apply Forall_forall. intros a Ha%elem_of_ascending. by apply HD. }
  pose proof (NoDup_ascending start_addr end_addr) as Nup.
  assert (HWl : Forall (fun a => W (Z.land a 0xFFFF))
                  (ascending start_addr end_addr)).
  { apply Forall_forall. intros a _. apply HW. }
  destruct (ml_write_phase_each _ (fun a => Z.land a 0xFFFF) [] u HI Hup HWl Nup)
    as (u1 & E1 & I1 & P1 & Q1).
  destruct (ml_read_phase_each _ (fun a => Z.land a 0xFFFF) "AddressUnique"
              [] u1 I1 Hup P1) as (u2 & E2 & I2 & Q2).
  exists u2. split; [|split; [exact I2|split]].
  - rewrite (address_uniqueness_test_script start_addr end_addr Hle u).
    unfold bind, spec_address_uniqueness. cbv zeta.
    rewrite (run_script_app_ok _ _ _ _ _ _ E1), E2.
    reflexivity.
  - intros a Ha. rewrite Q2 by by apply HD.
    apply P1. by apply elem_of_ascending.
  - intros a Ha Hout.
    assert (Hnu : a ∉ ascending start_addr end_addr)
      by by rewrite elem_of_ascending.
    by rewrite Q2, Q1.
Qed.

(** X6: the address-uniqueness test passes on a memory and leaves the low 16
    bits of its address in every word of the range. *)
Theorem address_uniqueness_on_memory (start_addr end_addr : Z) (u : U) :
  Inv u -> start_addr <= end_addr ->
  (forall a, start_addr <= a <= end_addr -> Dom a) ->
  (forall a, W (Z.land a 0xFFFF)) ->
  exists u',
    march_test.address_uniqueness_test start_addr end_addr u =
      (Return (true, []), u')
    /\ Inv u'
    /\ (forall a, start_addr <= a <= end_addr -> peek u' a = Z.land a 0xFFFF)
    /\ (forall a, Dom a -> ~ (start_addr <= a <= end_addr) ->
          peek u' a = peek u a).
Proof. exact (address_uniqueness_on_memory_aux start_addr end_addr u). Qed.
End MemoryTests.

Lemma bind_singleton_fmap {A B} (h : A -> B) (l : list A) :
  l ≫= (fun x => [h x]) = h <$> l.
Proof.
  induction l as [|x l IH]; [reflexivity|].
  rewrite bind_cons, fmap_cons, IH. reflexivity.
Qed.

Lemma spec_walking_phases (pattern : Z -> Z) (tag : string) (start_addr : Z) :
  spec_walking pattern tag start_addr =
  phase (seqZ start_addr 16) (fun a => [StWrite a (pattern (a - start_addr))])
  ++ phase (seqZ start_addr 16)
       (fun a => [StRead a (pattern (a - start_addr)) tag]).
Proof.
  unfold spec_walking, phase.
  replace (seqZ start_addr 16) with (Z.add start_addr <$> seqZ 0 16)
    by (rewrite fmap_add_seqZ; f_equal; lia).
  rewrite !bind_singleton_fmap, <- !list_fmap_compose. f_equal.
  - apply list_fmap_ext. intros _ i _. cbn. do 2 f_equal. lia.
  - apply list_fmap_ext. intros _ i _. cbn. do 2 f_equal. lia.
Qed.

Lemma walking_patterns_words (i : Z) :
  0 <= i < 16 ->
  0 <= one_hot i <= 0xFFFF /\ 0 <= one_cold i <= 0xFFFF
  /\ one_hot i = Z.shiftl 1 i /\ one_cold i = 0xFFFF - Z.shiftl 1 i.
Proof.
  intros Hi. revert i Hi. apply (Forall_seqZ _ 0 16).
  apply (bool_decide_unpack _). vm_compute. exact I.
Qed.

Section MemoryWalking.
Context {U : Type} `{Uart U}.
Context (Inv : U -> Prop) (Dom W : Z -> Prop) (peek : U -> Z -> Z).
Context (ML : memory_like Inv Dom W peek).

Lemma walking_script_on_memory (pattern : Z -> Z) (tag : string)
    (start_addr : Z) (u : U) :
  Inv u ->
  (forall a, start_addr <= a < start_addr + 16 -> Dom a) ->
  (forall i, 0 <= i < 16 -> W (pattern i)) ->
  exists u',
    run_script (spec_walking pattern tag start_addr) [] u = (Return [], u')
    /\ Inv u'
    /\ (forall i, 0 <= i < 16 -> peek u' (start_addr + i) = pattern i)
    /\ (forall a, Dom a -> ~ (start_addr <= a < start_addr + 16) ->
          peek u' a = peek u a).
Proof.
  intros HI HD HW.
  assert (Hl : Forall Dom (seqZ start_addr 16)).
  { apply Forall_forall. intros a Ha%elem_of_seqZ. by apply HD. }
  assert (HWl : Forall (fun a => W (pattern (a - start_addr)))
                  (seqZ start_addr 16)).
  { apply Forall_forall. intros a Ha%elem_of_seqZ. apply HW. lia. }
  destruct (ml_write_phase_each _ _ _ _ ML _ (fun a => pattern (a - start_addr))
              [] u HI Hl HWl (NoDup_seqZ _ _)) as (u1 & E1 & I1 & P1 & Q1).
  destruct (ml_read_phase_each _ _ _ _ ML _ (fun a => pattern (a - start_addr))
              tag [] u1 I1 Hl P1) as (u2 & E2 & I2 & Q2).
  exists u2. split; [|split; [exact I2|split]].
  - by rewrite spec_walking_phases, (run_script_app_ok _ _ _ _ _ _ E1).
  - intros i Hi. rewrite Q2 by (apply HD; lia).
    rewrite P1 by (apply elem_of_seqZ; lia). f_equal. lia.
  - intros a Ha Hout.
    assert (Hn : a ∉ seqZ start_addr 16) by (rewrite elem_of_seqZ; lia).
    by rewrite Q2, Q1.
Qed.

Lemma walking_tests_on_memory_aux (start_addr count : Z) (u : U) :
  Inv u ->
  (forall a, start_addr <= a < start_addr + 16 -> Dom a) ->
  (forall w, 0 <= w <= 0xFFFF -> W w) ->
  (exists u',
      march_test.walking_ones_test start_addr count u = (Return (true, []), u')
      /\ Inv u'
      /\ (forall i, 0 <= i < 16 -> peek u' (start_addr + i) = Z.shiftl 1 i)
      /\ (forall a, Dom a -> ~ (start_addr <= a < start_addr + 16) ->
            peek u' a = peek u a))
  /\ (exists u',
      march_test.walking_zeros_test start_addr count u = (Return (true, []), u')
      /\ Inv u'
      /\ (forall i, 0 <= i < 16 ->
            peek u' (start_addr + i) = 0xFFFF - Z.shiftl 1 i)
      /\ (forall a, Dom a -> ~ (start_addr <= a < start_addr + 16) ->
            peek u' a = peek u a)).
Proof.
  intros HI HD HW. split.
  - destruct (walking_script_on_memory one_hot "Walking1s" start_addr u HI HD)
      as (u' & E & I' & P & Q).
    { intros i Hi. apply HW. apply (walking_patterns_words i Hi). }
    exists u'. split; [|split; [exact I'|split; [|exact Q]]].
    + rewrite (walking_ones_test_script start_addr count u). unfold bind.
      by rewrite E.
    + intros i Hi. rewrite (P i Hi).
      apply (walking_patterns_words i Hi).
  - destruct (walking_script_on_memory one_cold "Walking0s" start_addr u HI HD)
      as (u' & E & I' & P & Q).
    { intros i Hi. apply HW. apply (walking_patterns_words i Hi). }
    exists u'. split; [|split; [exact I'|split; [|exact Q]]].
    + rewrite (walking_zeros_test_script start_addr count u). unfold bind.
      by rewrite E.
    + intros i Hi. rewrite (P i Hi).
      apply (walking_patterns_words i Hi).
Qed.

(** X8: the walking tests pass on a memory, whatever [count] is, and leave
    their sixteen patterns at [start .. start+15]. *)
Theorem walking_tests_on_memory (start_addr count : Z) (u : U) :
  Inv u ->
  (forall a, start_addr <= a < start_addr + 16 -> Dom a) ->
  (forall w, 0 <= w <= 0xFFFF -> W w) ->
  (exists u',
      march_test.walking_ones_test start_addr count u = (Return (true, []), u')
      /\ Inv u'
      /\ (forall i, 0 <= i < 16 -> peek u' (start_addr + i) = Z.shiftl 1 i)
      /\ (forall a, Dom a -> ~ (start_addr <= a < start_addr + 16) ->
            peek u' a = peek u a))
  /\ (exists u',
      march_test.walking_zeros_test start_addr count u = (Return (true, []), u')
      /\ Inv u'
      /\ (forall i, 0 <= i < 16 ->
            peek u' (start_addr + i) = 0xFFFF - Z.shiftl 1 i)
      /\ (forall a, Dom a -> ~ (start_addr <= a < start_addr + 16) ->
            peek u' a = peek u a)).
Proof. exact (walking_tests_on_memory_aux start_addr count u). Qed.
End MemoryWalking.

(** ** What March C detects *)

Section Detection.
Context {U : Type} `{Uart U}.

(** The reads recorded are reads the uart made. *)
Lemma run_script_spied_reads (script : list step) :
  never_raises U ->
  forall (errors : list fault) (s : spied U),
  exists evs u',
    run_script script errors s =
      (Return (errors ++ faults_of script evs), Spied u' (calls s ++ evs))
    /\ Forall2 performs script evs
    /\ Forall read_event_from evs.
Proof.
  intros [Hw Hr]. induction script as [|[a w|a e t] script IH];
    intros errors [u log].
  - exists [], u. split; [|split; constructor].
    cbn. by rewrite !app_nil_r.
  - destruct (Hw a w u) as (b & u1 & E1).
    destruct (IH errors (Spied u1 (log ++ [EvWrite a w])))
      as (evs & u' & E & HF & HR).
    exists (EvWrite a w :: evs), u'.
    split; [|split; [by repeat constructor | by constructor]].
    cbn [run_script]. unfold bind at 1.
    cbn [call_write_mram spied_uart]. unfold spied_write_mram.
    cbn [inner calls]. rewrite E1, E. cbn [calls faults_of].
    by rewrite <- app_assoc.
  - destruct (Hr a u) as (d & u1 & E1).
    destruct (IH (march_test.check errors a t e d)
                (Spied u1 (log ++ [EvRead a d]))) as (evs & u' & E & HF & HR).
    exists (EvRead a d :: evs), u'.
    split; [|split; [by repeat constructor|]].
    + cbn [run_script]. unfold bind at 1.
      cbn [call_read_mram spied_uart]. unfold spied_read_mram.
      cbn [inner calls]. rewrite E1, E. cbn [calls faults_of].
      by rewrite check_app, <- !app_assoc.
    + constructor; [|exact HR]. by exists u, u1.
Qed.

(** A read step whose address always reads [word], with another value
    expected, leaves its fault record. *)
Lemma faults_of_constant_read (script : list step) (evs : list event)
    (a e word : Z) (tag : string) :
  Forall2 performs script evs ->
  Forall read_event_from evs ->
  reads_constant a word ->
  StRead a e tag ∈ script ->
  word <> e ->
  (a, tag, e, word) ∈ faults_of script evs.
Proof.
  intros HF HR Hc Hin Hne. induction HF as [|st ev script evs Hp HF IH].
  - by apply elem_of_nil in Hin.
  - apply Forall_cons in HR as [Hev HR].
    apply elem_of_cons in Hin as [<-|Hin].
    + inversion Hp as [|a' e' t' d]; subst. cbn [faults_of].
      destruct Hev as (u & u' & Hev). apply Hc in Hev as ->.
      destruct (Z.eqb_spec word e); [contradiction|].
      apply elem_of_app. left. apply list_elem_of_here.
    + specialize (IH HR Hin).
      destruct Hp; cbn [faults_of]; [exact IH|].
      apply elem_of_app. by right.
Qed.

Lemma elem_of_phase (l : list Z) (body : Z -> list step) (st : step) (a : Z) :
  a ∈ l -> st ∈ body a -> st ∈ phase l body.
Proof. intros Ha Hst. unfold phase. apply list_elem_of_bind. eauto. Qed.

(** X3: March C reports a stuck cell: if an address of the range reads the
    same word whatever was written, the verdict is [False] and the errors
    hold a record for that address, from phase 2 when the word is not
    [0x0000] and from phase 3 when it is not [0xFFFF]. *)
Theorem march_c_detects_stuck_cell (start_addr end_addr a word : Z) (u : U) :
  never_raises U ->
  reads_constant a word ->
  start_addr <= a <= end_addr ->
  exists errors s',
    march_test.march_c_test start_addr end_addr (Spied u []) =
      (Return (false, errors), s')
    /\ (word <> 0x0000 -> (a, "Phase2", 0x0000, word) ∈ errors)
    /\ (word <> 0xFFFF -> (a, "Phase3", 0xFFFF, word) ∈ errors).
Proof.
  intros Hnr Hc Ha.
  assert (Hle : start_addr <= end_addr) by lia.
  destruct (run_script_spied_reads (spec_march_c start_addr end_addr) Hnr []
              (Spied u [])) as (evs & u' & E & HF & HR).
  set (errors := faults_of (spec_march_c start_addr end_addr) evs) in *.
  assert (Hup : a ∈ ascending start_addr end_addr) by by apply elem_of_ascending.
  assert (H2 : word <> 0x0000 -> (a, "Phase2", 0x0000, word) ∈ errors).
  { intros Hne. apply (faults_of_constant_read _ _ _ _ _ _ HF HR Hc); [|exact Hne].
    unfold spec_march_c. cbv zeta. rewrite !elem_of_app. right. left.
    apply (elem_of_phase _ _ _ a Hup). apply list_elem_of_here. }
  assert (H3 : word <> 0xFFFF -> (a, "Phase3", 0xFFFF, word) ∈ errors).
  { intros Hne. apply (faults_of_constant_read _ _ _ _ _ _ HF HR Hc); [|exact Hne].
    unfold spec_march_c. cbv zeta. rewrite !elem_of_app. right. right. left.
    apply (elem_of_phase _ _ _ a Hup). apply list_elem_of_here. }
  exists errors, (Spied u' evs). split; [|split; [exact H2 | exact H3]].
  rewrite (march_c_test_script start_addr end_addr Hle (Spied u [])).
  unfold bind. rewrite E. cbn [app calls]. unfold verdict, ret.
  destruct errors as [|f errors'] eqn:Eerr; [|reflexivity].
  exfalso. destruct (decide (word = 0x0000)) as [->|Hne].
  - assert (Hx : (0 : Z) <> 0xFFFF) by lia.
    apply H3 in Hx. by apply elem_of_nil in Hx.
  - apply H2 in Hne. by apply elem_of_nil in Hne.
Qed.
End Detection.

Lemma stuck_never_raises (a word : Z) :
  never_raises (H := stuck_uart a word) ideal_mock.
Proof.
  split.
  - intros addr data u. by eexists _, _.
  - intros addr u. cbn. unfold stuck_read_mram.
    destruct (addr =? a); by eexists _, _.
Qed.

Lemma stuck_reads_constant (a word : Z) :
  reads_constant (H := stuck_uart a word) a word.
Proof.
  intros u u' d. cbn. unfold stuck_read_mram. rewrite Z.eqb_refl.
  by intros [= -> _].
Qed.

Lemma march_c_detects_stuck_cell_witness :
  never_raises (H := stuck_uart 2 0x0000) ideal_mock
  /\ reads_constant (H := stuck_uart 2 0x0000) 2 0x0000
  /\ 0 <= 2 <= 3
  /\ exists errors s',
       march_test.march_c_test (H := spied_uart (H := stuck_uart 2 0x0000))
         0 3 (Spied (IdealMock ∅) []) = (Return (false, errors), s')
       /\ (0x0000 <> 0x0000 -> (2, "Phase2", 0x0000, 0x0000) ∈ errors)
       /\ (0x0000 <> 0xFFFF -> (2, "Phase3", 0xFFFF, 0x0000) ∈ errors).
Proof.
  assert (Hr : 0 <= 2 <= 3) by lia.
  split; [apply stuck_never_raises|]. split; [apply stuck_reads_constant|].
  split; [exact Hr|].
  exact (march_c_detects_stuck_cell (H := stuck_uart 2 0x0000) 0 3 2 0x0000
           (IdealMock ∅) (stuck_never_raises 2 0x0000)
           (stuck_reads_constant 2 0x0000) Hr).
Defined.

(** ** What the address-uniqueness test cannot see *)

Lemma wrapped_write_phase (l : list Z) (errors : list fault) (m : gmap Z Z) :
  exists m',
    run_script (H := wrapped_uart)
      (phase l (fun a => [StWrite a (Z.land a 0xFFFF)])) errors (IdealMock m) =
      (Return errors, IdealMock m')
    /\ (forall a, a ∈ l -> m' !! (a mod 2 ^ 16) = Some (a mod 2 ^ 16))
    /\ (forall k, k ∉ ((fun a => a mod 2 ^ 16) <$> l) -> m' !! k = m !! k).
Proof.
  revert m. induction l as [|x l IH]; intros m.
  - exists m. split; [reflexivity|]. split; [by intros a ?%elem_of_nil | done].
  - destruct (IH (<[x mod 2 ^ 16 := Z.land x 0xFFFF]> m)) as (m' & E & P & Q).
    exists m'. split; [|split].
    + unfold phase in *. rewrite bind_cons. cbn [app run_script].
      unfold bind at 1. exact E.
    + intros a [->|Ha]%elem_of_cons; [|by apply P].
      destruct (decide (x mod 2 ^ 16 ∈ (fun a => a mod 2 ^ 16) <$> l))
        as [Hin|Hout].
      * apply list_elem_of_fmap in Hin as (y & -> & Hy). by apply P.
      * rewrite (Q _ Hout), lookup_insert_eq. f_equal.
        change 0xFFFF with (Z.ones 16). apply Z.land_ones. lia.
    + intros k Hk. rewrite fmap_cons in Hk.
      apply not_elem_of_cons in Hk as [Hne Hk].
      rewrite (Q _ Hk). by rewrite lookup_insert_ne.
Qed.

Lemma wrapped_read_phase (l : list Z) (errors : list fault) (m : gmap Z Z) :
  (forall a, a ∈ l -> m !! (a mod 2 ^ 16) = Some (a mod 2 ^ 16)) ->
  run_script (H := wrapped_uart)
    (phase l (fun a => [StRead a (Z.land a 0xFFFF) "AddressUnique"]))
    errors (IdealMock m) = (Return errors, IdealMock m).
Proof.
  induction l as [|x l IH]; intros Hm; [reflexivity|].
  unfold phase in *. rewrite bind_cons. cbn [app run_script].
  unfold bind at 1. cbn [call_read_mram wrapped_uart].
  unfold wrapped_read_mram, ideal_read_mram. cbn [cells].
  rewrite (Hm x) by apply list_elem_of_here. cbn [default].
  replace (Z.land x 0xFFFF) with (x mod 2 ^ 16)
    by (change 0xFFFF with (Z.ones 16); symmetry; apply Z.land_ones; lia).
  rewrite check_match. apply IH.
  intros a Ha. apply Hm. by apply list_elem_of_further.
Qed.

(** X7: the address-uniqueness test writes only the low 16 bits of each
    address, so it is blind to the two address bits above them: a memory
    whose decoder drops every address bit above bit 15 passes it over any
    range, however many addresses share a cell. *)
Theorem address_uniqueness_blind_to_high_bits
    (start_addr end_addr : Z) (m : ideal_mock) :
  start_addr <= end_addr ->
  exists m',
    march_test.address_uniqueness_test (H := wrapped_uart)
      start_addr end_addr m = (Return (true, []), m').
Proof.
  intros Hle. destruct m as [m].
  destruct (wrapped_write_phase (ascending start_addr end_addr) [] m)
    as (m' & E1 & P & _).
  exists (IdealMock m').
  rewrite (address_uniqueness_test_script (H := wrapped_uart)
             start_addr end_addr Hle (IdealMock m)).
  unfold bind, spec_address_uniqueness. cbv zeta.
  rewrite (run_script_app_ok (H := wrapped_uart) _ _ _ _ _ _ E1).
  by rewrite (wrapped_read_phase _ [] m' P).
Qed.

Lemma address_uniqueness_blind_to_high_bits_witness :
  0 <= 0x3FFFF /\
  exists m',
    march_test.address_uniqueness_test (H := wrapped_uart)
      0 0x3FFFF (IdealMock ∅) = (Return (true, []), m').
Proof.
  assert (Hle : 0 <= 0x3FFFF) by lia.
  split; [exact Hle|].
  exact (address_uniqueness_blind_to_high_bits 0 0x3FFFF (IdealMock ∅) Hle).
Defined.

(** ** March C on a memory that wraps its addresses *)

Lemma wrapped_never_raises : never_raises (H := wrapped_uart) ideal_mock.
Proof.
  split.
  - intros a d u. by eexists _, _.
  - intros a u. by eexists _, _.
Qed.

(** A script that runs to its end only adds to the errors it was given. *)
Lemma run_script_extends {U} `{Uart U} (script : list step) :
  never_raises U ->
  forall (errors : list fault) (u : U),
  exists extra u', run_script script errors u = (Return (errors ++ extra), u').
Proof.
  intros [Hw Hr]. induction script as [|[a w|a e t] script IH]; intros errors u.
  - exists [], u. cbn. by rewrite app_nil_r.
  - destruct (Hw a w u) as (b & u1 & E1).
    destruct (IH errors u1) as (extra & u' & E).
    exists extra, u'. cbn [run_script]. unfold bind. by rewrite E1.
  - destruct (Hr a u) as (d & u1 & E1).
    destruct (IH (march_test.check errors a t e d) u1) as (extra & u' & E).
    eexists _, u'. cbn [run_script]. unfold bind. rewrite E1, E.
    by rewrite check_app, <- app_assoc.
Qed.

Lemma wrapped_fill_phase (l : list Z) (w : Z) (errors : list fault)
    (m : gmap Z Z) :
  exists m',
    run_script (H := wrapped_uart) (phase l (fun a => [StWrite a w])) errors
      (IdealMock m) = (Return errors, IdealMock m')
    /\ (forall a, a ∈ l -> m' !! (a mod 2 ^ 16) = Some w).
Proof.
  revert m. induction l as [|x l IH] using rev_ind; intros m.
  - exists m. split; [reflexivity | by intros a ?%elem_of_nil].
  - destruct (IH m) as (m1 & E1 & P1).
    exists (<[x mod 2 ^ 16 := w]> m1). split.
    + unfold phase in *. rewrite bind_app.
      by rewrite (run_script_app_ok (H := wrapped_uart) _ _ _ _ _ _ E1).
    + intros a [Ha| ->%list_elem_of_singleton]%elem_of_app.
      * destruct (decide (x mod 2 ^ 16 = a mod 2 ^ 16)) as [->|Hne].
        -- apply lookup_insert_eq.
        -- rewrite lookup_insert_ne by done. by apply P1.
      * apply lookup_insert_eq.
Qed.

(** On a window of [2^16] consecutive addresses the wrapping memory is a
    memory. *)
Lemma wrapped_memory_like (base : Z) :
  memory_like (H := wrapped_uart) (fun _ => True)
    (fun a => base <= a < base + 2 ^ 16) (fun _ => True)
    (fun u a => default 0x0000 (cells u !! (a mod 2 ^ 16))).
Proof.
  split.
  - intros a w [m] _ Ha _. eexists _, _. split; [reflexivity|].
    cbn [cells]. split; [done|]. split.
    + by rewrite lookup_insert_eq.
    + intros a' Ha' Hne. rewrite lookup_insert_ne; [done|].
      intros Heq. apply Hne.
      pose proof (Z.div_mod a (2 ^ 16)). pose proof (Z.div_mod a' (2 ^ 16)).
      lia.
  - intros a u _ _. exists u. by repeat split.
Qed.

Lemma phase_app (l1 l2 : list Z) (body : Z -> list step) :
  phase (l1 ++ l2) body = phase l1 body ++ phase l2 body.
Proof. apply bind_app. Qed.

Lemma phase_singleton (a : Z) (body : Z -> list step) : phase [a] body = body a.
Proof. unfold phase. apply bind_singleton. Qed.

(** X4: March C does see such a decoder fault: over a range that holds two
    addresses [2^16] apart, phase 2 finds the word it wrote through the
    lower one when it comes to the upper one. *)
Theorem march_c_detects_wrapped_addresses
    (start_addr end_addr : Z) (m : ideal_mock) :
  start_addr + 2 ^ 16 <= end_addr ->
  exists errors m',
    march_test.march_c_test (H := wrapped_uart) start_addr end_addr m =
      (Return (false, errors), m')
    /\ (start_addr + 2 ^ 16, "Phase2", 0x0000, 0xFFFF) ∈ errors.
Proof.
  intros Hspan. destruct m as [m].
  assert (Hle : start_addr <= end_addr) by lia.
  set (hi := start_addr + 2 ^ 16).
  set (body2 := fun a : Z => [StRead a 0x0000 "Phase2"; StWrite a 0xFFFF]).
  assert (Hsplit : ascending start_addr end_addr =
                   seqZ start_addr (2 ^ 16) ++ [hi] ++ seqZ (hi + 1) (end_addr - hi)).
  { unfold ascending.
    replace (end_addr - start_addr + 1)
      with (2 ^ 16 + (1 + (end_addr - hi))) by (unfold hi; lia).
    rewrite seqZ_app by (unfold hi; lia).
    rewrite (seqZ_app _ 1) by (unfold hi; lia).
    reflexivity. }
  (* phase 1 *)
  destruct (wrapped_fill_phase (ascending start_addr end_addr) 0x0000 [] m)
    as (m1 & E1 & P1).
  (* phase 2, the first 2^16 addresses *)
  destruct (ml_read_write_phase _ _ _ _ (wrapped_memory_like start_addr)
              (seqZ start_addr (2 ^ 16)) 0x0000 0xFFFF "Phase2" []
              (IdealMock m1) I) as (u2 & E2 & _ & P2 & _).
  { apply Forall_forall. intros a Ha%elem_of_seqZ. lia. }
  { exact I. }
  { apply NoDup_seqZ. }
  { intros a Ha. cbn [cells]. rewrite P1; [done|].
    rewrite Hsplit. apply elem_of_app. by left. }
  (* phase 2, the address 2^16 above the first *)
  assert (E3 : run_script (H := wrapped_uart) (body2 hi) [] u2 =
               (Return [(hi, "Phase2", 0x0000, 0xFFFF)],
                IdealMock (<[hi mod 2 ^ 16 := 0xFFFF]> (cells u2)))).
  { unfold body2. cbn [run_script]. unfold bind.
    cbn [call_read_mram call_write_mram wrapped_uart].
    unfold wrapped_read_mram, wrapped_write_mram, ideal_read_mram,
      ideal_write_mram.
    assert (Hk : hi mod 2 ^ 16 = start_addr mod 2 ^ 16).
    { unfold hi. rewrite <- (Z.mul_1_l (2 ^ 16)) at 1.
      apply Z.mod_add. lia. }
    rewrite Hk.
    rewrite (P2 start_addr) by (apply elem_of_seqZ; lia).
    reflexivity. }
  (* the rest *)
  assert (Hscript : exists rest,
             spec_march_c start_addr end_addr =
             phase (ascending start_addr end_addr) (fun a => [StWrite a 0x0000])
             ++ phase (seqZ start_addr (2 ^ 16)) body2 ++ body2 hi ++ rest).
  { eexists. unfold spec_march_c. cbv zeta. fold body2. f_equal.
    rewrite Hsplit at 1. rewrite !phase_app, phase_singleton.
    rewrite <- !app_assoc. reflexivity. }
  destruct Hscript as (rest & Hscript).
  destruct (run_script_extends (H := wrapped_uart) rest wrapped_never_raises
              [(hi, "Phase2", 0x0000, 0xFFFF)]
              (IdealMock (<[hi mod 2 ^ 16 := 0xFFFF]> (cells u2))))
    as (extra & m' & E4).
  exists ([(hi, "Phase2", 0x0000, 0xFFFF)] ++ extra), m'. split.
  - rewrite (march_c_test_script (H := wrapped_uart)
               start_addr end_addr Hle (IdealMock m)).
    unfold bind. rewrite Hscript.
    rewrite (run_script_app_ok (H := wrapped_uart) _ _ _ _ _ _ E1).
    rewrite (run_script_app_ok (H := wrapped_uart) _ _ _ _ _ _ E2).
    rewrite (run_script_app_ok (H := wrapped_uart) _ _ _ _ _ _ E3).
    rewrite E4. reflexivity.
  - apply elem_of_app. left. apply list_elem_of_here.
Qed.

Lemma march_c_detects_wrapped_addresses_witness :
  0 + 2 ^ 16 <= 0x10000 /\
  exists errors m',
    march_test.march_c_test (H := wrapped_uart) 0 0x10000 (IdealMock ∅) =
      (Return (false, errors), m')
    /\ (0 + 2 ^ 16, "Phase2", 0x0000, 0xFFFF) ∈ errors.
Proof.
  assert (Hspan : 0 + 2 ^ 16 <= 0x10000) by lia.
  split; [exact Hspan|].
  exact (march_c_detects_wrapped_addresses 0 0x10000 (IdealMock ∅) Hspan).
Defined.

(** ** The simulated device as a memory: instances *)

Lemma sim_alive_idle : sim_idle sim_alive.
Proof. by split. Qed.

Lemma valid_words_all (w : Z) : 0 <= w <= 0xFFFF -> valid_word w.
Proof. done. Qed.

Lemma valid_word_land (a : Z) : valid_word (Z.land a 0xFFFF).
Proof.
  unfold valid_word. change (Z.land a 0xFFFF) with (Z.land a (Z.ones 16)).
  rewrite Z.land_ones by lia. pose proof (Z.mod_pos_bound a (2 ^ 16)). lia.
Qed.

Lemma march_c_leaves_zeros_witness :
  sim_idle sim_alive /\ 0x10 <= 0x13 /\
  exists p',
    march_test.march_c_test (H := march_test.MRAMUART sim_serial)
      0x10 0x13 sim_alive = (Return (true, []), p')
    /\ sim_idle p'
    /\ (forall a, 0x10 <= a <= 0x13 -> sim_peek p' a = 0x0000)
    /\ (forall a, valid_address a -> ~ (0x10 <= a <= 0x13) ->
          sim_peek p' a = sim_peek sim_alive a).
Proof.
  assert (Hle : 0x10 <= 0x13) by lia.
  assert (HD : forall a, 0x10 <= a <= 0x13 -> valid_address a)
    by (intros a Ha; unfold valid_address; lia).
  assert (W0 : valid_word 0x0000) by (unfold valid_word; lia).
  assert (W1 : valid_word 0xFFFF) by (unfold valid_word; lia).
  split; [exact sim_alive_idle|]. split; [exact Hle|].
  exact (march_c_leaves_zeros _ _ _ _ sim_memory_like 0x10 0x13 sim_alive
           sim_alive_idle Hle HD W0 W1).
Defined.

Lemma checkerboard_on_memory_witness :
  sim_idle sim_alive /\ 0x11 <= 0x14 /\
  exists p',
    march_test.checkerboard_test (H := march_test.MRAMUART sim_serial)
      0x11 0x14 sim_alive = (Return (true, []), p')
    /\ sim_idle p'
    /\ (forall a, 0x11 <= a <= 0x14 -> sim_peek p' a = inverse_board 0x11 a)
    /\ (forall a, valid_address a -> ~ (0x11 <= a <= 0x14) ->
          sim_peek p' a = sim_peek sim_alive a).
Proof.
  assert (Hle : 0x11 <= 0x14) by lia.
  assert (HD : forall a, 0x11 <= a <= 0x14 -> valid_address a)
    by (intros a Ha; unfold valid_address; lia).
  assert (WA : valid_word 0xAAAA) by (unfold valid_word; lia).
  assert (W5 : valid_word 0x5555) by (unfold valid_word; lia).
  split; [exact sim_alive_idle|]. split; [exact Hle|].
  exact (checkerboard_on_memory _ _ _ _ sim_memory_like 0x11 0x14 sim_alive
           sim_alive_idle Hle HD WA W5).
Defined.

Lemma address_uniqueness_on_memory_witness :
  sim_idle sim_alive /\ 0x2FFFE <= 0x30001 /\
  exists p',
    march_test.address_uniqueness_test (H := march_test.MRAMUART sim_serial)
      0x2FFFE 0x30001 sim_alive = (Return (true, []), p')
    /\ sim_idle p'
    /\ (forall a, 0x2FFFE <= a <= 0x30001 -> sim_peek p' a = Z.land a 0xFFFF)
    /\ (forall a, valid_address a -> ~ (0x2FFFE <= a <= 0x30001) ->
          sim_peek p' a = sim_peek sim_alive a).
Proof.
  assert (Hle : 0x2FFFE <= 0x30001) by lia.
  assert (HD : forall a, 0x2FFFE <= a <= 0x30001 -> valid_address a)
    by (intros a Ha; unfold valid_address; lia).
  split; [exact sim_alive_idle|]. split; [exact Hle|].
  exact (address_uniqueness_on_memory _ _ _ _ sim_memory_like 0x2FFFE 0x30001
           sim_alive sim_alive_idle Hle HD valid_word_land).
Defined.

Lemma walking_tests_on_memory_witness :
  sim_idle sim_alive /\
  exists p',
    march_test.walking_ones_test (H := march_test.MRAMUART sim_serial)
      0x100 16 sim_alive = (Return (true, []), p')
    /\ sim_idle p'
    /\ (forall i, 0 <= i < 16 -> sim_peek p' (0x100 + i) = Z.shiftl 1 i)
    /\ (forall a, valid_address a -> ~ (0x100 <= a < 0x100 + 16) ->
          sim_peek p' a = sim_peek sim_alive a).
Proof.
  assert (HD : forall a, 0x100 <= a < 0x100 + 16 -> valid_address a)
    by (intros a Ha; unfold valid_address; lia).
  split; [exact sim_alive_idle|].
  exact (proj1 (walking_tests_on_memory _ _ _ _ sim_memory_like 0x100 16
                  sim_alive sim_alive_idle HD valid_words_all)).
Defined.

(** ** Sessions *)

Section SessionScripts.
Context {U : Type} `{Uart U}.

(** The errors a script is given only sit in front of those it finds. *)
Lemma run_script_from_nil (script : list step) (errors : list fault) :
  run_script script errors ≡ₘ
  (e <- run_script script [] ;; ret (errors ++ e)).
Proof.
  revert errors. induction script as [|[a w|a x t] script IH]; intros errors.
  - cbn [run_script]. rewrite bind_ret_l. by rewrite app_nil_r.
  - cbn [run_script]. rewrite bind_assoc.
    apply bind_proper; [reflexivity|]. intros _. apply IH.
  - cbn [run_script]. rewrite bind_assoc.
    apply bind_proper; [reflexivity|]. intros d.
    rewrite (IH (march_test.check errors a t x d)).
    rewrite (IH (march_test.check [] a t x d)).
    rewrite bind_assoc. apply bind_proper; [reflexivity|]. intros e.
    rewrite bind_ret_l. by rewrite !check_app, <- !app_assoc.
Qed.

Lemma run_range_tests_script (start_addr end_addr : Z) :
  start_addr <= end_addr ->
  march_main.run_range_tests start_addr end_addr ≡ₘ
  run_script (spec_range_session start_addr end_addr) [].
Proof.
  intros Hle. unfold march_main.run_range_tests, spec_range_session. cbv zeta.
  setoid_rewrite (march_c_test_script _ _ Hle).
  setoid_rewrite (checkerboard_test_script _ _ Hle).
  setoid_rewrite (address_uniqueness_test_script _ _ Hle).
  rewrite run_script_app. unfold verdict.
  rewrite !bind_assoc. apply bind_proper; [reflexivity|]. intros e1.
  rewrite bind_ret_l. cbn [snd app].
  rewrite run_script_app.
  rewrite (run_script_from_nil (spec_checkerboard _ _) e1).
  rewrite !bind_assoc. apply bind_proper; [reflexivity|]. intros e2.
  rewrite !bind_ret_l. cbn [snd].
  rewrite (run_script_from_nil (spec_address_uniqueness _ _) (e1 ++ e2)).
  rewrite !bind_assoc. apply bind_proper; [reflexivity|]. intros e3.
  by rewrite !bind_ret_l.
Qed.

End SessionScripts.

(** X9: a session over a range runs the three tests back to back whatever the
    earlier ones found, and [all_errors] holds the fault records of all
    three, in the order of the reads. *)
Theorem session_runs_all_tests {U : Type} `{Uart U}
    (start_addr end_addr : Z) (u : U) :
  never_raises U ->
  start_addr <= end_addr ->
  exists evs u',
    march_main.run_range_tests start_addr end_addr (Spied u []) =
      (Return (faults_of (spec_range_session start_addr end_addr) evs),
       Spied u' evs)
    /\ Forall2 performs (spec_range_session start_addr end_addr) evs.
Proof.
  intros Hnr Hle.
  destruct (run_script_spied (spec_range_session start_addr end_addr) Hnr []
              (Spied u [])) as (evs & u' & E & HF).
  exists evs, u'. split; [|exact HF].
  by rewrite (run_range_tests_script start_addr end_addr Hle (Spied u [])).
Qed.

Lemma session_runs_all_tests_witness :
  never_raises (H := march_test.MRAMUART sim_serial) sim_port /\ 0 <= 2 /\
  exists evs u',
    march_main.run_range_tests
      (H := spied_uart (H := march_test.MRAMUART sim_serial))
      0 2 (Spied sim_silent []) =
      (Return (faults_of (spec_range_session 0 2) evs), Spied u' evs)
    /\ Forall2 performs (spec_range_session 0 2) evs.
Proof.
  assert (Hle : 0 <= 2) by lia.
  split; [exact (MRAMUART_never_raises sim_serial sim_reliable)|].
  split; [exact Hle|].
  exact (session_runs_all_tests (H := march_test.MRAMUART sim_serial)
           0 2 sim_silent (MRAMUART_never_raises sim_serial sim_reliable) Hle).
Defined.

Section MemorySessions.
Context {U : Type} `{Uart U}.
Context (Inv : U -> Prop) (Dom W : Z -> Prop) (peek : U -> Z -> Z).
Context (ML : memory_like Inv Dom W peek).

(** X10: on a memory a session over a range reports no error; it leaves the low
    16 bits of its address in every word of the range and no trace
    elsewhere. *)
Theorem session_on_memory (start_addr end_addr : Z) (u : U) :
  Inv u -> start_addr <= end_addr ->
  (forall a, start_addr <= a <= end_addr -> Dom a) ->
  (forall w, 0 <= w <= 0xFFFF -> W w) ->
  exists u',
    march_main.run_range_tests start_addr end_addr u = (Return [], u')
    /\ Inv u'
    /\ (forall a, start_addr <= a <= end_addr -> peek u' a = Z.land a 0xFFFF)
    /\ (forall a, Dom a -> ~ (start_addr <= a <= end_addr) ->
          peek u' a = peek u a).
Proof.
  intros HI Hle HD HW.
  destruct (march_c_leaves_zeros_aux _ _ _ _ ML start_addr end_addr u HI Hle HD)
    as (u1 & E1 & I1 & _ & Q1); [apply HW; lia | apply HW; lia |].
  destruct (checkerboard_on_memory_aux _ _ _ _ ML start_addr end_addr u1 I1 Hle HD)
    as (u2 & E2 & I2 & _ & Q2); [apply HW; lia | apply HW; lia |].
  destruct (address_uniqueness_on_memory_aux _ _ _ _ ML start_addr end_addr u2
              I2 Hle HD) as (u3 & E3 & I3 & P3 & Q3).
  { intros a. apply HW. apply valid_word_land. }
  exists u3. split; [|split; [exact I3|split; [exact P3|]]].
  - unfold march_main.run_range_tests, bind. by rewrite E1, E2, E3.
  - intros a Ha Hout. by rewrite Q3, Q2, Q1.
Qed.

(** X11: the bit tests of choice 6 pass on a memory that holds the addresses
    [0x000..0x00F] and [0x100..0x10F]. *)
Theorem bit_tests_on_memory (u : U) :
  Inv u ->
  (forall a, 0 <= a < 16 \/ 0x100 <= a < 0x110 -> Dom a) ->
  (forall w, 0 <= w <= 0xFFFF -> W w) ->
  exists u',
    march_main.run_bit_tests u = (Return [], u')
    /\ Inv u'
    /\ (forall i, 0 <= i < 16 ->
          peek u' i = Z.shiftl 1 i /\
          peek u' (0x100 + i) = 0xFFFF - Z.shiftl 1 i).
Proof.
  intros HI HD HW.
  destruct (proj1 (walking_tests_on_memory_aux _ _ _ _ ML 0x00000 16 u HI
                     ltac:(intros a Ha; apply HD; lia) HW))
    as (u1 & E1 & I1 & P1 & Q1).
  destruct (proj2 (walking_tests_on_memory_aux _ _ _ _ ML 0x00100 16 u1 I1
                     ltac:(intros a Ha; apply HD; lia) HW))
    as (u2 & E2 & I2 & P2 & Q2).
  exists u2. split; [|split; [exact I2|]].
  - unfold march_main.run_bit_tests, bind. by rewrite E1, E2.
  - intros i Hi. split; [|by apply P2].
    rewrite Q2; [|apply HD; lia|lia].
    by apply (P1 i).
Qed.
End MemorySessions.

Lemma session_on_memory_witness :
  sim_idle sim_alive /\ 0x3FFF0 <= 0x3FFFF /\
  exists p',
    march_main.run_range_tests (H := march_test.MRAMUART sim_serial)
      0x3FFF0 0x3FFFF sim_alive = (Return [], p')
    /\ sim_idle p'
    /\ (forall a, 0x3FFF0 <= a <= 0x3FFFF -> sim_peek p' a = Z.land a 0xFFFF)
    /\ (forall a, valid_address a -> ~ (0x3FFF0 <= a <= 0x3FFFF) ->
          sim_peek p' a = sim_peek sim_alive a).
Proof.
  assert (Hle : 0x3FFF0 <= 0x3FFFF) by lia.
  assert (HD : forall a, 0x3FFF0 <= a <= 0x3FFFF -> valid_address a)
    by (intros a Ha; unfold valid_address; lia).
  split; [exact sim_alive_idle|]. split; [exact Hle|].
  exact (session_on_memory _ _ _ _ sim_memory_like 0x3FFF0 0x3FFFF sim_alive
           sim_alive_idle Hle HD valid_words_all).
Defined.

Lemma bit_tests_on_memory_witness :
  sim_idle sim_alive /\
  exists p',
    march_main.run_bit_tests (H := march_test.MRAMUART sim_serial) sim_alive =
      (Return [], p')
    /\ sim_idle p'
    /\ (forall i, 0 <= i < 16 ->
          sim_peek p' i = Z.shiftl 1 i /\
          sim_peek p' (0x100 + i) = 0xFFFF - Z.shiftl 1 i).
Proof.
  assert (HD : forall a, 0 <= a < 16 \/ 0x100 <= a < 0x110 -> valid_address a)
    by (intros a Ha; unfold valid_address; lia).
  split; [exact sim_alive_idle|].
  exact (bit_tests_on_memory _ _ _ _ sim_memory_like sim_alive
           sim_alive_idle HD valid_words_all).
Defined.

(** ** main.py: [run_test] *)

Lemma run_test_data_valid_aux (pattern : string) (start_addr count : Z) :
  Forall (fun d => 0 <= d <= 0xFFFF)
    (snd <$> main_run.make_test_data pattern start_addr count)
  /\ fst <$> main_run.make_test_data pattern start_addr count =
     seqZ start_addr count.
Proof.
  unfold main_run.make_test_data, py_range. rewrite <- !list_fmap_compose.
  split.
  - apply Forall_fmap, Forall_forall. intros i _. cbn.
    unfold main_run.pattern_data.
    repeat match goal with |- context [String.eqb ?a ?b] =>
                             destruct (String.eqb a b) end;
      try apply valid_word_land.
    destruct (i mod 2 =? 0); lia.
  - replace (count - 0) with count by lia.
    replace (seqZ start_addr count) with (Z.add start_addr <$> seqZ 0 count)
      by (rewrite fmap_add_seqZ; f_equal; lia).
    reflexivity.
Qed.

(** X12: every word [run_test] writes is a 16-bit word, whatever the pattern
    name and the position, and the addresses are [start .. start+count-1]
    in order. *)
Theorem run_test_data_valid (pattern : string) (start_addr count : Z) :
  Forall (fun d => 0 <= d <= 0xFFFF)
    (snd <$> main_run.make_test_data pattern start_addr count)
  /\ fst <$> main_run.make_test_data pattern start_addr count =
     seqZ start_addr count.
Proof. exact (run_test_data_valid_aux pattern start_addr count). Qed.

Lemma sim_main_write_mram (a w : Z) (m : gmap Z Z) (ans : bool) :
  main.write_mram sim_serial a w (SimPort m [] ans) =
  (Return true, SimPort (<[a mod 2 ^ 18 := w mod 2 ^ 16]> m) [] ans).
Proof.
  rewrite <- wire_address_mod, <- decode_word_mod. reflexivity.
Qed.

Lemma sim_main_read_mram (a : Z) (m : gmap Z Z) :
  main.read_mram sim_serial a (SimPort m [] true) =
  (Return (Some (default 0x0000 (m !! (a mod 2 ^ 18)) mod 2 ^ 16)),
   SimPort m [] true).
Proof.
  rewrite <- wire_address_mod, <- decode_word_mod. reflexivity.
Qed.

Lemma sim_main_read_mram_silent (a : Z) (m : gmap Z Z) :
  main.read_mram sim_serial a (SimPort m [] false) =
  (Return None, SimPort m [] false).
Proof. reflexivity. Qed.

Lemma run_test_writes (test_data : list (Z * Z)) (m : gmap Z Z) (ans : bool) :
  for_ test_data
    (fun '(addr, data) => main.write_mram sim_serial addr data ;;; ret tt)
    (SimPort m [] ans) =
  (Return tt, SimPort (sim_store test_data m) [] ans).
Proof.
  revert m. induction test_data as [|[a d] td IH]; intros m; [reflexivity|].
  cbn [for_]. unfold bind at 1. unfold bind at 1.
  rewrite sim_main_write_mram. cbn [ret]. apply IH.
Qed.

Lemma sim_store_lookup (test_data : list (Z * Z)) (m : gmap Z Z) :
  NoDup (fst <$> test_data) ->
  Forall (fun ad => valid_address (fst ad) /\ valid_word (snd ad)) test_data ->
  (forall a d, (a, d) ∈ test_data -> sim_store test_data m !! a = Some d)
  /\ (forall k, k ∉ (fst <$> test_data) -> sim_store test_data m !! k = m !! k).
Proof.
  revert m. induction test_data as [|[x dx] td IH]; intros m HN HV.
  - split; [by intros a d ?%elem_of_nil | done].
  - rewrite fmap_cons in HN. apply NoDup_cons in HN as [Hx HN].
    apply Forall_cons in HV as [[Vx Vd] HV]. cbn [fst snd] in *.
    unfold valid_address in Vx. unfold valid_word in Vd.
    unfold sim_store. cbn [foldl fst snd].
    rewrite (Z.mod_small x) by lia. rewrite (Z.mod_small dx) by lia.
    fold (sim_store td (<[x := dx]> m)).
    destruct (IH (<[x := dx]> m) HN HV) as [P Q]. split.
    + intros a d [[= -> ->]|Hin]%elem_of_cons; [|by apply P].
      rewrite (Q _ Hx). apply lookup_insert_eq.
    + intros k Hk. rewrite fmap_cons in Hk.
      apply not_elem_of_cons in Hk as [Hne Hk].
      rewrite (Q _ Hk). by apply lookup_insert_ne.
Qed.

Lemma read_back_working (test_data : list (Z * Z))
    (results : list (Z * Z * option Z)) (m : gmap Z Z) :
  Forall (fun ad => valid_address (fst ad) /\ valid_word (snd ad)
                    /\ m !! fst ad = Some (snd ad)) test_data ->
  main_run.read_back sim_serial test_data results (SimPort m [] true) =
  (Return (inr (results ++ (read_ok <$> test_data))), SimPort m [] true).
Proof.
  revert results. induction test_data as [|[a d] td IH]; intros results HV.
  - cbn. by rewrite app_nil_r.
  - apply Forall_cons in HV as [(Va & Vd & Hm) HV]. cbn [fst snd] in *.
    unfold valid_address in Va. unfold valid_word in Vd.
    cbn [main_run.read_back]. unfold bind at 1. rewrite sim_main_read_mram.
    rewrite (Z.mod_small a) by lia. rewrite Hm. cbn [default].
    rewrite (Z.mod_small d) by lia.
    rewrite (IH _ HV). by rewrite <- app_assoc.
Qed.

Lemma count_correct_read_ok (test_data : list (Z * Z)) :
  main_run.count_correct (read_ok <$> test_data) = Z.of_nat (length test_data).
Proof.
  unfold main_run.count_correct. f_equal.
  induction test_data as [|[a d] td IH]; [reflexivity|].
  rewrite fmap_cons, filter_cons_True by reflexivity.
  cbn [length]. by rewrite IH.
Qed.

Lemma make_test_data_length (pattern : string) (start_addr count : Z) :
  0 <= count ->
  Z.of_nat (length (main_run.make_test_data pattern start_addr count)) = count.
Proof.
  intros Hc. unfold main_run.make_test_data, py_range.
  rewrite length_fmap, length_seqZ. lia.
Qed.

(** X13: on a working device [run_test] reports every location correct: for
    [count >= 1] locations within the address space each read returns the
    word written, whatever the pattern. *)
Theorem run_test_on_working_device (pattern : string)
    (start_addr count : Z) (m : gmap Z Z) :
  0 <= start_addr -> 1 <= count -> start_addr + count - 1 <= 0x3FFFF ->
  main_run.run_test sim_serial start_addr count pattern (SimPort m [] true) =
  (Return
     (main_run.Completed
        (read_ok <$> main_run.make_test_data pattern start_addr count)
        count true),
   SimPort (sim_store (main_run.make_test_data pattern start_addr count) m)
     [] true).
Proof.
  intros H0 H1 Hend.
  destruct (run_test_data_valid_aux pattern start_addr count) as [Hw Ha].
  set (td := main_run.make_test_data pattern start_addr count) in *.
  assert (HN : NoDup (fst <$> td)) by (rewrite Ha; apply NoDup_seqZ).
  assert (HV : Forall (fun ad => valid_address (fst ad) /\ valid_word (snd ad)) td).
  { apply Forall_forall. intros [a d] Hin. cbn [fst snd]. split.
    - assert (Hin' : a ∈ fst <$> td)
        by (apply list_elem_of_fmap; by exists (a, d)).
      rewrite Ha in Hin'. apply elem_of_seqZ in Hin'.
      unfold valid_address. lia.
    - assert (Hin' : d ∈ snd <$> td)
        by (apply list_elem_of_fmap; by exists (a, d)).
      by eapply Forall_forall in Hw. }
  destruct (sim_store_lookup td m HN HV) as [P _].
  unfold main_run.run_test. cbv zeta. fold td.
  unfold bind at 1. rewrite run_test_writes.
  unfold bind at 1. cbn [time_sleep sim_serial ret].
  unfold bind at 1. rewrite read_back_working.
  - cbn [app]. rewrite count_correct_read_ok.
    unfold td. rewrite make_test_data_length by lia.
    destruct (Z.eqb_spec count 0); [lia|].
    rewrite Z.ltb_irrefl. reflexivity.
  - apply Forall_forall. intros [a d] Hin. cbn [fst snd].
    pose proof (proj1 (Forall_forall _ _) HV _ Hin) as [Va Vd].
    split; [exact Va|]. split; [exact Vd|]. by apply P.
Qed.

Lemma run_test_on_working_device_witness :
  0 <= 0x00100 /\ 1 <= 8 /\ 0x00100 + 8 - 1 <= 0x3FFFF /\
  main_run.run_test sim_serial 0x00100 8 "aa55" sim_alive =
  (Return
     (main_run.Completed (read_ok <$> main_run.make_test_data "aa55" 0x00100 8)
        8 true),
   SimPort (sim_store (main_run.make_test_data "aa55" 0x00100 8) ∅) [] true).
Proof.
  assert (H0 : 0 <= 0x00100) by lia. assert (H1 : 1 <= 8) by lia.
  assert (H2 : 0x00100 + 8 - 1 <= 0x3FFFF) by lia.
  split; [exact H0|]. split; [exact H1|]. split; [exact H2|].
  exact (run_test_on_working_device "aa55" 0x00100 8 ∅ H0 H1 H2).
Defined.

(** X14: a read without response ends [run_test] at once: every location has
    been written, the first read is recorded with [None], and the line
    printed for it raises [TypeError]; no statistics are printed. *)
Theorem run_test_timeout_type_error (pattern : string)
    (start_addr count : Z) (m : gmap Z Z) :
  1 <= count ->
  main_run.run_test sim_serial start_addr count pattern (SimPort m [] false) =
  (Return
     (main_run.TypeError
        [(start_addr, main_run.pattern_data pattern 0, None)]),
   SimPort (sim_store (main_run.make_test_data pattern start_addr count) m)
     [] false).
Proof.
  intros H1. unfold main_run.run_test. cbv zeta.
  unfold bind at 1. rewrite run_test_writes.
  unfold bind at 1. cbn [time_sleep sim_serial ret].
  set (m' := sim_store _ m).
  unfold main_run.make_test_data, py_range.
  rewrite seqZ_cons by lia. rewrite fmap_cons.
  cbn [main_run.read_back]. unfold bind.
  rewrite sim_main_read_mram_silent. cbn [app ret].
  by rewrite Z.add_0_r.
Qed.

Lemma run_test_timeout_type_error_witness :
  1 <= 8 /\
  main_run.run_test sim_serial 0x00100 8 "aa55" sim_silent =
  (Return (main_run.TypeError [(0x00100, main_run.pattern_data "aa55" 0, None)]),
   SimPort (sim_store (main_run.make_test_data "aa55" 0x00100 8) ∅) [] false).
Proof.
  assert (H1 : 1 <= 8) by lia. split; [exact H1|].
  exact (run_test_timeout_type_error "aa55" 0x00100 8 ∅ H1).
Defined.

(** X15: with no location to test nothing is sent.  [count = 0] ends in the
    division by zero of the percentage; a negative [count] is reported as
    a run in which all reads were correct. *)
Theorem run_test_no_locations (ser : Serial) (pattern : string)
    (start_addr count : Z) (p : port ser) :
  count <= 0 ->
  main_run.run_test ser start_addr count pattern p =
  (time_sleep ser 100 ;;;
   if count =? 0 then raise ZeroDivisionError
   else ret (main_run.Completed [] 0 true)) p.
Proof.
  intros Hc. unfold main_run.run_test, main_run.make_test_data. cbv zeta.
  rewrite py_range_empty by lia. cbn [fmap list_fmap for_ main_run.read_back].
  unfold bind. cbn [ret].
  destruct (time_sleep ser 100 p) as [[[]|e] p']; [|reflexivity].
  destruct (Z.eqb_spec count 0); [reflexivity|].
  change (main_run.count_correct []) with 0.
  destruct (Z.ltb_spec 0 count); [lia | reflexivity].
Qed.

Lemma run_test_no_locations_witness :
  0 <= 0 /\
  main_run.run_test sim_serial 0x00100 0 "aa55" sim_alive =
  (Raise ZeroDivisionError, sim_alive).
Proof.
  assert (Hc : 0 <= 0) by lia. split; [exact Hc|].
  exact (run_test_no_locations sim_serial "aa55" 0x00100 0 sim_alive Hc).
Defined.

(** ** mram_test.py: the terminal *)

(** X16: a number typed without [0x] is read in base 16 whenever it can be read
    at all: since [int] accepts in base 16 every string it accepts in base
    10, the decimal fallback of [parse_number] never yields a value. *)
Theorem parse_number_is_hexadecimal
    (py_int : string -> Z -> option Z) (py_strip : string -> string)
    (s : string) :
  (forall t v, py_int t 10 = Some v -> exists v', py_int t 16 = Some v') ->
  mram_test.parse_number py_int py_strip s = py_int (py_strip s) 16.
Proof.
  intros Hint. unfold mram_test.parse_number.
  destruct (String.prefix "0x" (py_strip s) || String.prefix "0X" (py_strip s));
    [reflexivity|].
  destruct (py_int (py_strip s) 16) as [v|] eqn:E16; [reflexivity|].
  destruct (py_int (py_strip s) 10) as [v|] eqn:E10; [|reflexivity].
  destruct (Hint _ _ E10) as (v' & E). congruence.
Qed.

Lemma int_space_no_digit (c : Ascii.ascii) :
  is_int_space c = true -> digit_value c = None.
Proof.
  destruct c as [[] [] [] [] [] [] [] []]; vm_compute; intros E;
    first [reflexivity | discriminate E].
Qed.

Lemma int_prefix_16 (c : Ascii.ascii) :
  int_prefix 16 c = true ->
  digit_value c = Some 33 /\ Ascii.eqb c (Ascii.ascii_of_nat 95) = false
  /\ is_int_space c = false.
Proof.
  destruct c as [[] [] [] [] [] [] [] []]; vm_compute; intros E;
    first [discriminate E | repeat split].
Qed.

Lemma strip_int_prefix_10 (s : string) : strip_int_prefix 10 s = s.
Proof.
  destruct s as [|z [|x rest]]; cbn [strip_int_prefix]; try reflexivity.
  change (int_prefix 10 x) with false. by rewrite andb_false_r.
Qed.

Lemma digits_value_10_16 (s : string) (acc10 acc16 v : Z) (after : bool) :
  digits_value 10 acc10 after s = Some v ->
  exists v', digits_value 16 acc16 after s = Some v'.
Proof.
  revert acc10 acc16 after.
  induction s as [|c s IH]; intros acc10 acc16 after; cbn [digits_value].
  - destruct (negb after && only_int_space ""); [by eexists | discriminate].
  - destruct (Ascii.eqb c (Ascii.ascii_of_nat 95)).
    { destruct after; [discriminate | apply IH]. }
    destruct (digit_value c) as [d|] eqn:Ed.
    + destruct (Z.ltb_spec d 10) as [Hd|Hd].
      * destruct (Z.ltb_spec d 16); [apply IH | lia].
      * (* a digit above 9 ends a decimal number, and is no blank *)
        intros E. exfalso.
        destruct after; [discriminate E|]. cbn [negb andb] in E.
        unfold only_int_space in E. cbn [skip_int_space] in E.
        destruct (is_int_space c) eqn:Es; [|discriminate E].
        rewrite (int_space_no_digit c Es) in Ed. discriminate Ed.
    + destruct (negb after && only_int_space (String c s));
        [by eexists | discriminate].
Qed.

Lemma int_body_10_16 (body : string) (v : Z) :
  int_body 10 body = Some v -> exists v', int_body 16 body = Some v'.
Proof.
  destruct body as [|c rest]; cbn [int_body]; [discriminate|].
  destruct (digit_value c) as [d|]; [|discriminate].
  destruct (Z.ltb_spec d 10); [|discriminate].
  destruct (Z.ltb_spec d 16); [|lia].
  apply digits_value_10_16.
Qed.

(** A string with the prefix of base 16 is no decimal number. *)
Lemma int_body_10_no_prefix (s : string) (v : Z) :
  int_body 10 s = Some v -> strip_int_prefix 16 s = s.
Proof.
  destruct s as [|z [|x rest]]; cbn [strip_int_prefix]; try reflexivity.
  destruct (Ascii.eqb z (Ascii.ascii_of_nat 48) && int_prefix 16 x) eqn:Ep; [|reflexivity].
  apply andb_true_iff in Ep as [_ Hx].
  destruct (int_prefix_16 x Hx) as (Hd & Hu & Hs).
  cbn [int_body digits_value].
  destruct (digit_value z) as [d|]; [|discriminate].
  destruct (d <? 10); [|discriminate].
  rewrite Hu, Hd. change (33 <? 10) with false.
  unfold only_int_space. cbn [skip_int_space]. rewrite Hs. discriminate.
Qed.

Lemma plain_int_10_16 (t : string) (v : Z) :
  plain_int t 10 = Some v -> exists v', plain_int t 16 = Some v'.
Proof.
  unfold plain_int.
  change ((2 <=? 10) && (10 <=? 36)) with true.
  change ((2 <=? 16) && (16 <=? 36)) with true. cbv iota.
  destruct (int_sign (skip_int_space t)) as [negative unsigned].
  rewrite strip_int_prefix_10.
  destruct (over_limit 10 unsigned); [discriminate|].
  destruct (int_body 10 unsigned) as [n|] eqn:E10; [|discriminate].
  intros _. rewrite (int_body_10_no_prefix _ _ E10).
  change (over_limit 16 unsigned) with false. cbv iota.
  destruct (int_body_10_16 _ _ E10) as (n' & ->). by eexists.
Qed.

Lemma parse_number_is_hexadecimal_witness :
  (forall t v, plain_int t 10 = Some v -> exists v', plain_int t 16 = Some v')
  /\ mram_test.parse_number plain_int id "100" = Some 0x100.
Proof.
  split; [exact plain_int_10_16|].
  rewrite (parse_number_is_hexadecimal plain_int id "100" plain_int_10_16).
  reflexivity.
Defined.

Lemma catching_returns (ser : Serial) (m : M (port ser) mram_test.line)
    (p : port ser) :
  exists l p', mram_test.catching ser m p = (Return l, p').
Proof.
  unfold mram_test.catching. destruct (m p) as [[l|e] p']; by eexists _, _.
Qed.

(** X17: no command ends the terminal with an exception: whatever is typed and
    whatever the serial port does, one turn of the loop returns after
    printing its line, and the loop goes on unless the command was [quit],
    [exit] or [q]. *)
Theorem run_command_never_raises (ser : Serial)
    (py_int : string -> Z -> option Z) (py_strip py_lower : string -> string)
    (parts : list string) (p : port ser) :
  exists l go_on p',
    mram_test.run_command ser py_int py_strip py_lower parts p =
      (Return (l, go_on), p')
    /\ (go_on = false <->
        exists p0 rest, parts = p0 :: rest /\
                        py_lower p0 ∈ ["quit"; "exit"; "q"]).
Proof.
  unfold mram_test.run_command. destruct parts as [|p0 rest].
  - eexists _, _, _. split; [reflexivity|]. split; [discriminate|].
    by intros (? & ? & [=] & _).
  - cbv zeta. unfold mram_test.is_in at 1.
    case_bool_decide as Hq.
    { eexists _, _, _. split; [reflexivity|]. split; [|done].
      intros _. by exists p0, rest. }
    assert (Hno : ~ exists p1 rest', p0 :: rest = p1 :: rest' /\
                    py_lower p1 ∈ ["quit"; "exit"; "q"]).
    { intros (p1 & rest' & [= <- <-] & Hin). contradiction. }
    destruct (mram_test.is_in (py_lower p0) ["help"; "h"; "?"]).
    { eexists _, _, _. split; [reflexivity|]. split; [discriminate | done]. }
    destruct (mram_test.is_in (py_lower p0) ["w"; "write"]).
    { destruct (catching_returns ser
                  (mram_test.run_write ser py_int py_strip (p0 :: rest)) p)
        as (l & p' & E).
      exists l, true, p'. unfold bind. rewrite E.
      split; [reflexivity|]. split; [discriminate | done]. }
    destruct (mram_test.is_in (py_lower p0) ["r"; "read"]).
    { destruct (catching_returns ser
                  (mram_test.run_read ser py_int py_strip (p0 :: rest)) p)
        as (l & p' & E).
      exists l, true, p'. unfold bind. rewrite E.
      split; [reflexivity|]. split; [discriminate | done]. }
    eexists _, _, _. split; [reflexivity|]. split; [discriminate | done].
Qed.

Lemma sim_term_write_mram (a w : Z) (m : gmap Z Z) :
  mram_test.write_mram sim_serial a w (SimPort m [] true) =
  (Return (mram_test.Wrote w a),
   SimPort (<[a mod 2 ^ 18 := w mod 2 ^ 16]> m) [] true).
Proof. rewrite <- wire_address_mod, <- decode_word_mod. reflexivity. Qed.

Lemma sim_term_read_mram (a : Z) (m : gmap Z Z) :
  mram_test.read_mram sim_serial a (SimPort m [] true) =
  (let data := default 0x0000 (m !! (a mod 2 ^ 18)) mod 2 ^ 16 in
   (Return (Some data, mram_test.ReadBack data a), SimPort m [] true)).
Proof. rewrite <- wire_address_mod, <- decode_word_mod. reflexivity. Qed.

(** X18: a write command within range reaches the device, and a read command for
    the same address then prints the word written. *)
Theorem terminal_write_then_read
    (py_int : string -> Z -> option Z) (py_strip : string -> string)
    (w r a d : string) (addr data : Z) (m : gmap Z Z) :
  mram_test.parse_number py_int py_strip a = Some addr ->
  mram_test.parse_number py_int py_strip d = Some data ->
  0 <= addr <= 0x3FFFF ->
  0 <= data <= 0xFFFF ->
  mram_test.run_write sim_serial py_int py_strip [w; a; d] (SimPort m [] true) =
    (Return (mram_test.Wrote data addr), SimPort (<[addr := data]> m) [] true)
  /\ mram_test.run_read sim_serial py_int py_strip [r; a]
       (SimPort (<[addr := data]> m) [] true) =
     (Return (mram_test.ReadBack data addr),
      SimPort (<[addr := data]> m) [] true).
Proof.
  intros Ha Hd Hra Hrd. split.
  - unfold mram_test.run_write. rewrite Ha, Hd.
    destruct (Z.ltb_spec addr 0); [lia|].
    destruct (Z.gtb_spec addr 0x3FFFF); [lia|].
    destruct (Z.ltb_spec data 0); [lia|].
    destruct (Z.gtb_spec data 0xFFFF); [lia|].
    cbn [orb]. rewrite sim_term_write_mram.
    rewrite (Z.mod_small addr) by lia. rewrite (Z.mod_small data) by lia.
    reflexivity.
  - unfold mram_test.run_read. rewrite Ha.
    destruct (Z.ltb_spec addr 0); [lia|].
    destruct (Z.gtb_spec addr 0x3FFFF); [lia|].
    cbn [orb]. unfold bind. rewrite sim_term_read_mram. cbv zeta.
    rewrite (Z.mod_small addr) by lia. rewrite lookup_insert_eq.
    cbn [default]. rewrite (Z.mod_small data) by lia. reflexivity.
Qed.

Lemma terminal_write_then_read_witness :
  mram_test.parse_number plain_int id "0x100" = Some 0x100
  /\ mram_test.parse_number plain_int id "AA55" = Some 0xAA55
  /\ 0 <= 0x100 <= 0x3FFFF /\ 0 <= 0xAA55 <= 0xFFFF
  /\ mram_test.run_read sim_serial plain_int id ["r"; "0x100"]
       (SimPort (<[0x100 := 0xAA55]> ∅) [] true) =
     (Return (mram_test.ReadBack 0xAA55 0x100),
      SimPort (<[0x100 := 0xAA55]> ∅) [] true).
Proof.
  assert (Ha : mram_test.parse_number plain_int id "0x100" = Some 0x100)
    by reflexivity.
  assert (Hd : mram_test.parse_number plain_int id "AA55" = Some 0xAA55)
    by reflexivity.
  assert (Hra : 0 <= 0x100 <= 0x3FFFF) by lia.
  assert (Hrd : 0 <= 0xAA55 <= 0xFFFF) by lia.
  split; [exact Ha|]. split; [exact Hd|]. split; [exact Hra|].
  split; [exact Hrd|].
  exact (proj2 (terminal_write_then_read plain_int id "w" "r" "0x100" "AA55"
                  0x100 0xAA55 ∅ Ha Hd Hra Hrd)).
Defined.

(** ** non_volatility_test.py *)

Example hex_upper_examples :
  hex_upper 5 0x10 = "00010" /\ hex_upper 4 0xBAEF = "BAEF"
  /\ hex_upper 4 0 = "0000" /\ hex_upper 5 (-1) = "-0001"
  /\ hex_upper 4 0x12345 = "12345".
Proof. repeat split. Qed.

Example strip_split_examples :
  strip_split "00010 BAEF Magic pattern 1
" = ["00010"; "BAEF"; "Magic pattern 1"]
  /\ strip_split "  1  2  " = ["1"; "2"]
  /\ strip_split "" = [].
Proof. repeat split. Qed.

Lemma nv_sim_write_mram (a w : Z) (m : gmap Z Z) (ans : bool) :
  non_volatility_test.write_mram sim_serial_out a w (SimPort m [] ans) =
  (Return true, SimPort (<[a mod 2 ^ 18 := w mod 2 ^ 16]> m) [] ans).
Proof. rewrite <- wire_address_mod, <- decode_word_mod. reflexivity. Qed.

Lemma nv_sim_read_mram (a : Z) (m : gmap Z Z) :
  non_volatility_test.read_mram sim_serial_out a (SimPort m [] true) =
  (Return (Some (default 0x0000 (m !! (a mod 2 ^ 18)) mod 2 ^ 16)),
   SimPort m [] true).
Proof. rewrite <- wire_address_mod, <- decode_word_mod. reflexivity. Qed.

Lemma nv_sim_read_mram_silent (a : Z) (m : gmap Z Z) :
  non_volatility_test.read_mram sim_serial_out a (SimPort m [] false) =
  (Return None, SimPort m [] false).
Proof. reflexivity. Qed.

Lemma warmup_clears_last_word_aux (m : gmap Z Z) (ans : bool) :
  non_volatility_test.warmup sim_serial_out (SimPort m [] ans) =
  (Return tt, SimPort (<[0x3FFFF := 0x0000]> m) [] ans).
Proof.
  unfold non_volatility_test.warmup. unfold bind at 1.
  rewrite nv_sim_write_mram.
  change (0x3FFFF mod 2 ^ 18) with 0x3FFFF. change (0 mod 2 ^ 16) with 0.
  destruct ans.
  - unfold bind at 1. cbn [time_sleep so_serial sim_serial_out sim_serial ret].
    cbn [for_]. unfold bind at 1. unfold bind at 1. unfold bind at 1.
    rewrite nv_sim_read_mram. cbn [time_sleep sim_serial ret].
    unfold bind at 1. unfold bind at 1.
    rewrite nv_sim_read_mram. cbn [time_sleep sim_serial ret].
    unfold bind at 1. unfold bind at 1.
    rewrite nv_sim_read_mram. cbn [time_sleep sim_serial ret].
    reflexivity.
  - unfold bind at 1. cbn [time_sleep so_serial sim_serial_out sim_serial ret].
    cbn [for_]. unfold bind at 1. unfold bind at 1. unfold bind at 1.
    rewrite nv_sim_read_mram_silent. cbn [time_sleep sim_serial ret].
    unfold bind at 1. unfold bind at 1.
    rewrite nv_sim_read_mram_silent. cbn [time_sleep sim_serial ret].
    unfold bind at 1. unfold bind at 1.
    rewrite nv_sim_read_mram_silent. cbn [time_sleep sim_serial ret].
    reflexivity.
Qed.

(** X19: [warmup] is not free: its dummy write puts [0x0000] into the last word
    of the memory, [0x3FFFF]; everything else is as before, whether the
    device answers the three dummy reads or not. *)
Theorem warmup_clears_last_word (m : gmap Z Z) (ans : bool) :
  non_volatility_test.warmup sim_serial_out (SimPort m [] ans) =
  (Return tt, SimPort (<[0x3FFFF := 0x0000]> m) [] ans).
Proof. exact (warmup_clears_last_word_aux m ans). Qed.

Section Verify.
Variable hex : nat -> Z -> string.
Variable lines : string -> list string.
Variable split : string -> list string.
Variable py_int : string -> Z -> option Z.

Lemma count_errors_from (loaded : list (Z * Z * string)) (e : Z)
    (m : gmap Z Z) (file : option string) :
  for_each loaded
    (fun '(addr, expected, description) errors =>
       actual <- non_volatility_test.on_port
                   (non_volatility_test.read_mram sim_serial_out addr) ;;
       match actual with
       | None => ret (errors + 1)
       | Some a => if a =? expected then ret errors else ret (errors + 1)
       end) e
    (non_volatility_test.World (SimPort m [] true) file) =
  (Return (e + Z.of_nat (length (filter (fun v => ~ holds m v) loaded))),
   non_volatility_test.World (SimPort m [] true) file).
Proof.
  revert e. induction loaded as [|[[a d] desc] loaded IH]; intros e.
  - cbn. by rewrite Z.add_0_r.
  - cbn [for_each]. unfold bind at 1. unfold bind at 1.
    unfold non_volatility_test.on_port at 1.
    cbn [non_volatility_test.w_port non_volatility_test.w_file].
    rewrite nv_sim_read_mram. rewrite filter_cons.
    destruct (decide (~ holds m (a, d, desc))) as [Hn|Hy].
    + unfold holds in Hn. cbn [fst snd] in Hn.
      destruct (Z.eqb_spec (default 0 (m !! (a mod 2 ^ 18)) mod 2 ^ 16) d);
        [contradiction|].
      cbn [ret]. rewrite IH. cbn [length]. do 2 f_equal. lia.
    + apply dec_stable in Hy. unfold holds in Hy. cbn [fst snd] in Hy.
      rewrite Hy, Z.eqb_refl. cbn [ret]. by rewrite IH.
Qed.

Lemma count_errors_silent (loaded : list (Z * Z * string)) (e : Z)
    (m : gmap Z Z) (file : option string) :
  for_each loaded
    (fun '(addr, expected, description) errors =>
       actual <- non_volatility_test.on_port
                   (non_volatility_test.read_mram sim_serial_out addr) ;;
       match actual with
       | None => ret (errors + 1)
       | Some a => if a =? expected then ret errors else ret (errors + 1)
       end) e
    (non_volatility_test.World (SimPort m [] false) file) =
  (Return (e + Z.of_nat (length loaded)),
   non_volatility_test.World (SimPort m [] false) file).
Proof.
  revert e. induction loaded as [|[[a d] desc] loaded IH]; intros e.
  - cbn. by rewrite Z.add_0_r.
  - cbn [for_each]. unfold bind at 1. unfold bind at 1.
    unfold non_volatility_test.on_port at 1.
    cbn [non_volatility_test.w_port non_volatility_test.w_file].
    rewrite nv_sim_read_mram_silent. cbn [ret].
    rewrite IH. cbn [length]. do 2 f_equal. lia.
Qed.

Lemma verify_checks_every_vector_aux (text : string)
    (loaded : list (Z * Z * string)) (m : gmap Z Z)
    (p : sim_port) (file : option string) :
  (forall w, non_volatility_test.load_lines sim_serial_out split py_int
               (lines text) [] w = (Return (Some loaded), w)) ->
  non_volatility_test.verify_test_data sim_serial_out lines split py_int
    (non_volatility_test.World p None) =
    (Return (non_volatility_test.Returned false),
     non_volatility_test.World p None)
  /\ non_volatility_test.verify_test_data sim_serial_out lines split py_int
       (non_volatility_test.World (SimPort m [] true) (Some text)) =
     (Return (non_volatility_test.Returned
                (bool_decide (Forall (holds (<[0x3FFFF := 0x0000]> m)) loaded))),
      non_volatility_test.World (SimPort (<[0x3FFFF := 0x0000]> m) [] true)
        (Some text)).
Proof.
  intros Hload. split; [reflexivity|].
  unfold non_volatility_test.verify_test_data. unfold bind at 1.
  cbn [non_volatility_test.w_file]. unfold bind at 1.
  unfold non_volatility_test.on_port at 1.
  cbn [non_volatility_test.w_port non_volatility_test.w_file].
  rewrite warmup_clears_last_word_aux. unfold bind at 1. rewrite Hload.
  unfold bind at 1. unfold non_volatility_test.count_errors.
  rewrite count_errors_from.
  set (bad := filter _ loaded).
  assert (Hb : (0 + Z.of_nat (length bad) =? 0) =
               bool_decide (Forall (holds (<[0x3FFFF := 0x0000]> m)) loaded)).
  { destruct bad as [|v bad'] eqn:Eb.
    - symmetry. apply bool_decide_eq_true_2, Forall_forall.
      intros v Hv. destruct (decide (holds (<[0x3FFFF := 0]> m) v)) as [|Hn];
        [done|].
      assert (Hin : v ∈ bad) by (apply list_elem_of_filter; by split).
      rewrite Eb in Hin. by apply elem_of_nil in Hin.
    - assert (Hin : v ∈ bad) by (rewrite Eb; apply list_elem_of_here).
      apply list_elem_of_filter in Hin as [Hn Hin].
      rewrite bool_decide_eq_false_2.
      + cbn [length]. apply Z.eqb_neq. lia.
      + intros HF. apply Hn. by eapply Forall_forall in HF. }
  rewrite Hb. reflexivity.
Qed.

(** X20: [verify_test_data] checks every vector of the file against the device:
    without the file it returns [False] before anything is sent; with it,
    on a device that answers, it returns [True] exactly when every vector's
    word is the one the device holds once [warmup] has run. *)
Theorem verify_checks_every_vector (text : string)
    (loaded : list (Z * Z * string)) (m : gmap Z Z)
    (p : sim_port) (file : option string) :
  (forall w, non_volatility_test.load_lines sim_serial_out split py_int
               (lines text) [] w = (Return (Some loaded), w)) ->
  non_volatility_test.verify_test_data sim_serial_out lines split py_int
    (non_volatility_test.World p None) =
    (Return (non_volatility_test.Returned false),
     non_volatility_test.World p None)
  /\ non_volatility_test.verify_test_data sim_serial_out lines split py_int
       (non_volatility_test.World (SimPort m [] true) (Some text)) =
     (Return (non_volatility_test.Returned
                (bool_decide (Forall (holds (<[0x3FFFF := 0x0000]> m)) loaded))),
      non_volatility_test.World (SimPort (<[0x3FFFF := 0x0000]> m) [] true)
        (Some text)).
Proof. exact (verify_checks_every_vector_aux text loaded m p file). Qed.
End Verify.

Lemma nv_writes (vs : list (Z * Z * string))
    (m : gmap Z Z) (ans : bool) (file : option string) :
  for_ vs
    (fun '(addr, data, description) =>
       non_volatility_test.on_port
         (non_volatility_test.write_mram sim_serial_out addr data) ;;; ret tt)
    (non_volatility_test.World (SimPort m [] ans) file) =
  (Return tt,
   non_volatility_test.World
     (SimPort (sim_store (vector_pair <$> vs) m) [] ans) file).
Proof.
  revert m. induction vs as [|[[a d] desc] vs IH]; intros m; [reflexivity|].
  cbn [for_]. unfold bind at 1. unfold bind at 1.
  unfold non_volatility_test.on_port at 1.
  cbn [non_volatility_test.w_port non_volatility_test.w_file].
  rewrite nv_sim_write_mram. cbn [ret]. apply IH.
Qed.

Lemma test_data_pairs_ok :
  NoDup (fst <$> (vector_pair <$> non_volatility_test.test_data))
  /\ Forall (fun ad => valid_address (fst ad) /\ valid_word (snd ad))
       (vector_pair <$> non_volatility_test.test_data)
  /\ Forall (fun ad => fst ad <> 0x3FFFF)
       (vector_pair <$> non_volatility_test.test_data).
Proof.
  split; [|split].
  - apply (bool_decide_unpack _). vm_compute. exact I.
  - unfold valid_address, valid_word.
    repeat constructor; cbn; lia.
  - repeat constructor; cbn; lia.
Qed.

Section WriteVerify.
Variable hex : nat -> Z -> string.
Variable lines : string -> list string.
Variable split : string -> list string.
Variable py_int : string -> Z -> option Z.

(** X21: writing the vectors and verifying them on a device that keeps its
    content succeeds, whatever the device held before, provided the file
    gives back the addresses and words that were written to it. *)
Theorem write_then_verify_succeeds (loaded : list (Z * Z * string))
    (m : gmap Z Z) (file : option string) :
  (forall w, non_volatility_test.load_lines sim_serial_out split py_int
               (lines (test_file hex)) [] w = (Return (Some loaded), w)) ->
  vector_pair <$> loaded = vector_pair <$> non_volatility_test.test_data ->
  (non_volatility_test.write_test_data sim_serial_out hex ;;;
   non_volatility_test.verify_test_data sim_serial_out lines split py_int)
    (non_volatility_test.World (SimPort m [] true) file) =
  (Return (non_volatility_test.Returned true),
   non_volatility_test.World
     (SimPort (<[0x3FFFF := 0x0000]>
                 (sim_store (vector_pair <$> non_volatility_test.test_data) m))
        [] true)
     (Some (test_file hex))).
Proof.
  intros Hload Hsame.
  destruct test_data_pairs_ok as (HN & HV & H3).
  unfold bind at 1. unfold non_volatility_test.write_test_data.
  unfold bind at 1. rewrite nv_writes. unfold bind at 1.
  cbn [non_volatility_test.w_port ret]. fold (test_file hex).
  rewrite (proj2 (verify_checks_every_vector_aux lines split py_int (test_file hex)
                    loaded _ (SimPort m [] true) None Hload)).
  rewrite bool_decide_eq_true_2; [reflexivity|].
  set (m1 := sim_store _ m).
  assert (HF : Forall (fun ad => default 0 (<[0x3FFFF := 0]> m1 !! (fst ad mod 2 ^ 18))
                                   mod 2 ^ 16 = snd ad)
                 (vector_pair <$> loaded)).
  { rewrite Hsame. apply Forall_forall. intros [a d] Hin.
    pose proof (proj1 (Forall_forall _ _) HV _ Hin) as [Va Vd].
    pose proof (proj1 (Forall_forall _ _) H3 _ Hin) as Hne.
    cbn [fst snd] in *. unfold valid_address in Va. unfold valid_word in Vd.
    rewrite (Z.mod_small a) by lia. rewrite lookup_insert_ne by done.
    unfold m1. rewrite (proj1 (sim_store_lookup _ m HN HV) a d Hin).
    cbn [default]. apply Z.mod_small. lia. }
  apply Forall_fmap in HF. exact HF.
Qed.

(** X22: on a device that does not answer, verification fails as soon as the
    file holds one vector: a read without response counts as an error. *)
Theorem verify_fails_on_silent_device (text : string)
    (loaded : list (Z * Z * string)) (m : gmap Z Z) :
  (forall w, non_volatility_test.load_lines sim_serial_out split py_int
               (lines text) [] w = (Return (Some loaded), w)) ->
  loaded <> [] ->
  non_volatility_test.verify_test_data sim_serial_out lines split py_int
    (non_volatility_test.World (SimPort m [] false) (Some text)) =
  (Return (non_volatility_test.Returned false),
   non_volatility_test.World (SimPort (<[0x3FFFF := 0x0000]> m) [] false)
     (Some text)).
Proof.
  intros Hload Hne.
  unfold non_volatility_test.verify_test_data. unfold bind at 1.
  cbn [non_volatility_test.w_file]. unfold bind at 1.
  unfold non_volatility_test.on_port at 1.
  cbn [non_volatility_test.w_port non_volatility_test.w_file].
  rewrite warmup_clears_last_word_aux. unfold bind at 1. rewrite Hload.
  unfold bind at 1. unfold non_volatility_test.count_errors.
  rewrite count_errors_silent.
  destruct loaded as [|v loaded']; [contradiction|].
  cbn [length ret].
  destruct (Z.eqb_spec (0 + Z.of_nat (S (length loaded'))) 0); [lia|].
  reflexivity.
Qed.
End WriteVerify.

(** The file written by [write_test_data] reads back as the vectors
    written, with the stand-ins for Python's string machinery. *)
Lemma test_file_loads (w : non_volatility_test.world sim_port) :
  non_volatility_test.load_lines sim_serial_out strip_split plain_int
    (text_lines (test_file hex_upper)) [] w =
  (Return (Some non_volatility_test.test_data), w).
Proof. vm_compute. reflexivity. Qed.

Lemma verify_checks_every_vector_witness :
  (forall w, non_volatility_test.load_lines sim_serial_out strip_split plain_int
               (text_lines (test_file hex_upper)) [] w =
             (Return (Some non_volatility_test.test_data), w))
  /\ non_volatility_test.verify_test_data sim_serial_out text_lines
       strip_split plain_int
       (non_volatility_test.World sim_alive (Some (test_file hex_upper))) =
     (Return (non_volatility_test.Returned
                (bool_decide (Forall (holds (<[0x3FFFF := 0x0000]> ∅))
                                non_volatility_test.test_data))),
      non_volatility_test.World (SimPort (<[0x3FFFF := 0x0000]> ∅) [] true)
        (Some (test_file hex_upper))).
Proof.
  split; [exact test_file_loads|].
  exact (proj2 (verify_checks_every_vector text_lines strip_split plain_int
                  (test_file hex_upper) non_volatility_test.test_data ∅
                  sim_alive None test_file_loads)).
Defined.

Lemma write_then_verify_succeeds_witness :
  (forall w, non_volatility_test.load_lines sim_serial_out strip_split plain_int
               (text_lines (test_file hex_upper)) [] w =
             (Return (Some non_volatility_test.test_data), w))
  /\ fst ((non_volatility_test.write_test_data sim_serial_out hex_upper ;;;
           non_volatility_test.verify_test_data sim_serial_out text_lines
             strip_split plain_int)
            (non_volatility_test.World sim_alive None)) =
     Return (non_volatility_test.Returned true).
Proof.
  split; [exact test_file_loads|].
  exact (f_equal fst
           (write_then_verify_succeeds hex_upper text_lines strip_split
              plain_int non_volatility_test.test_data ∅ None
              test_file_loads eq_refl)).
Defined.

Lemma verify_fails_on_silent_device_witness :
  (forall w, non_volatility_test.load_lines sim_serial_out strip_split plain_int
               (text_lines (test_file hex_upper)) [] w =
             (Return (Some non_volatility_test.test_data), w))
  /\ non_volatility_test.test_data <> []
  /\ fst (non_volatility_test.verify_test_data sim_serial_out text_lines
            strip_split plain_int
            (non_volatility_test.World sim_silent (Some (test_file hex_upper)))) =
     Return (non_volatility_test.Returned false).
Proof.
  assert (Hne : non_volatility_test.test_data <> []) by discriminate.
  split; [exact test_file_loads|]. split; [exact Hne|].
  exact (f_equal fst
           (verify_fails_on_silent_device text_lines strip_split plain_int
              (test_file hex_upper) non_volatility_test.test_data ∅
              test_file_loads Hne)).
Defined.

(** ** More on the codec and the device *)

Lemma byte_land (b : Z) : 0 <= b <= 255 -> Z.land b 0xFF = b.
Proof. intros Hb. rewrite land_ones_8. apply Z.mod_small. lia. Qed.

Lemma decode_word_arith (b0 b1 : Z) :
  0 <= b0 <= 255 -> 0 <= b1 <= 255 -> decode_word b0 b1 = b0 * 2 ^ 8 + b1.
Proof.
  intros H0 H1. unfold decode_word. rewrite Z.shiftl_mul_pow2 by lia.
  rewrite <- Z.add_nocarry_lor; [reflexivity|].
  apply Z.bits_inj'. intros n Hn. rewrite Z.land_spec, Z.bits_0.
  destruct (Z.lt_ge_cases n 8).
  - rewrite Z.mul_pow2_bits_low by lia. reflexivity.
  - rewrite (Z.bits_above_log2 b1 n); [apply andb_false_r | lia |].
    destruct (Z.eq_dec b1 0) as [->|]; [cbn; lia|].
    apply Z.log2_lt_pow2; [lia|].
    apply Z.lt_le_trans with (2 ^ 8); [lia|].
    apply Z.pow_le_mono_r; lia.
Qed.

(** X23: the other round trip of the response codec: two response bytes decode
    to a 16-bit word, and splitting that word gives the two bytes back. *)
Theorem decode_then_split (b0 b1 : Z) :
  0 <= b0 <= 255 -> 0 <= b1 <= 255 ->
  0 <= decode_word b0 b1 <= 0xFFFF
  /\ data_h (decode_word b0 b1) = b0
  /\ data_l (decode_word b0 b1) = b1.
Proof.
  intros H0 H1. rewrite (decode_word_arith b0 b1 H0 H1).
  unfold data_h, data_l. rewrite !land_ones_8, Z.shiftr_div_pow2 by lia.
  split; [lia|]. split.
  - rewrite Z.div_add_l by lia. rewrite (Z.div_small b1) by lia.
    rewrite Z.add_0_r. apply Z.mod_small. lia.
  - rewrite Z.add_comm, Z.mod_add by lia. apply Z.mod_small. lia.
Qed.

Lemma decode_then_split_witness :
  0 <= 0xDE <= 255 /\ 0 <= 0xAD <= 255 /\
  0 <= decode_word 0xDE 0xAD <= 0xFFFF
  /\ data_h (decode_word 0xDE 0xAD) = 0xDE
  /\ data_l (decode_word 0xDE 0xAD) = 0xAD.
Proof.
  assert (H0 : 0 <= 0xDE <= 255) by lia. assert (H1 : 0 <= 0xAD <= 255) by lia.
  split; [exact H0|]. split; [exact H1|].
  exact (decode_then_split 0xDE 0xAD H0 H1).
Defined.

(** X24: within the address space and the word space the commands are
    unambiguous: two write commands with the same bytes carry the same
    address and word, two read commands the same address, and a write
    command is never a read command. *)
Theorem commands_injective (addr addr' word word' : Z) :
  0 <= addr <= 0x3FFFF -> 0 <= addr' <= 0x3FFFF ->
  0 <= word <= 0xFFFF -> 0 <= word' <= 0xFFFF ->
  (write_cmd addr word = write_cmd addr' word' -> addr = addr' /\ word = word')
  /\ (read_cmd addr = read_cmd addr' -> addr = addr')
  /\ write_cmd addr word <> read_cmd addr'.
Proof.
  intros Ha Ha' Hw Hw'.
  assert (Ea : wire_address (addr_h addr) (addr_m addr) (addr_l addr) = addr)
    by (rewrite wire_address_mod; apply Z.mod_small; lia).
  assert (Ea' : wire_address (addr_h addr') (addr_m addr') (addr_l addr') = addr')
    by (rewrite wire_address_mod; apply Z.mod_small; lia).
  assert (Ew : decode_word (data_h word) (data_l word) = word)
    by (rewrite decode_word_mod; apply Z.mod_small; lia).
  assert (Ew' : decode_word (data_h word') (data_l word') = word')
    by (rewrite decode_word_mod; apply Z.mod_small; lia).
  split; [|split].
  - unfold write_cmd. intros [= Hh Hm Hl Hdh Hdl].
    rewrite <- Ea, <- Ea', <- Ew, <- Ew'. by rewrite Hh, Hm, Hl, Hdh, Hdl.
  - unfold read_cmd. intros [= Hh Hm Hl].
    rewrite <- Ea, <- Ea'. by rewrite Hh, Hm, Hl.
  - unfold write_cmd, read_cmd. discriminate.
Qed.

Lemma commands_injective_witness :
  0 <= 0x100 <= 0x3FFFF /\ 0 <= 0x101 <= 0x3FFFF /\
  0 <= 0xAA55 <= 0xFFFF /\ 0 <= 0xAA55 <= 0xFFFF /\
  write_cmd 0x100 0xAA55 <> read_cmd 0x101.
Proof.
  assert (Ha : 0 <= 0x100 <= 0x3FFFF) by lia.
  assert (Ha' : 0 <= 0x101 <= 0x3FFFF) by lia.
  assert (Hw : 0 <= 0xAA55 <= 0xFFFF) by lia.
  split; [exact Ha|]. split; [exact Ha'|]. split; [exact Hw|].
  split; [exact Hw|].
  exact (proj2 (proj2 (commands_injective 0x100 0x101 0xAA55 0xAA55
                         Ha Ha' Hw Hw))).
Defined.

(** X25: through the wire and back: on a device that answers, [write_mram] of a
    valid word to a valid address followed by [read_mram] of that address
    returns the word, and leaves the device memory changed at that address
    only. *)
Theorem write_then_read_returns_word (addr word : Z) (m : gmap Z Z) :
  0 <= addr <= 0x3FFFF -> 0 <= word <= 0xFFFF ->
  (march_test.write_mram sim_serial addr word ;;;
   march_test.read_mram sim_serial addr) (SimPort m [] true) =
  (Return word, SimPort (<[addr := word]> m) [] true).
Proof.
  intros Ha Hw. unfold bind. rewrite sim_write_mram, sim_read_mram. cbv zeta.
  rewrite wire_address_mod, !decode_word_mod.
  rewrite (Z.mod_small addr) by lia. rewrite (Z.mod_small word) by lia.
  rewrite lookup_insert_eq. cbn [default].
  rewrite (Z.mod_small word) by lia. reflexivity.
Qed.

Lemma write_then_read_returns_word_witness :
  0 <= 0x00100 <= 0x3FFFF /\ 0 <= 0xAA55 <= 0xFFFF /\
  (march_test.write_mram sim_serial 0x00100 0xAA55 ;;;
   march_test.read_mram sim_serial 0x00100) sim_alive =
  (Return 0xAA55, SimPort (<[0x00100 := 0xAA55]> ∅) [] true).
Proof.
  assert (Ha : 0 <= 0x00100 <= 0x3FFFF) by lia.
  assert (Hw : 0 <= 0xAA55 <= 0xFFFF) by lia.
  split; [exact Ha|]. split; [exact Hw|].
  exact (write_then_read_returns_word 0x00100 0xAA55 ∅ Ha Hw).
Defined.
